(** * The multiplayer match-session engine of [game-server/server.js]

    A shallow embedding of the Boggle match server: the two waiting queues,
    the session store, the wager escrow against the item store, the scoring
    engine and the pause / reconnect machinery, followed by the properties
    of the specification that concern them.

    Conventions of the embedding.
    - JavaScript objects that are shared by reference (sockets, game
      objects) live in explicit heaps ([sockets], [games]) and are named by
      their address; [activeGames] maps a game id to such an address, and
      timer closures keep the address they captured.
    - [Date.now()] is the field [now] of the state; the environment advances
      it.  [setTimeout] appends a pending timer carrying its due time;
      the event loop fires it with [fireTimer].
    - [ws.send] appends to the log [outbox].
    - Random draws ([generateName], [generateBoard]) are arguments.
    - Item counts are integers; [x || 0] on a count is [default 0].
    - [itemsData.players] is a plain object, so [players[name]] also finds
      what the object inherits.  A store is the map of its records; the
      record under the key [__proto__], when there is one, stands for the
      prototype that an assignment to [players['__proto__']] installs.
      [Found] tells a record from an inherited member and from nothing.
    - A [TypeError] ends the function that raises it and its callers up to
      the [catch] of the socket's message callback, which only logs it: a
      message handler is given by the state it leaves, returning or
      throwing.  Nothing catches an exception of a timer callback, and the
      process ends ([crashes]).

    The accounts behind the item store, the leaderboards and the Scrabble
    games of the same file follow as functions on their stores
    ([itemsData.players], a board, [scrabbleData]): a store is an argument
    and a result, session tokens, timestamps and the draws of a shuffle are
    arguments, and names are strings of ASCII characters. *)

From Stdlib Require Import ZArith Lia List String Ascii Sorted.
From stdpp Require Import base option list gmap strings.

Local Open Scope Z_scope.

(** ** Constants *)

Definition GAME_TIME : Z := 180.
Definition RECONNECT_GRACE_PERIOD : Z := 30000.

Definition ITEM_ORDER : list string :=
  ["silver_coin"; "gold_coin"; "opal"; "amethyst"; "moonstone"; "ruby";
   "sapphire"; "diamond"; "faded_page"; "cursed_amulet"]%string.

(** ** Scoring engine *)

(** [SCORE_TABLE = { 3: 1, 4: 1, 5: 2, 6: 3, 7: 5 }] *)
Definition SCORE_TABLE (len : nat) : option Z :=
  match len with
  | 3%nat => Some 1
  | 4%nat => Some 1
  | 5%nat => Some 2
  | 6%nat => Some 3
  | 7%nat => Some 5
  | _ => None
  end.

(** [len >= 8 ? 11 : (SCORE_TABLE[len] || 0)] *)
Definition getWordScore (len : nat) : Z :=
  if (8 <=? len)%nat then 11 else default 0 (SCORE_TABLE len).

(** [String.prototype.toUpperCase], on the ASCII range (the letters a
    client can pick from the board). *)
Definition upperAscii (c : ascii) : ascii :=
  let n := nat_of_ascii c in
  if ((97 <=? n) && (n <=? 122))%nat then ascii_of_nat (n - 32) else c.

Fixpoint toUpperCase (s : string) : string :=
  match s with
  | EmptyString => EmptyString
  | String c s' => String (upperAscii c) (toUpperCase s')
  end.

(** [new Set(iterable)] followed by a spread: the elements in order of
    first insertion, each once.  [setAdd seen l] adds the elements of [l]
    to a set whose insertion order so far is [seen]. *)
Fixpoint setAdd (seen l : list string) : list string :=
  match l with
  | [] => seen
  | x :: l' => if bool_decide (x ∈ seen) then setAdd seen l' else setAdd (seen ++ [x]) l'
  end.

Definition newSet (l : list string) : list string := setAdd [] l.

(** [Array.prototype.includes] / [Set.prototype.has] on strings. *)
Definition includes (l : list string) (w : string) : bool := bool_decide (w ∈ l).

Module Scored.
  (** One entry [{ word, points, shared }] of a result. *)
Record t := mk { word : string; points : Z; shared : bool }.
End Scored.

Module Results.
  (** [{ words, score, wordCount }] as returned by [calculateResults]. *)
Record t := mk { words : list Scored.t; score : Z; wordCount : nat }.
End Results.

(** [a.localeCompare(b)] as [-1], [0] or [1].  The collation of the engine
    is not modelled: the order of the character codes stands for it.  It
    only breaks ties between words of one length in the list a result
    shows, and nothing proved below depends on how it breaks them. *)
Definition localeCompare (a b : string) : Z :=
  match String.compare a b with
  | Lt => -1
  | Eq => 0
  | Gt => 1
  end.

(** The comparator handed to [scoredWords.sort]:
    [b.word.length - a.word.length || a.word.localeCompare(b.word)]. *)
Definition compareScored (a b : Scored.t) : Z :=
  let d := Z.of_nat (String.length (Scored.word b)) - Z.of_nat (String.length (Scored.word a)) in
  if d =? 0 then localeCompare (Scored.word a) (Scored.word b) else d.

(** [Array.prototype.sort] is stable: insertion of each element in front of
    the first one it does not follow. *)
Fixpoint insertScored (x : Scored.t) (l : list Scored.t) : list Scored.t :=
  match l with
  | [] => [x]
  | y :: l' => if compareScored x y <=? 0 then x :: y :: l' else y :: insertScored x l'
  end.

Fixpoint sortScored (l : list Scored.t) : list Scored.t :=
  match l with
  | [] => []
  | x :: l' => insertScored x (sortScored l')
  end.

(** The body of the [words.map] callback. *)
Definition scoreWord (sharedWords : list string) (word : string) : Scored.t :=
  let isShared := includes sharedWords word in
  let pts := if isShared then 0 else getWordScore (String.length word) in
  Scored.mk word pts isShared.

Definition calculateResults (words sharedWords : list string) : Results.t :=
  let scoredWords := map (scoreWord sharedWords) words in
  let score := foldl (fun acc sw => acc + Scored.points sw) 0 scoredWords in
  Results.mk (sortScored scoredWords) score (length words).

(** [new Set(p1Words.filter(w => p2Words.includes(w)))] *)
Definition sharedWordsOf (p1Words p2Words : list string) : list string :=
  newSet (filter (fun w => includes p2Words w = true) p1Words).

(** Sum of a list of point values. *)
Definition total (l : list Z) : Z := foldr Z.add 0 l.

(** What the specification says a word of [mine] is worth against the list
    [theirs]: nothing when it is in the intersection, the table value of its
    length otherwise. *)
Definition contribution (mine theirs : list string) (w : string) : Z :=
  if includes mine w && includes theirs w then 0 else getWordScore (String.length w).



(** ** Lookups in a plain object

    [obj[name]] on an object that maps names to records finds an own
    property, or else what the object inherits.  Every plain object
    inherits the members of [Object.prototype], twelve functions and
    accessors, all truthy.  [itemsData.players['__proto__'] = record]
    stores no own property: it makes the record the prototype of the
    object, after which [players['__proto__']] is that record and the
    fields of the record are inherited as well (digests and timestamps are
    non-empty strings, so every field is truthy).  [Object.keys] does not
    list the prototype and [JSON.stringify] does not write it. *)

Definition OBJECT_PROTOTYPE : list string :=
  ["constructor"; "__defineGetter__"; "__defineSetter__"; "hasOwnProperty";
   "__lookupGetter__"; "__lookupSetter__"; "isPrototypeOf"; "propertyIsEnumerable";
   "toString"; "valueOf"; "__proto__"; "toLocaleString"]%string.

(** The fields of a record of [itemsData.players]. *)
Definition RECORD_FIELDS : list string :=
  ["pinHash"; "inventory"; "created"; "lastSeen"; "sessions"; "history"]%string.

(** What [obj[name]] finds: a record, an inherited member (a function, the
    prototype itself or a field of an installed prototype, never a record),
    or [undefined]. *)
Inductive Found (A : Type) :=
| Own (a : A)
| Inherited
| Missing.
Arguments Own {A} a.
Arguments Inherited {A}.
Arguments Missing {A}.

(** [name] is no record of [players] but [players[name]] is defined. *)
Definition inherits {A} (players : gmap string A) (name : string) : bool :=
  bool_decide (name ∈ OBJECT_PROTOTYPE)
  || (bool_decide (is_Some (players !! "__proto__"%string))
      && bool_decide (name ∈ RECORD_FIELDS)).

(** [players[name]] *)
Definition lookupPlayer {A} (players : gmap string A) (name : string) : Found A :=
  match players !! name with
  | Some a => Own a
  | None => if inherits players name then Inherited else Missing
  end.

(** ** Wager maps and the item store *)

(** [m[item] || 0] *)
Definition getc (m : gmap string Z) (item : string) : Z := default 0 (m !! item).

(** [emptyWager()] of [startGame], also the initial [pot] of [finishGame]. *)
Definition emptyWager : gmap string Z :=
  list_to_map (map (fun item => (item, 0)) ITEM_ORDER).

(** The debit loop of [handleConfirmWager]:
    [if (wager[item] > 0) inv[item] = Math.max(0, (inv[item] || 0) - wager[item])]. *)
Definition debitStep (wager inv : gmap string Z) (item : string) : gmap string Z :=
  if 0 <? getc wager item
  then <[item := Z.max 0 (getc inv item - getc wager item)]> inv
  else inv.

Definition debitItems (wager inv : gmap string Z) : gmap string Z :=
  foldl (debitStep wager) inv ITEM_ORDER.

(** The credit loop shared by [handleLeaveWager], [handleCancelReady] and
    both branches of [finishGame]:
    [inv[item] = (inv[item] || 0) + (m[item] || 0)]. *)
Definition creditStep (m inv : gmap string Z) (item : string) : gmap string Z :=
  <[item := getc inv item + getc m item]> inv.

Definition creditItems (m inv : gmap string Z) : gmap string Z :=
  foldl (creditStep m) inv ITEM_ORDER.

(** [pot[item] = (w0[item] || 0) + (w1[item] || 0)] over [ITEM_ORDER]. *)
Definition potOf (w0 w1 : gmap string Z) : gmap string Z :=
  foldl (fun pot item => <[item := getc w0 item + getc w1 item]> pot) emptyWager ITEM_ORDER.

(** [ITEM_ORDER.some(item => pot[item] > 0)] *)
Definition hasWagerOf (pot : gmap string Z) : bool :=
  existsb (fun item => 0 <? getc pot item) ITEM_ORDER.


(** The effect of a credit, respectively a debit, of player [name] on the
    item store when the loop runs to its end: nothing when the name has no
    record. *)
Definition creditStore (name : string) (m : gmap string Z)
    (items : gmap string (gmap string Z)) : gmap string (gmap string Z) :=
  match items !! name with
  | Some inv => <[name := creditItems m inv]> items
  | None => items
  end.

Definition debitStore (name : string) (wager : gmap string Z)
    (items : gmap string (gmap string Z)) : gmap string (gmap string Z) :=
  match items !! name with
  | Some inv => <[name := debitItems wager inv]> items
  | None => items
  end.

(** The count of [item] that [name] holds in the store ([0] without a record). *)
Definition holdings (items : gmap string (gmap string Z)) (name item : string) : Z :=
  match items !! name with
  | Some inv => getc inv item
  | None => 0
  end.

(** The count of [item] in an inventory after a credit of [m], respectively
    a debit of [wager]. *)
Definition credited (m inv : gmap string Z) (item : string) : Z :=
  if bool_decide (item ∈ ITEM_ORDER) then getc inv item + getc m item else getc inv item.

Definition debited (wager inv : gmap string Z) (item : string) : Z :=
  if bool_decide (item ∈ ITEM_ORDER) && (0 <? getc wager item)
  then Z.max 0 (getc inv item - getc wager item) else getc inv item.

(** ** Sockets, players, games *)

Inductive Status := SWager | SReady | SCountdown | SActive | SFinished.

Global Instance Status_eq_dec : EqDecision Status.
Proof. solve_decision. Defined.

Module Sock.
  (** The fields the server hangs on a [ws] object.  [playerName] is the
      empty string while it is [null] (both are falsy, and [set_name]
      never stores an empty name); [isOpen] is
      [readyState === WebSocket.OPEN]. *)
Record t := mk { playerId : string; playerName : string; wagerMode : bool; isOpen : bool }.
Definition set_playerId (v : string) (s : t) := mk v (playerName s) (wagerMode s) (isOpen s).
Definition set_playerName (v : string) (s : t) := mk (playerId s) v (wagerMode s) (isOpen s).
Definition set_wagerMode (v : bool) (s : t) := mk (playerId s) (playerName s) v (isOpen s).
Definition set_isOpen (v : bool) (s : t) := mk (playerId s) (playerName s) (wagerMode s) v.
End Sock.

Module Player.
  (** A slot of [game.players]; [ws] is the address of the socket. *)
Record t := mk {
    ws : nat; id : string; name : string; words : option (list string);
    connected : bool; wager : gmap string Z; wagerConfirmed : bool; ready : bool }.
Definition set_ws (v : nat) (p : t) :=
    mk v (id p) (name p) (words p) (connected p) (wager p) (wagerConfirmed p) (ready p).
Definition set_words (v : option (list string)) (p : t) :=
    mk (ws p) (id p) (name p) v (connected p) (wager p) (wagerConfirmed p) (ready p).
Definition set_connected (v : bool) (p : t) :=
    mk (ws p) (id p) (name p) (words p) v (wager p) (wagerConfirmed p) (ready p).
Definition set_wager (v : gmap string Z) (p : t) :=
    mk (ws p) (id p) (name p) (words p) (connected p) v (wagerConfirmed p) (ready p).
Definition set_wagerConfirmed (v : bool) (p : t) :=
    mk (ws p) (id p) (name p) (words p) (connected p) (wager p) v (ready p).
Definition set_ready (v : bool) (p : t) :=
    mk (ws p) (id p) (name p) (words p) (connected p) (wager p) (wagerConfirmed p) v.
End Player.

Module Game.
  (** The game object of [startGame]; [players] is the two-element array
      [(player0, player1)].  [null] timestamps are [None]. *)
Record t := mk {
    id : Z; board : list string; startTime : option Z; endTime : option Z;
    wagerMode : bool; player0 : Player.t; player1 : Player.t; status : Status;
    paused : bool; pausedAt : option Z; pausedTimeRemaining : option Z }.
Definition set_startTime (v : option Z) (g : t) :=
    mk (id g) (board g) v (endTime g) (wagerMode g) (player0 g) (player1 g) (status g)
       (paused g) (pausedAt g) (pausedTimeRemaining g).
Definition set_endTime (v : option Z) (g : t) :=
    mk (id g) (board g) (startTime g) v (wagerMode g) (player0 g) (player1 g) (status g)
       (paused g) (pausedAt g) (pausedTimeRemaining g).
Definition set_status (v : Status) (g : t) :=
    mk (id g) (board g) (startTime g) (endTime g) (wagerMode g) (player0 g) (player1 g) v
       (paused g) (pausedAt g) (pausedTimeRemaining g).
Definition set_paused (v : bool) (g : t) :=
    mk (id g) (board g) (startTime g) (endTime g) (wagerMode g) (player0 g) (player1 g) (status g)
       v (pausedAt g) (pausedTimeRemaining g).
Definition set_pausedAt (v : option Z) (g : t) :=
    mk (id g) (board g) (startTime g) (endTime g) (wagerMode g) (player0 g) (player1 g) (status g)
       (paused g) v (pausedTimeRemaining g).
Definition set_pausedTimeRemaining (v : option Z) (g : t) :=
    mk (id g) (board g) (startTime g) (endTime g) (wagerMode g) (player0 g) (player1 g) (status g)
       (paused g) (pausedAt g) v.
  (** [game.players[i]] for [i] in [{0, 1}]. *)
Definition player (i : nat) (g : t) : Player.t :=
    match i with O => player0 g | _ => player1 g end.
Definition set_player (i : nat) (p : Player.t) (g : t) :=
    match i with
    | O => mk (id g) (board g) (startTime g) (endTime g) (wagerMode g) p (player1 g) (status g)
              (paused g) (pausedAt g) (pausedTimeRemaining g)
    | _ => mk (id g) (board g) (startTime g) (endTime g) (wagerMode g) (player0 g) p (status g)
              (paused g) (pausedAt g) (pausedTimeRemaining g)
    end.
  (** [game.players.findIndex(p => p.id === pid)], [None] for [-1]. *)
Definition findIndex (pid : string) (g : t) : option nat :=
    if bool_decide (Player.id (player0 g) = pid) then Some 0%nat
    else if bool_decide (Player.id (player1 g) = pid) then Some 1%nat
    else None.
End Game.

Module Disc.
  (** An entry of [disconnectedPlayers]; [timeout] is the timer handle. *)
Record t := mk {
    gameId : Z; playerIndex : nat; name : string; words : list string; timeout : nat }.
End Disc.

(** ** Outbound messages *)

Module WagerResult.
  (** [{ winner, pot, returned? }] *)
Record t := mk { winner : option string; pot : gmap string Z; returned : bool }.
End WagerResult.

Inductive Msg :=
| MError (message : string)
| MSearching
| MSearchCancelled
| MGameMatched (gameId : Z) (board : list string) (duration : Z) (wagerMode : bool) (opponent : string)
| MCountdownTick (seconds : Z)
| MGameStart (duration : Z)
| MWagerUpdated (wager : gmap string Z)
| MOpponentWagerConfirmed
| MWagersLocked (myWager oppWager : gmap string Z)
| MOpponentCancelledWager
| MOpponentReady
| MBothReady (countdown : Z)
| MReconnectFailed (reason : string)
| MReconnectSuccess (gameId : Z) (board : list string) (timeRemaining : Z)
    (opponent : string) (paused : bool) (words : list string)
| MGamePaused (reason : string) (timeRemaining : option Z)
| MGameResuming (countdown : Z) (timeRemaining : option Z)
| MGameResumed (timeRemaining : option Z)
| MOpponentReconnected
| MOpponentLeft (reason : string)
| MOpponentDisconnected (canReconnect : bool) (gracePeriod : Z)
| MGameEnd (winner : option string) (sharedWords : list string)
    (wagerResult : option WagerResult.t)
    (youName : string) (you : Results.t) (opponentName : string) (opponent : Results.t).

(** ** Timers *)

(** The closures handed to [setTimeout], with what each one captured:
    [g] is the address of the captured game object. *)
Inductive Callback :=
| CountdownTick (g : nat) (i : Z)
| BecomeActive (g : nat)
| AutoEnd (g : nat)
| ResumeTick (g : nat) (i : Z)
| ResumeNow (g : nat) (timeRemaining : option Z)
| GraceExpired (ws : nat) (g : nat) (playerIndex : nat) (gameId : Z).

Module Timer.
Record t := mk { handle : nat; due : Z; callback : Callback }.
End Timer.

(** ** Server state *)

Module State.
Record t := mk {
    now : Z;
    sockets : gmap nat Sock.t;
    games : gmap nat Game.t;
    nextGame : nat;
    waitingPlayersCasual : list nat;
    waitingPlayersWager : list nat;
    activeGames : gmap Z nat;
    playerToGame : gmap string Z;
    disconnectedPlayers : gmap string Disc.t;
    itemsData : gmap string (gmap string Z);
    timers : list Timer.t;
    nextTimer : nat;
    outbox : list (nat * Msg) }.
Definition set_now v s :=
    mk v (sockets s) (games s) (nextGame s) (waitingPlayersCasual s) (waitingPlayersWager s)
       (activeGames s) (playerToGame s) (disconnectedPlayers s) (itemsData s) (timers s)
       (nextTimer s) (outbox s).
Definition set_sockets v s :=
    mk (now s) v (games s) (nextGame s) (waitingPlayersCasual s) (waitingPlayersWager s)
       (activeGames s) (playerToGame s) (disconnectedPlayers s) (itemsData s) (timers s)
       (nextTimer s) (outbox s).
Definition set_games v s :=
    mk (now s) (sockets s) v (nextGame s) (waitingPlayersCasual s) (waitingPlayersWager s)
       (activeGames s) (playerToGame s) (disconnectedPlayers s) (itemsData s) (timers s)
       (nextTimer s) (outbox s).
Definition set_nextGame v s :=
    mk (now s) (sockets s) (games s) v (waitingPlayersCasual s) (waitingPlayersWager s)
       (activeGames s) (playerToGame s) (disconnectedPlayers s) (itemsData s) (timers s)
       (nextTimer s) (outbox s).
Definition set_waitingPlayersCasual v s :=
    mk (now s) (sockets s) (games s) (nextGame s) v (waitingPlayersWager s)
       (activeGames s) (playerToGame s) (disconnectedPlayers s) (itemsData s) (timers s)
       (nextTimer s) (outbox s).
Definition set_waitingPlayersWager v s :=
    mk (now s) (sockets s) (games s) (nextGame s) (waitingPlayersCasual s) v
       (activeGames s) (playerToGame s) (disconnectedPlayers s) (itemsData s) (timers s)
       (nextTimer s) (outbox s).
Definition set_activeGames v s :=
    mk (now s) (sockets s) (games s) (nextGame s) (waitingPlayersCasual s) (waitingPlayersWager s)
       v (playerToGame s) (disconnectedPlayers s) (itemsData s) (timers s)
       (nextTimer s) (outbox s).
Definition set_playerToGame v s :=
    mk (now s) (sockets s) (games s) (nextGame s) (waitingPlayersCasual s) (waitingPlayersWager s)
       (activeGames s) v (disconnectedPlayers s) (itemsData s) (timers s)
       (nextTimer s) (outbox s).
Definition set_disconnectedPlayers v s :=
    mk (now s) (sockets s) (games s) (nextGame s) (waitingPlayersCasual s) (waitingPlayersWager s)
       (activeGames s) (playerToGame s) v (itemsData s) (timers s)
       (nextTimer s) (outbox s).
Definition set_itemsData v s :=
    mk (now s) (sockets s) (games s) (nextGame s) (waitingPlayersCasual s) (waitingPlayersWager s)
       (activeGames s) (playerToGame s) (disconnectedPlayers s) v (timers s)
       (nextTimer s) (outbox s).
Definition set_timers v s :=
    mk (now s) (sockets s) (games s) (nextGame s) (waitingPlayersCasual s) (waitingPlayersWager s)
       (activeGames s) (playerToGame s) (disconnectedPlayers s) (itemsData s) v
       (nextTimer s) (outbox s).
Definition set_nextTimer v s :=
    mk (now s) (sockets s) (games s) (nextGame s) (waitingPlayersCasual s) (waitingPlayersWager s)
       (activeGames s) (playerToGame s) (disconnectedPlayers s) (itemsData s) (timers s)
       v (outbox s).
Definition set_outbox v s :=
    mk (now s) (sockets s) (games s) (nextGame s) (waitingPlayersCasual s) (waitingPlayersWager s)
       (activeGames s) (playerToGame s) (disconnectedPlayers s) (itemsData s) (timers s)
       (nextTimer s) v.
End State.

(** ** Primitive effects *)

(** [ws.send(JSON.stringify(m))] *)
Definition send (ws : nat) (m : Msg) (st : State.t) : State.t :=
  State.set_outbox (State.outbox st ++ [(ws, m)]) st.

(** [ws.readyState === WebSocket.OPEN] *)
Definition sockOpen (st : State.t) (ws : nat) : bool :=
  match State.sockets st !! ws with
  | Some s => Sock.isOpen s
  | None => false
  end.

(** [if (p.connected && p.ws.readyState === WebSocket.OPEN) p.ws.send(m)] *)
Definition notify (p : Player.t) (m : Msg) (st : State.t) : State.t :=
  if Player.connected p && sockOpen st (Player.ws p) then send (Player.ws p) m st else st.

Definition broadcastToGame (game : Game.t) (m : Msg) (st : State.t) : State.t :=
  notify (Game.player1 game) m (notify (Game.player0 game) m st).

(** [setTimeout(cb, delay)]; the handle it returns is [State.nextTimer st]. *)
Definition setTimeout (cb : Callback) (delay : Z) (st : State.t) : State.t :=
  State.set_nextTimer (S (State.nextTimer st))
    (State.set_timers
       (State.timers st ++ [Timer.mk (State.nextTimer st) (State.now st + delay) cb]) st).

Definition clearTimeout (h : nat) (st : State.t) : State.t :=
  State.set_timers (filter (fun t => Timer.handle t ≠ h) (State.timers st)) st.

(** Writing a mutated game object back to its address. *)
Definition putGame (g : nat) (game : Game.t) (st : State.t) : State.t :=
  State.set_games (<[g := game]> (State.games st)) st.

(** [activeGames.get(gameId)]: the address and the object behind it. *)
Definition getGame (gameId : Z) (st : State.t) : option (nat * Game.t) :=
  match State.activeGames st !! gameId with
  | Some g => match State.games st !! g with
              | Some game => Some (g, game)
              | None => None
              end
  | None => None
  end.

(** A piece of code returns or throws; either way it leaves a state. *)
Inductive Outcome :=
| Returns (st : State.t)
| Throws (st : State.t).

Definition stateOf (o : Outcome) : State.t :=
  match o with
  | Returns st => st
  | Throws st => st
  end.

Definition threw (o : Outcome) : bool :=
  match o with
  | Returns _ => false
  | Throws _ => true
  end.

(** [o; k]: the rest [k] runs when [o] returned. *)
Definition andThen (o : Outcome) (k : State.t → Outcome) : Outcome :=
  match o with
  | Returns st => k st
  | Throws st => Throws st
  end.

(** [getPlayerData(name)], that is [itemsData.players[name] || null],
    restricted to the [inventory] field: [Missing] is [null]. *)
Definition getPlayerData (name : string) (st : State.t) : Found (gmap string Z) :=
  lookupPlayer (State.itemsData st) name.

(** [const d = getPlayerData(name); if (d) ITEM_ORDER.forEach(... += m[item])].
    An inherited member is truthy and has no [inventory]: the first
    [d.inventory[item]] is a [TypeError]. *)
Definition creditPlayer (name : string) (m : gmap string Z) (st : State.t) : Outcome :=
  match getPlayerData name st with
  | Own inv => Returns (State.set_itemsData (<[name := creditItems m inv]> (State.itemsData st)) st)
  | Inherited => Throws st
  | Missing => Returns st
  end.

(** [const d = getPlayerData(name); if (d) ITEM_ORDER.forEach(... debit ...)].
    The loop reads [d.inventory[item]] for the kinds with a positive count
    only: on an inherited member it throws at the first of them. *)
Definition debitPlayer (name : string) (wager : gmap string Z) (st : State.t) : Outcome :=
  match getPlayerData name st with
  | Own inv => Returns (State.set_itemsData (<[name := debitItems wager inv]> (State.itemsData st)) st)
  | Inherited => if existsb (fun item => 0 <? getc wager item) ITEM_ORDER
                 then Throws st else Returns st
  | Missing => Returns st
  end.

(** The body of the refund loop of [handleLeaveWager] and [handleCancelReady]. *)
Definition refundConfirmed (p : Player.t) (st : State.t) : Outcome :=
  if Player.wagerConfirmed p then creditPlayer (Player.name p) (Player.wager p) st
  else Returns st.

(** [arr.indexOf(x)] then [arr.splice(idx, 1)] when found. *)
Fixpoint removeFirst (x : nat) (l : list nat) : list nat :=
  match l with
  | [] => []
  | y :: l' => if bool_decide (y = x) then l' else y :: removeFirst x l'
  end.

(** [null] in arithmetic is [0]. *)
Definition num (o : option Z) : Z := default 0 o.

(** [Math.max(0, Math.floor((game.endTime - Date.now()) / 1000))] *)
Definition secondsLeft (game : Game.t) (st : State.t) : Z :=
  Z.max 0 ((num (Game.endTime game) - State.now st) / 1000).

(** ** Settlement *)

Definition cleanupGame (gameId : Z) (st : State.t) : State.t :=
  match getGame gameId st with
  | Some (_, game) =>
      let ids := [Player.id (Game.player0 game); Player.id (Game.player1 game)] in
      let st1 := State.set_playerToGame (foldl (fun m i => delete i m) (State.playerToGame st) ids) st in
      let st2 := State.set_disconnectedPlayers
                   (foldl (fun m i => delete i m) (State.disconnectedPlayers st1) ids) st1 in
      State.set_activeGames (delete gameId (State.activeGames st2)) st2
  | None => st
  end.

(** [winnerIndex] of [finishGame], [None] for [-1]. *)
Definition winnerIndexOf (p1Results p2Results : Results.t) : option nat :=
  if Results.score p2Results <? Results.score p1Results then Some 0%nat
  else if Results.score p1Results <? Results.score p2Results then Some 1%nat
  else None.

(** "Distribute wager winnings": what the credits leave, and the
    [wagerResult] that is built when they returned. *)
Definition distributeWager (game : Game.t) (winnerIndex : option nat) (st : State.t)
  : Outcome * option WagerResult.t :=
  let pot := potOf (Player.wager (Game.player0 game)) (Player.wager (Game.player1 game)) in
  if hasWagerOf pot then
    match winnerIndex with
    | Some i =>
        let winnerName := Player.name (Game.player i game) in
        (creditPlayer winnerName pot st, Some (WagerResult.mk (Some winnerName) pot false))
    | None =>
        (andThen
           (creditPlayer (Player.name (Game.player0 game)) (Player.wager (Game.player0 game)) st)
           (creditPlayer (Player.name (Game.player1 game)) (Player.wager (Game.player1 game))),
         Some (WagerResult.mk None pot true))
    end
  else (Returns st, None).

(** [finishGame(gameId)], returning or throwing: the status is set first, a
    credit that throws leaves the function before the results are sent and
    before [cleanupGame]. *)
Definition finishGameOutcome (gameId : Z) (st : State.t) : Outcome :=
  match getGame gameId st with
  | None => Returns st
  | Some (g, game0) =>
      if bool_decide (Game.status game0 = SFinished) then Returns st else
      let game := Game.set_status SFinished game0 in
      let st1 := putGame g game st in
      let p1Words := default [] (Player.words (Game.player0 game)) in
      let p2Words := default [] (Player.words (Game.player1 game)) in
      let shared := sharedWordsOf p1Words p2Words in
      let p1Results := calculateResults p1Words shared in
      let p2Results := calculateResults p2Words shared in
      let winnerIndex := winnerIndexOf p1Results p2Results in
      let winner := (fun i => Player.name (Game.player i game)) <$> winnerIndex in
      let '(distributed, wagerResult) := distributeWager game winnerIndex st1 in
      andThen distributed (fun st2 =>
        let name0 := Player.name (Game.player0 game) in
        let name1 := Player.name (Game.player1 game) in
        let st3 := notify (Game.player0 game)
                     (MGameEnd winner shared wagerResult name0 p1Results name1 p2Results) st2 in
        let st4 := notify (Game.player1 game)
                     (MGameEnd winner shared wagerResult name1 p2Results name0 p1Results) st3 in
        Returns (cleanupGame gameId st4))
  end.

(** The state [finishGame(gameId)] leaves. *)
Definition finishGame (gameId : Z) (st : State.t) : State.t :=
  stateOf (finishGameOutcome gameId st).

(** What [finishGame] computes from the game object alone: the shared
    words, both results and the winner index. *)
Definition p1WordsOf (game : Game.t) : list string := default [] (Player.words (Game.player0 game)).
Definition p2WordsOf (game : Game.t) : list string := default [] (Player.words (Game.player1 game)).
Definition sharedOf (game : Game.t) : list string := sharedWordsOf (p1WordsOf game) (p2WordsOf game).
Definition p1ResultsOf (game : Game.t) : Results.t := calculateResults (p1WordsOf game) (sharedOf game).
Definition p2ResultsOf (game : Game.t) : Results.t := calculateResults (p2WordsOf game) (sharedOf game).
Definition winnerOf (game : Game.t) : option nat := winnerIndexOf (p1ResultsOf game) (p2ResultsOf game).

(** The item store after the settlement of [game], and the [wagerResult]
    that is reported. *)
Definition settledItems (game : Game.t) (winnerIndex : option nat)
    (items : gmap string (gmap string Z)) : gmap string (gmap string Z) :=
  let pot := potOf (Player.wager (Game.player0 game)) (Player.wager (Game.player1 game)) in
  if hasWagerOf pot then
    match winnerIndex with
    | Some i => creditStore (Player.name (Game.player i game)) pot items
    | None =>
        creditStore (Player.name (Game.player1 game)) (Player.wager (Game.player1 game))
          (creditStore (Player.name (Game.player0 game)) (Player.wager (Game.player0 game)) items)
    end
  else items.

Definition wagerResultOf (game : Game.t) (winnerIndex : option nat) : option WagerResult.t :=
  let pot := potOf (Player.wager (Game.player0 game)) (Player.wager (Game.player1 game)) in
  if hasWagerOf pot then
    match winnerIndex with
    | Some i => Some (WagerResult.mk (Some (Player.name (Game.player i game))) pot false)
    | None => Some (WagerResult.mk None pot true)
    end
  else None.

(** The [game_end] message for slot [i] of [game]. *)
Definition gameEndFor (i : nat) (game : Game.t) : Msg :=
  let winner := (fun j => Player.name (Game.player j game)) <$> winnerOf game in
  let wr := wagerResultOf game (winnerOf game) in
  match i with
  | O => MGameEnd winner (sharedOf game) wr
           (Player.name (Game.player0 game)) (p1ResultsOf game)
           (Player.name (Game.player1 game)) (p2ResultsOf game)
  | _ => MGameEnd winner (sharedOf game) wr
           (Player.name (Game.player1 game)) (p2ResultsOf game)
           (Player.name (Game.player0 game)) (p1ResultsOf game)
  end.

(** What [notify p m] appends to the log in state [st]. *)
Definition delivered (st : State.t) (p : Player.t) (m : Msg) : list (nat * Msg) :=
  if Player.connected p && sockOpen st (Player.ws p) then [(Player.ws p, m)] else [].

(** The item store after the refund loop has visited slot [p]. *)
Definition refundStore (p : Player.t) (items : gmap string (gmap string Z))
  : gmap string (gmap string Z) :=
  if Player.wagerConfirmed p then creditStore (Player.name p) (Player.wager p) items else items.

(** No player of [game] goes by a name that the item store only inherits:
    each name has a record or is no property of the store at all. *)
Definition plainNames (game : Game.t) (st : State.t) : Prop :=
  getPlayerData (Player.name (Game.player0 game)) st ≠ Inherited ∧
  getPlayerData (Player.name (Game.player1 game)) st ≠ Inherited.

(** ** Pause and resume *)

Definition pauseGame (g : nat) (disconnectedPlayerName : string) (st : State.t) : State.t :=
  match State.games st !! g with
  | None => st
  | Some game0 =>
      if Game.paused game0 then st else
      let remaining := secondsLeft game0 st in
      let game := Game.set_pausedTimeRemaining (Some remaining)
                    (Game.set_pausedAt (Some (State.now st)) (Game.set_paused true game0)) in
      let st1 := putGame g game st in
      broadcastToGame game
        (MGamePaused (disconnectedPlayerName ++ " disconnected")%string (Some remaining)) st1
  end.

Definition resumeGame (g : nat) (st : State.t) : State.t :=
  match State.games st !! g with
  | None => st
  | Some game =>
      if negb (Game.paused game) then st else
      let countdownSeconds := 3 in
      let timeRemaining := Game.pausedTimeRemaining game in
      let st1 := broadcastToGame game (MGameResuming countdownSeconds timeRemaining) st in
      let st2 := foldl (fun s i => setTimeout (ResumeTick g i) ((countdownSeconds - i) * 1000) s)
                   st1 [3; 2; 1] in
      setTimeout (ResumeNow g timeRemaining) (countdownSeconds * 1000) st2
  end.

(** ** Timer callbacks *)

(** [activeGames.has(game.id)] *)
Definition activeHas (game : Game.t) (st : State.t) : bool :=
  bool_decide (is_Some (State.activeGames st !! Game.id game)).

(** The callbacks, returning or throwing: the two that call [finishGame]
    throw when it does. *)
Definition callbackOutcome (cb : Callback) (st : State.t) : Outcome :=
  match cb with
  | CountdownTick g i =>
      match State.games st !! g with
      | Some game =>
          if activeHas game st && bool_decide (Game.status game = SCountdown)
          then Returns (broadcastToGame game (MCountdownTick i) st) else Returns st
      | None => Returns st
      end
  | BecomeActive g =>
      match State.games st !! g with
      | Some game0 =>
          if activeHas game0 st && bool_decide (Game.status game0 = SCountdown) then
            let game := Game.set_endTime (Some (State.now st + GAME_TIME * 1000))
                          (Game.set_startTime (Some (State.now st))
                             (Game.set_status SActive game0)) in
            Returns (broadcastToGame game (MGameStart GAME_TIME) (putGame g game st))
          else Returns st
      | None => Returns st
      end
  | AutoEnd g =>
      match State.games st !! g with
      | Some game =>
          if activeHas game st && negb (bool_decide (Game.status game = SFinished))
          then finishGameOutcome (Game.id game) st else Returns st
      | None => Returns st
      end
  | ResumeTick g i =>
      match State.games st !! g with
      | Some game =>
          if Game.paused game then Returns (broadcastToGame game (MCountdownTick i) st)
          else Returns st
      | None => Returns st
      end
  | ResumeNow g timeRemaining =>
      match State.games st !! g with
      | Some game0 =>
          if negb (Game.paused game0) then Returns st else
          let game := Game.set_pausedTimeRemaining None
                        (Game.set_pausedAt None
                           (Game.set_paused false
                              (Game.set_endTime (Some (State.now st + num timeRemaining * 1000)) game0))) in
          Returns (broadcastToGame game (MGameResumed timeRemaining) (putGame g game st))
      | None => Returns st
      end
  | GraceExpired ws g playerIndex gameId =>
      let st1 := match State.sockets st !! ws with
                 | Some s => State.set_disconnectedPlayers
                               (delete (Sock.playerId s) (State.disconnectedPlayers st)) st
                 | None => st
                 end in
      let st2 := match State.games st1 !! g with
                 | Some game => notify (Game.player (1 - playerIndex) game)
                                  (MOpponentLeft "Opponent did not reconnect") st1
                 | None => st1
                 end in
      finishGameOutcome gameId st2
  end.

(** The state a callback leaves. *)
Definition runCallback (cb : Callback) (st : State.t) : State.t :=
  stateOf (callbackOutcome cb st).

(** The event loop runs a pending timer: it leaves the pending list and its
    callback runs. *)
Definition fireOutcome (h : nat) (st : State.t) : Outcome :=
  match find (fun t => bool_decide (Timer.handle t = h)) (State.timers st) with
  | Some t => callbackOutcome (Timer.callback t) (clearTimeout h st)
  | None => Returns st
  end.

Definition fireTimer (h : nat) (st : State.t) : State.t := stateOf (fireOutcome h st).

(** ** Matchmaking *)

Definition startCountdownPhase (g : nat) (st : State.t) : State.t :=
  match State.games st !! g with
  | None => st
  | Some game =>
      let countdownSeconds := 3 in
      let st1 := putGame g (Game.set_status SCountdown game) st in
      let st2 := foldl (fun s i => setTimeout (CountdownTick g i) ((countdownSeconds - i) * 1000) s)
                   st1 [3; 2; 1] in
      let st3 := setTimeout (BecomeActive g) (countdownSeconds * 1000) st2 in
      setTimeout (AutoEnd g) ((GAME_TIME + 15) * 1000 + countdownSeconds * 1000) st3
  end.

(** [startGame(player1, player2, wagerMode)]; the game id is
    [`game_${Date.now()}`], represented by the timestamp. *)
Definition startGame (player1 player2 : nat) (wagerMode : bool) (board : list string)
    (st : State.t) : State.t :=
  match State.sockets st !! player1, State.sockets st !! player2 with
  | Some s1, Some s2 =>
      let gameId := State.now st in
      let slot ws s := Player.mk ws (Sock.playerId s) (Sock.playerName s) None true
                         emptyWager false false in
      let game := Game.mk gameId board None None wagerMode (slot player1 s1) (slot player2 s2)
                    (if wagerMode then SWager else SCountdown) false None None in
      let g := State.nextGame st in
      let st1 := State.set_nextGame (S g) (putGame g game st) in
      let st2 := State.set_activeGames (<[gameId := g]> (State.activeGames st1)) st1 in
      let st3 := State.set_playerToGame
                   (<[Sock.playerId s2 := gameId]>
                      (<[Sock.playerId s1 := gameId]> (State.playerToGame st2))) st2 in
      let st4 := send player1 (MGameMatched gameId board GAME_TIME wagerMode (Sock.playerName s2)) st3 in
      let st5 := send player2 (MGameMatched gameId board GAME_TIME wagerMode (Sock.playerName s1)) st4 in
      if wagerMode then st5 else startCountdownPhase g st5
  | _, _ => st
  end.

(** [handleFindGame(ws, wagerMode)]; [generated] is the draw of
    [generateName()] and [board] that of [generateBoard()]. *)
Definition handleFindGame (ws : nat) (wagerMode : bool) (generated : string)
    (board : list string) (st : State.t) : State.t :=
  match State.sockets st !! ws with
  | None => st
  | Some s =>
      let inCasual := bool_decide (ws ∈ State.waitingPlayersCasual st) in
      let inWager := bool_decide (ws ∈ State.waitingPlayersWager st) in
      if inCasual || inWager then send ws (MError "Already searching") st
      else if bool_decide (is_Some (State.playerToGame st !! Sock.playerId s))
      then send ws (MError "Already in game") st
      else
        let name := if bool_decide (Sock.playerName s = ""%string) then generated
                    else Sock.playerName s in
        let s' := Sock.set_wagerMode wagerMode (Sock.set_playerName name s) in
        let st1 := State.set_sockets (<[ws := s']> (State.sockets st)) st in
        let queue := if wagerMode then State.waitingPlayersWager st1
                     else State.waitingPlayersCasual st1 in
        let setQueue q := if wagerMode then State.set_waitingPlayersWager q
                          else State.set_waitingPlayersCasual q in
        match queue with
        | opponent :: rest => startGame ws opponent wagerMode board (setQueue rest st1)
        | [] => send ws MSearching (setQueue (queue ++ [ws]) st1)
        end
  end.

Definition handleCancelSearch (ws : nat) (st : State.t) : State.t :=
  if bool_decide (ws ∈ State.waitingPlayersCasual st) then
    send ws MSearchCancelled
      (State.set_waitingPlayersCasual (removeFirst ws (State.waitingPlayersCasual st)) st)
  else if bool_decide (ws ∈ State.waitingPlayersWager st) then
    send ws MSearchCancelled
      (State.set_waitingPlayersWager (removeFirst ws (State.waitingPlayersWager st)) st)
  else st.

(** ** Wager handlers

    The handlers of [handleMessage] run inside the [try] of the socket's
    message callback: each is given by the state it leaves. *)

(** [ws.playerId], for a socket that exists. *)
Definition playerIdOf (ws : nat) (st : State.t) : option string :=
  Sock.playerId <$> State.sockets st !! ws.

Definition handleUpdateWager (ws : nat) (gameId : Z) (wager : gmap string Z)
    (st : State.t) : State.t :=
  match getGame gameId st, playerIdOf ws st with
  | Some (g, game), Some pid =>
      if negb (bool_decide (Game.status game = SWager)) then st else
      match Game.findIndex pid game with
      | None => st
      | Some playerIndex =>
          let game1 := Game.set_player playerIndex
                         (Player.set_wager wager (Game.player playerIndex game)) game in
          notify (Game.player (1 - playerIndex) game1) (MWagerUpdated wager) (putGame g game1 st)
      end
  | _, _ => st
  end.

Definition handleConfirmWager (ws : nat) (gameId : Z) (wager : gmap string Z)
    (st : State.t) : State.t :=
  match getGame gameId st, playerIdOf ws st with
  | Some (g, game), Some pid =>
      if negb (bool_decide (Game.status game = SWager)) then st else
      match Game.findIndex pid game with
      | None => st
      | Some playerIndex =>
          let player := Player.set_wagerConfirmed true
                          (Player.set_wager wager (Game.player playerIndex game)) in
          let game1 := Game.set_player playerIndex player game in
          let st1 := putGame g game1 st in
          match debitPlayer (Player.name player) wager st1 with
          | Throws st2 => st2
          | Returns st2 =>
              let st3 := notify (Game.player (1 - playerIndex) game1) MOpponentWagerConfirmed st2 in
              if Player.wagerConfirmed (Game.player0 game1)
                 && Player.wagerConfirmed (Game.player1 game1)
              then
                let game2 := Game.set_status SReady game1 in
                let st4 := putGame g game2 st3 in
                let st5 := notify (Game.player0 game2)
                             (MWagersLocked (Player.wager (Game.player0 game2))
                                (Player.wager (Game.player1 game2))) st4 in
                notify (Game.player1 game2)
                  (MWagersLocked (Player.wager (Game.player1 game2))
                     (Player.wager (Game.player0 game2))) st5
              else st3
          end
      end
  | _, _ => st
  end.

(** The common body of [handleLeaveWager] and [handleCancelReady] after the
    player lookup: refund, notify, clean up.  A refund that throws leaves
    the body before the notification and the deletions. *)
Definition tearDown (gameId : Z) (game : Game.t) (playerIndex : nat) (st : State.t) : Outcome :=
  andThen (andThen (refundConfirmed (Game.player0 game) st) (refundConfirmed (Game.player1 game)))
    (fun st1 =>
       let st2 := notify (Game.player (1 - playerIndex) game) MOpponentCancelledWager st1 in
       let ids := [Player.id (Game.player0 game); Player.id (Game.player1 game)] in
       let st3 := State.set_playerToGame
                    (foldl (fun m i => delete i m) (State.playerToGame st2) ids) st2 in
       Returns (State.set_activeGames (delete gameId (State.activeGames st3)) st3)).

Definition handleLeaveWager (ws : nat) (gameId : Z) (st : State.t) : State.t :=
  match getGame gameId st, playerIdOf ws st with
  | Some (g, game), Some pid =>
      match Game.findIndex pid game with
      | None => st
      | Some playerIndex => stateOf (tearDown gameId game playerIndex st)
      end
  | _, _ => st
  end.

Definition handleCancelReady (ws : nat) (gameId : Z) (st : State.t) : State.t :=
  match getGame gameId st, playerIdOf ws st with
  | Some (g, game), Some pid =>
      match Game.findIndex pid game with
      | None => st
      | Some playerIndex => stateOf (tearDown gameId game playerIndex st)
      end
  | _, _ => st
  end.

Definition handlePlayerReady (ws : nat) (gameId : Z) (st : State.t) : State.t :=
  match getGame gameId st, playerIdOf ws st with
  | Some (g, game), Some pid =>
      if negb (bool_decide (Game.status game = SReady)) then st else
      match Game.findIndex pid game with
      | None => st
      | Some playerIndex =>
          let game1 := Game.set_player playerIndex
                         (Player.set_ready true (Game.player playerIndex game)) game in
          let st1 := putGame g game1 st in
          let st2 := notify (Game.player (1 - playerIndex) game1) MOpponentReady st1 in
          if Player.ready (Game.player0 game1) && Player.ready (Game.player1 game1)
          then startCountdownPhase g (broadcastToGame game1 (MBothReady 3) st2)
          else st2
      end
  | _, _ => st
  end.

(** ** Play *)

Definition handleSubmitWords (ws : nat) (words : list string) (st : State.t) : State.t :=
  match playerIdOf ws st with
  | None => st
  | Some pid =>
      match State.playerToGame st !! pid with
      | None => send ws (MError "Not in a game") st
      | Some gameId =>
          match getGame gameId st with
          | None => st
          | Some (g, game) =>
              match Game.findIndex pid game with
              | None => st
              | Some i =>
                  let stored := newSet (map toUpperCase words) in
                  let game1 := Game.set_player i (Player.set_words (Some stored) (Game.player i game)) game in
                  let st1 := putGame g game1 st in
                  if bool_decide (Player.words (Game.player0 game1) ≠ None)
                     && bool_decide (Player.words (Game.player1 game1) ≠ None)
                  then finishGame gameId st1 else st1
              end
          end
      end
  end.

(** ** Disconnect and reconnect *)

Definition handleDisconnect (ws : nat) (st0 : State.t) : State.t :=
  let st := State.set_waitingPlayersWager (removeFirst ws (State.waitingPlayersWager st0))
              (State.set_waitingPlayersCasual (removeFirst ws (State.waitingPlayersCasual st0)) st0) in
  match playerIdOf ws st with
  | None => st
  | Some pid =>
      match State.playerToGame st !! pid with
      | None => st
      | Some gameId =>
          match getGame gameId st with
          | None => st
          | Some (g, game) =>
              if bool_decide (Game.status game = SFinished) then st else
              match Game.findIndex pid game with
              | None => st
              | Some playerIndex =>
                  let player := Player.set_connected false (Game.player playerIndex game) in
                  let game1 := Game.set_player playerIndex player game in
                  let st1 := putGame g game1 st in
                  let handle := State.nextTimer st1 in
                  let st2 := setTimeout (GraceExpired ws g playerIndex gameId)
                               RECONNECT_GRACE_PERIOD st1 in
                  let info := Disc.mk gameId playerIndex (Player.name player)
                                (default [] (Player.words player)) handle in
                  let st3 := State.set_disconnectedPlayers
                               (<[pid := info]> (State.disconnectedPlayers st2)) st2 in
                  let st4 := pauseGame g (Player.name player) st3 in
                  notify (Game.player (1 - playerIndex) game1)
                    (MOpponentDisconnected true (RECONNECT_GRACE_PERIOD / 1000)) st4
              end
          end
      end
  end.

(** The ['close'] event of a socket: its [readyState] leaves [OPEN], then
    [handleDisconnect(ws)] runs. *)
Definition onClose (ws : nat) (st : State.t) : State.t :=
  handleDisconnect ws
    (State.set_sockets (alter (Sock.set_isOpen false) ws (State.sockets st)) st).

Definition handleReconnect (ws : nat) (gameId : Z) (oldPlayerId : string)
    (st : State.t) : State.t :=
  match getGame gameId st with
  | None => send ws (MReconnectFailed "Game not found or already ended") st
  | Some (g, game) =>
      match Game.findIndex oldPlayerId game with
      | None => send ws (MReconnectFailed "Player not in game") st
      | Some playerIndex =>
          let opponent := Game.player (1 - playerIndex) game in
          let disconnectInfo := State.disconnectedPlayers st !! oldPlayerId in
          let st1 := match disconnectInfo with
                     | Some d => State.set_disconnectedPlayers
                                   (delete oldPlayerId (State.disconnectedPlayers st))
                                   (clearTimeout (Disc.timeout d) st)
                     | None => st
                     end in
          let player := Player.set_connected true
                          (Player.set_ws ws (Game.player playerIndex game)) in
          let game1 := Game.set_player playerIndex player game in
          let st2 := putGame g game1 st1 in
          let st3 := State.set_sockets
                       (alter (fun s => Sock.set_playerName (Player.name player)
                                          (Sock.set_playerId oldPlayerId s)) ws
                          (State.sockets st2)) st2 in
          let st4 := State.set_playerToGame (<[oldPlayerId := gameId]> (State.playerToGame st3)) st3 in
          let timeRemaining :=
            match Game.paused game1, Game.pausedTimeRemaining game1 with
            | true, Some r => r
            | _, _ => secondsLeft game1 st4
            end in
          let st5 := send ws (MReconnectSuccess gameId (Game.board game1) timeRemaining
                                (Player.name opponent) (Game.paused game1)
                                (default [] (Disc.words <$> disconnectInfo))) st4 in
          let st6 := if Game.paused game1 && negb (Player.connected opponent)
                     then send ws (MGamePaused "Opponent disconnected" None) st5
                     else if Game.paused game1 then resumeGame g st5
                     else st5 in
          notify opponent MOpponentReconnected st6
      end
  end.

(** ** The dispatcher and the event loop *)

(** The inbound messages of [handleMessage] that concern a match. *)
Inductive InMsg :=
| find_game (wagerMode : bool) (generated : string) (board : list string)
| cancel_search
| submit_words (words : list string)
| reconnect (gameId : Z) (playerId : string)
| update_wager (gameId : Z) (wager : gmap string Z)
| confirm_wager (gameId : Z) (wager : gmap string Z)
| leave_wager (gameId : Z)
| player_ready (gameId : Z)
| cancel_ready (gameId : Z).

Definition handleMessage (ws : nat) (msg : InMsg) (st : State.t) : State.t :=
  match msg with
  | find_game wagerMode generated board => handleFindGame ws wagerMode generated board st
  | cancel_search => handleCancelSearch ws st
  | submit_words words => handleSubmitWords ws words st
  | reconnect gameId playerId => handleReconnect ws gameId playerId st
  | update_wager gameId wager => handleUpdateWager ws gameId wager st
  | confirm_wager gameId wager => handleConfirmWager ws gameId wager st
  | leave_wager gameId => handleLeaveWager ws gameId st
  | player_ready gameId => handlePlayerReady ws gameId st
  | cancel_ready gameId => handleCancelReady ws gameId st
  end.

(** What the environment can do to the server. [Connect ws pid name] is a
    new socket at address [ws] that was given the id [pid] and, when [name]
    is not empty, has taken that name with [set_name] or a login (its
    [welcome] and [name_updated] messages are not logged).  [Fire h] is
    the event loop running the pending timer [h], [Advance ms] the clock
    moving on. *)
Inductive Event :=
| Connect (ws : nat) (playerId name : string)
| Message (ws : nat) (msg : InMsg)
| Close (ws : nat)
| Fire (handle : nat)
| Advance (ms : Z).

Definition step (st : State.t) (e : Event) : State.t :=
  match e with
  | Connect ws pid name =>
      State.set_sockets (<[ws := Sock.mk pid name false true]> (State.sockets st)) st
  | Message ws msg => handleMessage ws msg st
  | Close ws => onClose ws st
  | Fire h => fireTimer h st
  | Advance ms => State.set_now (State.now st + ms) st
  end.

(** An exception that leaves a timer callback is caught nowhere: the
    process ends with it. *)
Definition crashes (st : State.t) (e : Event) : bool :=
  match e with
  | Fire h => threw (fireOutcome h st)
  | _ => false
  end.

(** The server serves the events in turn, until one ends the process. *)
Fixpoint run (st : State.t) (es : list Event) : State.t :=
  match es with
  | [] => st
  | e :: es' => if crashes st e then step st e else run (step st e) es'
  end.

(** The server just started, at time [t0], with the item store [items]. *)
Definition initial (t0 : Z) (items : gmap string (gmap string Z)) : State.t :=
  State.mk t0 ∅ ∅ 0 [] [] ∅ ∅ ∅ items [] 0 [].

(** The timers [startCountdownPhase] schedules at time [now] when the next
    free handle is [n]: three ticks, the start of the round, the automatic
    end. *)
Definition countdownTimers (g : nat) (now : Z) (n : nat) : list Timer.t :=
  [Timer.mk n (now + 0) (CountdownTick g 3);
   Timer.mk (S n) (now + 1000) (CountdownTick g 2);
   Timer.mk (S (S n)) (now + 2000) (CountdownTick g 1);
   Timer.mk (S (S (S n))) (now + 3000) (BecomeActive g);
   Timer.mk (S (S (S (S n)))) (now + 198000) (AutoEnd g)].

(** The pending automatic ends among some timers. *)
Definition isAutoEnd (t : Timer.t) : bool :=
  match Timer.callback t with
  | AutoEnd _ => true
  | _ => false
  end.

Definition autoEnds (timers : list Timer.t) : list Timer.t := List.filter isAutoEnd timers.

(** The game object [startGame] creates at time [now] for the arriver on
    socket [player1] and the waiter on socket [player2]. *)
Definition matchedGame (player1 : nat) (s1 : Sock.t) (player2 : nat) (s2 : Sock.t)
    (wagerMode : bool) (board : list string) (now : Z) : Game.t :=
  Game.mk now board None None wagerMode
    (Player.mk player1 (Sock.playerId s1) (Sock.playerName s1) None true emptyWager false false)
    (Player.mk player2 (Sock.playerId s2) (Sock.playerName s2) None true emptyWager false false)
    (if wagerMode then SWager else SCountdown) false None None.

(** The game object after [pauseGame] has paused it at time [now]. *)
Definition pausedGame (game : Game.t) (st : State.t) : Game.t :=
  Game.set_pausedTimeRemaining (Some (secondsLeft game st))
    (Game.set_pausedAt (Some (State.now st)) (Game.set_paused true game)).

(** The [game_paused] message of [pauseGame]. *)
Definition pausedMsg (name : string) (game : Game.t) (st : State.t) : Msg :=
  MGamePaused (name ++ " disconnected")%string (Some (secondsLeft game st)).

(** ** Example runs

    Two accounts, [ann] with one gold coin and [bob] with four, connect at
    time 1000 on sockets 1 and 2 and are matched: the session has the id
    1000 and lives at address 0; the arriver, [bob], is slot 0. *)

Definition gold (n : Z) : gmap string Z := {[ "gold_coin"%string := n ]}.

Definition demoItems : gmap string (gmap string Z) :=
  {[ "ann"%string := gold 1; "bob"%string := gold 4 ]}.

Definition demoConnect : list Event :=
  [Connect 1 "p1" "ann"; Connect 2 "p2" "bob"]%string.

Definition wagerMatched : State.t := Eval vm_compute in
  run (initial 1000 demoItems)
    (demoConnect ++ [Message 1 (find_game true "" []); Message 2 (find_game true "" [])]).

(** [ann] alone, searching for a casual match. *)
Definition casualWaiting : State.t := Eval vm_compute in
  run (initial 1000 demoItems) (demoConnect ++ [Message 1 (find_game false "" [])]).

(** Both confirm a stake they hold (one coin each way, two for [bob]). *)
Definition wagerReady : State.t := Eval vm_compute in
  run wagerMatched
    [Message 1 (confirm_wager 1000 (gold 1)); Message 2 (confirm_wager 1000 (gold 2))].

(** The three countdown ticks (timers 0 to 2), then the start of the round
    (timer 3); timer 4, the automatic end, stays pending. *)
Definition countdown : list Event :=
  [Fire 0; Advance 1000; Fire 1; Advance 1000; Fire 2; Advance 1000; Fire 3]%nat.


(** The same two players in a casual match, when the round has started. *)
Definition casualMatched : State.t := Eval vm_compute in
  run (initial 1000 demoItems)
    (demoConnect ++ [Message 1 (find_game false "" []); Message 2 (find_game false "" [])]).

Definition casualActive : State.t := Eval vm_compute in run casualMatched countdown.

(** The game object of an example run, by id (a finished, empty game when
    the id is not in the session store). *)
Definition noPlayer : Player.t := Player.mk 0 "" "" None false ∅ false false.

Definition noGame : Game.t :=
  Game.mk 0 [] None None false noPlayer noPlayer SFinished false None None.

Definition gameOf (gameId : Z) (st : State.t) : Game.t :=
  match getGame gameId st with
  | Some (_, game) => game
  | None => noGame
  end.

(** [ann] confirms five gold coins while she holds one. *)
Definition overbid : State.t := Eval vm_compute in
  handleConfirmWager 1 1000 (gold 5) wagerMatched.

(** In the casual round, [ann] submits a list, then another one. *)
Definition submittedOnce : State.t := Eval vm_compute in
  handleSubmitWords 1 ["cat"; "Cat"]%string casualActive.

Definition submittedTwice : State.t := Eval vm_compute in
  handleSubmitWords 1 ["dog"]%string submittedOnce.

(** In the casual round, ten seconds in, [ann]'s socket closes; thirty
    seconds later her grace timer (handle 5) is due. *)
Definition casualDropped : State.t := Eval vm_compute in
  run casualActive [Advance 10000; Close 1; Advance 30000].

(** A reconnect that the client sends twice.  Ten seconds into the casual
    round [ann]'s socket closes (170 seconds are left); five seconds later
    she is back on socket 3 and sends [reconnect], and two seconds after
    that she sends it again, so that two resume countdowns are pending; the
    first one ends at 22000 and the round goes on. *)
Definition resumedOnce : State.t := Eval vm_compute in
  run casualActive
    [Advance 10000; Close 1;
     Advance 5000; Connect 3 "p3" ""; Message 3 (reconnect 1000 "p1"); Fire 6;
     Advance 1000; Fire 7;
     Advance 1000; Fire 8; Message 3 (reconnect 1000 "p1"); Fire 10;
     Advance 1000; Fire 9; Fire 11]%string.

(** At 23000 socket 3 closes: the round is paused with 169 seconds left. *)
Definition droppedAgain : State.t := Eval vm_compute in
  run resumedOnce [Advance 1000; Fire 12; Close 3].

(** At 24000 the second resume countdown (timer 13) ends. *)
Definition staleResumed : State.t := Eval vm_compute in
  run droppedAgain [Advance 1000; Fire 13].

(** At 30000, seven seconds after the drop, [ann] reconnects on socket 4. *)
Definition reconnectedLate : State.t := Eval vm_compute in
  run staleResumed [Advance 6000; Connect 4 "p4" ""; Message 4 (reconnect 1000 "p1")]%string.

(** A guest and an account.  [cy] has no account and stakes nothing,
    [bob] stakes two gold coins; both are ready and the round starts; [cy]
    submits a word of five letters. *)
Definition wagerRound : list Event :=
  [Message 1 (find_game true "" []); Message 2 (find_game true "" []);
   Message 1 (confirm_wager 1000 ∅); Message 2 (confirm_wager 1000 (gold 2));
   Message 1 (player_ready 1000); Message 2 (player_ready 1000)] ++ countdown.

Definition guestActive : State.t := Eval vm_compute in
  run (initial 1000 demoItems)
    ([Connect 1 "p1" "cy"; Connect 2 "p2" "bob"]%string ++ wagerRound).

Definition guestLeads : State.t := Eval vm_compute in
  handleSubmitWords 1 ["hello"]%string guestActive.

(** The same match when the guest has taken the name [constructor], which
    every plain object inherits. *)
Definition heirActive : State.t := Eval vm_compute in
  run (initial 1000 demoItems)
    ([Connect 1 "p1" "constructor"; Connect 2 "p2" "bob"]%string ++ wagerRound).

Definition heirLeads : State.t := Eval vm_compute in
  handleSubmitWords 1 ["hello"]%string heirActive.

(** Ten seconds into that round [bob]'s socket closes; thirty seconds later
    his grace timer is due. *)
Definition heirDropped : State.t := Eval vm_compute in
  run heirLeads [Advance 10000; Close 2; Advance 30000].

(** ** Notions of the statements about sessions *)

(** The timers [resumeGame] schedules at time [now] when the next free
    handle is [n]: three ticks and the resumption with the snapshot [r]. *)
Definition resumeTimers (g : nat) (now : Z) (n : nat) (r : option Z) : list Timer.t :=
  [Timer.mk n (now + 0) (ResumeTick g 3);
   Timer.mk (S n) (now + 1000) (ResumeTick g 2);
   Timer.mk (S (S n)) (now + 2000) (ResumeTick g 1);
   Timer.mk (S (S (S n))) (now + 3000) (ResumeNow g r)].

(** The two waiting queues of a state. *)
Definition queuesOf (st : State.t) : list nat * list nat :=
  (State.waitingPlayersCasual st, State.waitingPlayersWager st).

(** Each queue holds at most one socket. *)
Definition smallQueues (st : State.t) : Prop :=
  (length (State.waitingPlayersCasual st) ≤ 1)%nat ∧
  (length (State.waitingPlayersWager st) ≤ 1)%nat.

(** No socket waits in both queues. *)
Definition disjointQueues (st : State.t) : Prop :=
  ∀ ws, ws ∈ State.waitingPlayersCasual st → ws ∉ State.waitingPlayersWager st.

(** ** Accounts *)

Module Account.
(** A record of [itemsData.players]; timestamps are ISO strings, a history
    entry is [{ items, timestamp }]. *)
Record t := mk {
    pinHash : string; inventory : gmap string Z; created : string; lastSeen : string;
    sessions : list string; history : list (list string * string) }.
Definition set_inventory (v : gmap string Z) (a : t) :=
    mk (pinHash a) v (created a) (lastSeen a) (sessions a) (history a).
Definition set_lastSeen (v : string) (a : t) :=
    mk (pinHash a) (inventory a) (created a) v (sessions a) (history a).
Definition set_sessions (v : list string) (a : t) :=
    mk (pinHash a) (inventory a) (created a) (lastSeen a) v (history a).
Definition set_history (v : list (list string * string)) (a : t) :=
    mk (pinHash a) (inventory a) (created a) (lastSeen a) (sessions a) v.
End Account.


(** [arr.slice(-n)]: the last [n] elements. *)
Definition sliceLast {A} (n : nat) (l : list A) : list A := drop (length l - n) l.

(** The result of [verifyPin]: [{ success: false, reason }] or
    [{ success: true, sessionToken, inventory }]. *)
Inductive PinResult :=
| PinFailed (reason : string)
| PinVerified (sessionToken : string) (inventory : gmap string Z).

Section Accounts.
(** [hashPin], the SHA-256 digest of the pin in hexadecimal, is not
    computed here: the functions below only compare its values. *)
Variable hashPin : string → string.


(** [verifyPin(name, pin)] *)
Definition verifyPin (name pin sessionToken now : string)
    (players : gmap string Account.t) : PinResult * gmap string Account.t :=
  match players !! name with
  | None => (PinFailed "not_found", players)
  | Some player =>
      if bool_decide (Account.pinHash player ≠ hashPin pin)
      then (PinFailed "wrong_pin", players)
      else
        let pushed := Account.sessions player ++ [sessionToken] in
        let sessions := if bool_decide (10 < length pushed)%nat then sliceLast 10 pushed
                        else pushed in
        let player' := Account.set_lastSeen now (Account.set_sessions sessions player) in
        (PinVerified sessionToken (Account.inventory player'), <[name := player']> players)
  end.

(** [verifySession(name, sessionToken)]: the inventory when the session is
    valid. *)
Definition verifySession (name sessionToken now : string)
    (players : gmap string Account.t) : option (gmap string Z) * gmap string Account.t :=
  match players !! name with
  | None => (None, players)
  | Some player =>
      if bool_decide (sessionToken ∈ Account.sessions player)
      then (Some (Account.inventory player), <[name := Account.set_lastSeen now player]> players)
      else (None, players)
  end.
End Accounts.

(** [player.inventory[item] = (player.inventory[item] || 0) + 1] *)
Definition addItem (inv : gmap string Z) (item : string) : gmap string Z :=
  <[item := getc inv item + 1]> inv.

(** [addItemsToPlayer(name, items)]: the new inventory, or [None] for
    [null]; [now] is the timestamp. *)
Definition addItemsToPlayer (name : string) (items : list string) (now : string)
    (players : gmap string Account.t) : option (gmap string Z) * gmap string Account.t :=
  match players !! name with
  | None => (None, players)
  | Some player =>
      let inventory := foldl addItem (Account.inventory player) items in
      let unshifted := (items, now) :: Account.history player in
      let history := if bool_decide (20 < length unshifted)%nat then take 20 unshifted
                     else unshifted in
      let player' := Account.set_history history
                       (Account.set_lastSeen now (Account.set_inventory inventory player)) in
      (Some inventory, <[name := player']> players)
  end.

(** The number of occurrences of [x] in [l]. *)
Definition occurrences (x : string) (l : list string) : Z :=
  Z.of_nat (length (filter (fun y => y = x) l)).

(** An account store for the examples: [ann], whose pin hashes to itself
    under the identity, with one gold coin and one open session. *)
Definition demoAccounts : gmap string Account.t :=
  {[ "ann"%string := Account.mk "1234" (gold 1) "d0" "d0" ["t0"%string] [] ]}.

(** ** Leaderboards *)

Definition MAX_LEADERBOARD_ENTRIES : nat := 20.

Module Entry.
(** An entry of a score, word-count or longest-word board:
    [{ name, value, word?, gridSize, difficulty, date }]. *)
Record t := mk {
    name : string; value : Z; word : option string; gridSize : Z; difficulty : string;
    date : string }.
End Entry.

(** [arr.sort(cmp)], stable as [sortScored] is: each element is inserted in
    front of the first one it does not follow. *)
Fixpoint insertBy {A} (cmp : A → A → Z) (x : A) (l : list A) : list A :=
  match l with
  | [] => [x]
  | y :: l' => if cmp x y <=? 0 then x :: y :: l' else y :: insertBy cmp x l'
  end.

Fixpoint sortBy {A} (cmp : A → A → Z) (l : list A) : list A :=
  match l with
  | [] => []
  | x :: l' => insertBy cmp x (sortBy cmp l')
  end.

(** The comparator [(a, b) => b.value - a.value]. *)
Definition byValueDesc (a b : Entry.t) : Z := Entry.value b - Entry.value a.

(** The update of one board in [handleSubmitScore]:
    [board.push(e); board.sort((a, b) => b.value - a.value);
     board = board.slice(0, MAX_LEADERBOARD_ENTRIES)]. *)
Definition addToBoard (e : Entry.t) (board : list Entry.t) : list Entry.t :=
  take MAX_LEADERBOARD_ENTRIES (sortBy byValueDesc (board ++ [e])).

Module Rich.
(** A row of [getRichestPlayers]: [{ name, totalItems, inventory }]. *)
Record t := mk { name : string; totalItems : Z; inventory : gmap string Z }.
End Rich.

(** [Object.values(inventory).reduce((a, b) => a + b, 0)] *)
Definition totalItemsOf (inventory : gmap string Z) : Z :=
  map_fold (fun _ v a => a + v) 0 inventory.

(** The comparator [(a, b) => b.totalItems - a.totalItems]. *)
Definition byTotalDesc (a b : Rich.t) : Z := Rich.totalItems b - Rich.totalItems a.

(** [getRichestPlayers(limit)]; [entries] is
    [Object.entries(itemsData.players)], in the order of the engine. *)
Definition getRichestPlayers (limit : nat) (entries : list (string * Account.t))
  : list Rich.t :=
  take limit
    (sortBy byTotalDesc
       (map (fun '(name, data) =>
               Rich.mk name (totalItemsOf (Account.inventory data)) (Account.inventory data))
          entries)).

(** The order of a board: no entry is followed by one with a higher key. *)
Definition descending {A} (key : A → Z) (l : list A) : Prop :=
  StronglySorted (fun a b => key b ≤ key a) l.

(** ** The Scrabble games *)

Module Tile.
(** [{ letter, points }] *)
Record t := mk { letter : string; points : Z }.
End Tile.

(** The standard distribution: 100 tiles, two of them blank. *)
Definition SCRABBLE_TILES : list Tile.t :=
  (replicate 9 (Tile.mk "A" 1) ++ replicate 2 (Tile.mk "B" 3) ++ replicate 2 (Tile.mk "C" 3)
   ++ replicate 4 (Tile.mk "D" 2) ++ replicate 12 (Tile.mk "E" 1) ++ replicate 2 (Tile.mk "F" 4)
   ++ replicate 3 (Tile.mk "G" 2) ++ replicate 2 (Tile.mk "H" 4) ++ replicate 9 (Tile.mk "I" 1)
   ++ replicate 1 (Tile.mk "J" 8) ++ replicate 1 (Tile.mk "K" 5) ++ replicate 4 (Tile.mk "L" 1)
   ++ replicate 2 (Tile.mk "M" 3) ++ replicate 6 (Tile.mk "N" 1) ++ replicate 8 (Tile.mk "O" 1)
   ++ replicate 2 (Tile.mk "P" 3) ++ replicate 1 (Tile.mk "Q" 10) ++ replicate 6 (Tile.mk "R" 1)
   ++ replicate 4 (Tile.mk "S" 1) ++ replicate 6 (Tile.mk "T" 1) ++ replicate 4 (Tile.mk "U" 1)
   ++ replicate 2 (Tile.mk "V" 4) ++ replicate 2 (Tile.mk "W" 4) ++ replicate 1 (Tile.mk "X" 8)
   ++ replicate 2 (Tile.mk "Y" 4) ++ replicate 1 (Tile.mk "Z" 10)
   ++ replicate 2 (Tile.mk "_" 0)).

(** [[a[i], a[j]] = [a[j], a[i]]], for indices inside the array. *)
Definition swap {A} (i j : nat) (a : list A) : list A :=
  match a !! i, a !! j with
  | Some x, Some y => <[j := x]> (<[i := y]> a)
  | _, _ => a
  end.

(** The loop of [shuffleArray] from index [i] down to 1; [draws] are the
    successive values of [Math.floor(Math.random() * (i + 1))], each of
    which is at most the [i] it is drawn for. *)
Fixpoint shuffleFrom {A} (i : nat) (draws : list nat) (a : list A) : list A :=
  match i, draws with
  | S i', j :: draws' => shuffleFrom i' draws' (swap i j a)
  | _, _ => a
  end.

Definition shuffleArray {A} (arr : list A) (draws : list nat) : list A :=
  shuffleFrom (length arr - 1) draws arr.

(** The draws fit the loop that starts at index [i]: one draw per round,
    none above the index of its round. *)
Fixpoint drawsFit (i : nat) (draws : list nat) : Prop :=
  match i, draws with
  | O, [] => True
  | S i', j :: draws' => (j ≤ i)%nat ∧ drawsFit i' draws'
  | _, _ => False
  end.

Module Placed.
(** A tile of [placedTiles]: [{ row, col, letter, points, assignedLetter }]. *)
Record t := mk {
    row : Z; col : Z; letter : string; points : Z; assignedLetter : option string }.
End Placed.

Module Cell.
(** A tile on the board: [{ letter, points, assignedLetter }]. *)
Record t := mk { letter : string; points : Z; assignedLetter : option string }.
End Cell.

(** An entry of [moveHistory]. *)
Inductive Move :=
| Played (player : string) (tiles : nat) (score : Z) (timestamp : string)
| Passed (player : string) (timestamp : string).

Module Scrabble.
(** The game object of [createScrabbleGame].  The board is an array of 15
    rows; the cells that hold a tile are the entries of [board], by row and
    column, the others are [null]. *)
Record t := mk {
    id : string; player1 : string; player2 : string; isNPC : bool; currentTurn : string;
    board : gmap (Z * Z) Cell.t; tileBag : list Tile.t;
    playerHands : gmap string (list Tile.t); scores : gmap string Z;
    moveHistory : list Move; status : string; isFirstMove : bool;
    createdAt : string; updatedAt : string }.
Definition set_currentTurn (v : string) (g : t) :=
    mk (id g) (player1 g) (player2 g) (isNPC g) v (board g) (tileBag g) (playerHands g)
       (scores g) (moveHistory g) (status g) (isFirstMove g) (createdAt g) (updatedAt g).
Definition set_board (v : gmap (Z * Z) Cell.t) (g : t) :=
    mk (id g) (player1 g) (player2 g) (isNPC g) (currentTurn g) v (tileBag g) (playerHands g)
       (scores g) (moveHistory g) (status g) (isFirstMove g) (createdAt g) (updatedAt g).
Definition set_tileBag (v : list Tile.t) (g : t) :=
    mk (id g) (player1 g) (player2 g) (isNPC g) (currentTurn g) (board g) v (playerHands g)
       (scores g) (moveHistory g) (status g) (isFirstMove g) (createdAt g) (updatedAt g).
Definition set_playerHands (v : gmap string (list Tile.t)) (g : t) :=
    mk (id g) (player1 g) (player2 g) (isNPC g) (currentTurn g) (board g) (tileBag g) v
       (scores g) (moveHistory g) (status g) (isFirstMove g) (createdAt g) (updatedAt g).
Definition set_scores (v : gmap string Z) (g : t) :=
    mk (id g) (player1 g) (player2 g) (isNPC g) (currentTurn g) (board g) (tileBag g)
       (playerHands g) v (moveHistory g) (status g) (isFirstMove g) (createdAt g) (updatedAt g).
Definition set_moveHistory (v : list Move) (g : t) :=
    mk (id g) (player1 g) (player2 g) (isNPC g) (currentTurn g) (board g) (tileBag g)
       (playerHands g) (scores g) v (status g) (isFirstMove g) (createdAt g) (updatedAt g).
Definition set_isFirstMove (v : bool) (g : t) :=
    mk (id g) (player1 g) (player2 g) (isNPC g) (currentTurn g) (board g) (tileBag g)
       (playerHands g) (scores g) (moveHistory g) (status g) v (createdAt g) (updatedAt g).
Definition set_updatedAt (v : string) (g : t) :=
    mk (id g) (player1 g) (player2 g) (isNPC g) (currentTurn g) (board g) (tileBag g)
       (playerHands g) (scores g) (moveHistory g) (status g) (isFirstMove g) (createdAt g) v.
End Scrabble.

Module ScrabbleData.
(** [scrabbleData]: the games by id and the ids of each player's games. *)
Record t := mk { games : gmap string Scrabble.t; playerGames : gmap string (list string) }.
End ScrabbleData.

(** [createScrabbleGame(player1, player2, isNPC)]; [gameId] is the id that
    is drawn, [draws] are the draws of the shuffle and [now] is the
    timestamp.  It returns the game. *)
Definition createScrabbleGame (player1 player2 : string) (isNPC : bool) (gameId : string)
    (draws : list nat) (now : string) (data : ScrabbleData.t)
  : Scrabble.t * ScrabbleData.t :=
  let tileBag := shuffleArray SCRABBLE_TILES draws in
  let hand1 := take 7 tileBag in
  let tileBag1 := drop 7 tileBag in
  let hand2 := take 7 tileBag1 in
  let tileBag2 := drop 7 tileBag1 in
  let game := Scrabble.mk gameId player1 player2 isNPC player1 ∅ tileBag2
                (<[player2 := hand2]> {[ player1 := hand1 ]})
                (<[player2 := 0]> {[ player1 := 0 ]})
                [] "active" true now now in
  let games := <[gameId := game]> (ScrabbleData.games data) in
  let pg1 := match ScrabbleData.playerGames data !! player1 with
             | Some _ => ScrabbleData.playerGames data
             | None => <[player1 := []]> (ScrabbleData.playerGames data)
             end in
  let pg2 := match pg1 !! player2 with
             | Some _ => pg1
             | None => <[player2 := []]> pg1
             end in
  let pg3 := alter (fun ids => ids ++ [gameId]) player1 pg2 in
  let pg4 := alter (fun ids => ids ++ [gameId]) player2 pg3 in
  (game, ScrabbleData.mk games pg4).

Module View.
(** What [getScrabbleGame] shows to a player: the game with that player's
    hand only, the size of the bag and the last five moves. *)
Record t := mk {
    id : string; player1 : string; player2 : string; isNPC : bool; currentTurn : string;
    board : gmap (Z * Z) Cell.t; myHand : option (list Tile.t); scores : gmap string Z;
    tilesRemaining : nat; isFirstMove : bool; status : string; moveHistory : list Move }.
End View.

(** [getScrabbleGame(gameId, playerName)], [None] for [null]. *)
Definition getScrabbleGame (gameId playerName : string) (data : ScrabbleData.t)
  : option View.t :=
  match ScrabbleData.games data !! gameId with
  | None => None
  | Some game =>
      if bool_decide (Scrabble.player1 game ≠ playerName)
         && bool_decide (Scrabble.player2 game ≠ playerName)
      then None
      else Some (View.mk (Scrabble.id game) (Scrabble.player1 game) (Scrabble.player2 game)
                   (Scrabble.isNPC game) (Scrabble.currentTurn game) (Scrabble.board game)
                   (Scrabble.playerHands game !! playerName) (Scrabble.scores game)
                   (length (Scrabble.tileBag game)) (Scrabble.isFirstMove game)
                   (Scrabble.status game) (sliceLast 5 (Scrabble.moveHistory game)))
  end.

(** What a Scrabble handler does with its socket: it sends one message, or
    it throws before it sends anything (the exception is caught and logged
    by the caller of [handleMessage]). *)
Inductive ScrabbleReply :=
| ScrabbleError (error : string)
| MoveAccepted (game : option View.t)
| Thrown.

(** [game.currentTurn === game.player1 ? game.player2 : game.player1] *)
Definition otherPlayer (game : Scrabble.t) : string :=
  if bool_decide (Scrabble.currentTurn game = Scrabble.player1 game)
  then Scrabble.player2 game else Scrabble.player1 game.

(** [game.board[tile.row][tile.col] = { ... }]: a row outside the board is
    [undefined], and the write throws. *)
Definition placeTile (board : gmap (Z * Z) Cell.t) (tile : Placed.t)
  : option (gmap (Z * Z) Cell.t) :=
  if bool_decide (0 ≤ Placed.row tile < 15)
  then Some (<[(Placed.row tile, Placed.col tile) :=
                 Cell.mk (Placed.letter tile) (Placed.points tile)
                   (match Placed.assignedLetter tile with
                    | Some EmptyString | None => None
                    | Some a => Some a
                    end)]> board)
  else None.

(** The loop over [placedTiles]: the board after the writes that succeeded,
    and whether all of them did. *)
Fixpoint placeTiles (board : gmap (Z * Z) Cell.t) (tiles : list Placed.t)
  : gmap (Z * Z) Cell.t * bool :=
  match tiles with
  | [] => (board, true)
  | tile :: tiles' =>
      match placeTile board tile with
      | Some board' => placeTiles board' tiles'
      | None => (board, false)
      end
  end.

(** [const idx = hand.findIndex(t => t.letter === letter);
     if (idx !== -1) hand.splice(idx, 1)] *)
Fixpoint removeLetter (letter : string) (hand : list Tile.t) : list Tile.t :=
  match hand with
  | [] => []
  | t :: hand' => if bool_decide (Tile.letter t = letter) then hand'
                  else t :: removeLetter letter hand'
  end.

Definition removePlaced (hand : list Tile.t) (tiles : list Placed.t) : list Tile.t :=
  foldl (fun h tile => removeLetter (Placed.letter tile) h) hand tiles.

(** [handleScrabblePlayMove(ws, gameId, playerName, placedTiles, score)]:
    the reply, whether the move of the NPC is scheduled, and the store.
    [scores] has the keys of [playerHands]. *)
Definition handleScrabblePlayMove (gameId playerName : string) (placedTiles : list Placed.t)
    (score : Z) (now : string) (data : ScrabbleData.t)
  : ScrabbleReply * bool * ScrabbleData.t :=
  match ScrabbleData.games data !! gameId with
  | None => (ScrabbleError "Game not found or ended", false, data)
  | Some game =>
      if bool_decide (Scrabble.status game ≠ "active"%string)
      then (ScrabbleError "Game not found or ended", false, data)
      else if bool_decide (Scrabble.currentTurn game ≠ playerName)
      then (ScrabbleError "Not your turn", false, data)
      else
        let put g := ScrabbleData.mk (<[gameId := g]> (ScrabbleData.games data))
                       (ScrabbleData.playerGames data) in
        let '(board, placed) := placeTiles (Scrabble.board game) placedTiles in
        let game1 := Scrabble.set_board board game in
        if negb placed then (Thrown, false, put game1) else
        match Scrabble.playerHands game1 !! playerName with
        | None => (Thrown, false, put game1)
        | Some hand =>
            let hand1 := removePlaced hand placedTiles in
            let n := Nat.min (length placedTiles) (length (Scrabble.tileBag game1)) in
            let drawn := take n (Scrabble.tileBag game1) in
            let game2 := Scrabble.set_playerHands
                           (<[playerName := hand1 ++ drawn]> (Scrabble.playerHands game1))
                           (Scrabble.set_tileBag (drop n (Scrabble.tileBag game1)) game1) in
            let game3 := Scrabble.set_isFirstMove false
                           (Scrabble.set_scores
                              (alter (fun s => s + score) playerName (Scrabble.scores game2))
                              game2) in
            let game4 := Scrabble.set_moveHistory
                           (Scrabble.moveHistory game3
                              ++ [Played playerName (length placedTiles) score now]) game3 in
            let game5 := Scrabble.set_updatedAt now
                           (Scrabble.set_currentTurn (otherPlayer game4) game4) in
            let npc := Scrabble.isNPC game5
                       && bool_decide (Scrabble.currentTurn game5 = Scrabble.player2 game5) in
            (MoveAccepted (getScrabbleGame gameId playerName (put game5)), npc, put game5)
        end
  end.

(** [handleScrabblePassTurn(ws, gameId, playerName)] *)
Definition handleScrabblePassTurn (gameId playerName now : string) (data : ScrabbleData.t)
  : ScrabbleReply * ScrabbleData.t :=
  match ScrabbleData.games data !! gameId with
  | None => (ScrabbleError "Cannot pass", data)
  | Some game =>
      if bool_decide (Scrabble.currentTurn game ≠ playerName)
      then (ScrabbleError "Cannot pass", data)
      else
        let game1 := Scrabble.set_moveHistory
                       (Scrabble.moveHistory game ++ [Passed playerName now]) game in
        let game2 := Scrabble.set_updatedAt now
                       (Scrabble.set_currentTurn (otherPlayer game1) game1) in
        let data' := ScrabbleData.mk (<[gameId := game2]> (ScrabbleData.games data))
                       (ScrabbleData.playerGames data) in
        (MoveAccepted (getScrabbleGame gameId playerName data'), data')
  end.

(** [makeNPCMove(gameId)]: the NPC passes. *)
Definition makeNPCMove (gameId now : string) (data : ScrabbleData.t) : ScrabbleData.t :=
  match ScrabbleData.games data !! gameId with
  | None => data
  | Some game =>
      if bool_decide (Scrabble.status game ≠ "active"%string) || negb (Scrabble.isNPC game)
      then data
      else
        let game1 := Scrabble.set_moveHistory
                       (Scrabble.moveHistory game ++ [Passed (Scrabble.player2 game) now])
                       game in
        let game2 := Scrabble.set_updatedAt now
                       (Scrabble.set_currentTurn (Scrabble.player1 game1) game1) in
        ScrabbleData.mk (<[gameId := game2]> (ScrabbleData.games data))
          (ScrabbleData.playerGames data)
  end.

(** ** Names and the account handlers *)

(** [String.prototype.toLowerCase], on the ASCII range. *)
Definition lowerAscii (c : ascii) : ascii :=
  let n := nat_of_ascii c in
  if ((65 <=? n) && (n <=? 90))%nat then ascii_of_nat (n + 32) else c.

Fixpoint toLowerCase (s : string) : string :=
  match s with
  | EmptyString => EmptyString
  | String c s' => String (lowerAscii c) (toLowerCase s')
  end.

(** The white space of [trim] and of [\s], on the ASCII range: tab, line
    feed, vertical tab, form feed, carriage return and space. *)
Definition isWhite (c : ascii) : bool :=
  let n := nat_of_ascii c in
  ((9 <=? n) && (n <=? 13) || (n =? 32))%nat.

Fixpoint trimStart (s : string) : string :=
  match s with
  | EmptyString => EmptyString
  | String c s' => if isWhite c then trimStart s' else s
  end.

(** [trimEnd]: a character stays when it is not white or something that
    stays follows it. *)
Fixpoint trimEnd (s : string) : string :=
  match s with
  | EmptyString => EmptyString
  | String c s' =>
      match trimEnd s' with
      | EmptyString => if isWhite c then EmptyString else String c EmptyString
      | rest => String c rest
      end
  end.

(** [String.prototype.trim] *)
Definition trim (s : string) : string := trimEnd (trimStart s).

(** [(name || '').trim().substring(0, 18)] *)
Definition cleanNameOf (name : string) : string := substring 0 18 (trim name).



(** [findPlayerCaseInsensitive(name)]; [keys] is
    [Object.keys(itemsData.players)], in the order of the engine. *)
Definition findPlayerCaseInsensitive (name : string) (keys : list string) : option string :=
  if bool_decide (name = EmptyString) then None
  else find (fun playerName => bool_decide (toLowerCase playerName = toLowerCase name)) keys.




(** The reply [items_rolled]. *)
Inductive ItemsRolled :=
| RolledNeedsPin (rolls : list string) (baseRolls : option Z) (bonusRolls : Z)
| RollFailed (error : string)
| Rolled (rolls : list string) (baseRolls : option Z) (bonusRolls : Z)
    (inventory : gmap string Z).


(** [rollMultipleItems(count)]; [draw i] is the item the [i]-th call of
    [rollItem()] returns. *)
Definition rollMultipleItems (count : Z) (draw : nat → string) : list string :=
  map draw (seq 0 (Z.to_nat count)).

(** The bonus of [handleRollItems]: one roll for a word of five letters,
    two for a word of seven or more. *)
Definition bonusRollsOf (words : list string) : Z :=
  foldl (fun bonus word =>
           let bonus1 := if (String.length word =? 5)%nat then bonus + 1 else bonus in
           if (7 <=? String.length word)%nat then bonus1 + 2 else bonus1) 0 words.

Section Handlers.
Variable hashPin : string → string.


(** [handleRollItems(ws, name, sessionToken, baseRolls, words)]: the reply
    and the store.  An absent [sessionToken] is the empty string, an absent
    [baseRolls] is [None]. *)
Definition handleRollItems (name sessionToken : string) (baseRolls : option Z)
    (words : list string) (draw : nat → string) (now : string) (keys : list string)
    (players : gmap string Account.t) : ItemsRolled * gmap string Account.t :=
  let cleanName := cleanNameOf name in
  let bonusRolls := bonusRollsOf words in
  let totalRolls := (match baseRolls with
                     | Some n => if n =? 0 then 1 else n
                     | None => 1
                     end) + bonusRolls in
  let canonicalName := findPlayerCaseInsensitive cleanName keys in
  match canonicalName with
  | None => (RolledNeedsPin (rollMultipleItems totalRolls draw) baseRolls bonusRolls, players)
  | Some canonical =>
      match players !! canonical with
      | None =>
          (RolledNeedsPin (rollMultipleItems totalRolls draw) baseRolls bonusRolls, players)
      | Some _ =>
          let checked :=
            if bool_decide (sessionToken = EmptyString) then (true, players)
            else let session := verifySession canonical sessionToken now players in
                 (bool_decide (is_Some session.1), session.2) in
          if negb checked.1 then (RollFailed "Invalid session", checked.2) else
          let rolls := rollMultipleItems totalRolls draw in
          let result := addItemsToPlayer canonical rolls now checked.2 in
          match result.1 with
          | Some inventory => (Rolled rolls baseRolls bonusRolls inventory, result.2)
          | None => (RollFailed "Failed to add items", result.2)
          end
      end
  end.

End Handlers.


(** * Properties *)

(** Closed facts about the example runs are settled by evaluation. *)
Ltac computed := vm_compute; reflexivity.

(** ** Sets of words *)

Lemma elem_of_setAdd (l seen : list string) (x : string) :
  x ∈ setAdd seen l ↔ x ∈ seen ∨ x ∈ l.
Proof.
  revert seen. induction l as [|y l IH]; intros seen; simpl.
  - rewrite elem_of_nil. tauto.
  - case_bool_decide as Hy; rewrite IH, elem_of_cons.
    + split; [tauto|]. intros [?|[->|?]]; tauto.
    + rewrite elem_of_app, list_elem_of_singleton. tauto.
Qed.

Lemma elem_of_newSet (l : list string) (x : string) : x ∈ newSet l ↔ x ∈ l.
Proof. unfold newSet. rewrite elem_of_setAdd, elem_of_nil. tauto. Qed.

Lemma NoDup_setAdd (l seen : list string) : NoDup seen → NoDup (setAdd seen l).
Proof.
  revert seen. induction l as [|y l IH]; intros seen Hseen; simpl; [done|].
  case_bool_decide as Hy; apply IH; [done|].
  apply NoDup_app. split_and!; [done| |apply NoDup_singleton].
  intros z Hz ->%list_elem_of_singleton. done.
Qed.

Lemma NoDup_newSet (l : list string) : NoDup (newSet l).
Proof. apply NoDup_setAdd, NoDup_nil_2. Qed.

Lemma elem_of_sharedWordsOf (p1Words p2Words : list string) (w : string) :
  w ∈ sharedWordsOf p1Words p2Words ↔ w ∈ p1Words ∧ w ∈ p2Words.
Proof.
  unfold sharedWordsOf, includes.
  rewrite elem_of_newSet, list_elem_of_filter, bool_decide_eq_true. tauto.
Qed.

Lemma includes_sharedWordsOf (p1Words p2Words : list string) (w : string) :
  includes (sharedWordsOf p1Words p2Words) w = includes p1Words w && includes p2Words w.
Proof.
  unfold includes. apply eq_true_iff_eq.
  rewrite andb_true_iff, !bool_decide_eq_true. apply elem_of_sharedWordsOf.
Qed.

(** ** Sorting keeps the entries *)

Lemma insertScored_perm (x : Scored.t) (l : list Scored.t) : insertScored x l ≡ₚ x :: l.
Proof.
  induction l as [|y l IH]; simpl; [done|].
  destruct (compareScored x y <=? 0); [done|].
  rewrite IH. apply Permutation_swap.
Qed.

Lemma sortScored_perm (l : list Scored.t) : sortScored l ≡ₚ l.
Proof.
  induction l as [|x l IH]; simpl; [done|].
  rewrite insertScored_perm. by apply Permutation_skip.
Qed.

Lemma total_perm (l k : list Z) : l ≡ₚ k → total l = total k.
Proof.
  induction 1; simpl; lia.
Qed.

Lemma foldl_points (l : list Scored.t) (a : Z) :
  foldl (fun acc sw => acc + Scored.points sw) a l = a + total (map Scored.points l).
Proof.
  revert a. induction l as [|x l IH]; intros a; simpl; [lia|].
  rewrite IH. lia.
Qed.

Lemma points_scoreWord (shared : list string) (w : string) :
  Scored.points (scoreWord shared w)
  = if includes shared w then 0 else getWordScore (String.length w).
Proof. reflexivity. Qed.

Lemma sharedWordsOf_sym (p1Words p2Words : list string) (w : string) :
  includes (sharedWordsOf p1Words p2Words) w = includes (sharedWordsOf p2Words p1Words) w.
Proof. rewrite !includes_sharedWordsOf. apply andb_comm. Qed.

Lemma score_calculateResults (words sharedWords : list string) :
  Results.score (calculateResults words sharedWords)
  = total (map Scored.points (Results.words (calculateResults words sharedWords))).
Proof.
  unfold calculateResults. simpl. rewrite foldl_points.
  transitivity (total (map Scored.points (map (scoreWord sharedWords) words))); [lia|].
  apply total_perm, Permutation_map. symmetry. apply sortScored_perm.
Qed.

Lemma elem_of_calculateResults (words sharedWords : list string) (e : Scored.t) :
  e ∈ Results.words (calculateResults words sharedWords) ↔
  ∃ w, w ∈ words ∧ e = scoreWord sharedWords w.
Proof.
  unfold calculateResults. simpl. rewrite sortScored_perm.
  rewrite list_elem_of_In, in_map_iff. setoid_rewrite <- list_elem_of_In.
  split; intros (w & H1 & H2); exists w; done.
Qed.

Lemma score_contribution (mine theirs shared : list string) :
  (∀ w, includes shared w = includes mine w && includes theirs w) →
  Results.score (calculateResults mine shared) = total (map (contribution mine theirs) mine).
Proof.
  intros Hshared. unfold calculateResults. simpl. rewrite foldl_points, map_map.
  simpl. rewrite Z.add_0_l. f_equal. apply map_ext. intros w.
  unfold contribution. by rewrite Hshared.
Qed.

Lemma getWordScore_table :
  getWordScore 3 = 1 ∧ getWordScore 4 = 1 ∧ getWordScore 5 = 2 ∧
  getWordScore 6 = 3 ∧ getWordScore 7 = 5 ∧ ∀ n, (8 ≤ n)%nat → getWordScore n = 11.
Proof.
  repeat split. intros n Hn. unfold getWordScore.
  destruct (Nat.leb_spec 8 n); [done|lia].
Qed.

Lemma entry_points (mine theirs : list string) (e : Scored.t) :
  e ∈ Results.words (calculateResults mine (sharedWordsOf mine theirs)) →
  Scored.word e ∈ mine ∧
  Scored.points e = contribution mine theirs (Scored.word e) ∧
  Scored.shared e = includes mine (Scored.word e) && includes theirs (Scored.word e).
Proof.
  intros (w & Hw & ->)%elem_of_calculateResults. simpl.
  unfold contribution. by rewrite includes_sharedWordsOf.
Qed.

Lemma contribution_shared (mine theirs : list string) (w : string) :
  w ∈ mine → w ∈ theirs → contribution mine theirs w = 0.
Proof.
  intros H1 H2. unfold contribution, includes.
  by rewrite !bool_decide_eq_true_2.
Qed.

Lemma contribution_own (mine theirs : list string) (w : string) :
  ¬ (w ∈ mine ∧ w ∈ theirs) → contribution mine theirs w = getWordScore (String.length w).
Proof.
  intros H. unfold contribution, includes.
  destruct (bool_decide (w ∈ mine)) eqn:E1; [|done].
  destruct (bool_decide (w ∈ theirs)) eqn:E2; [|done].
  apply bool_decide_eq_true in E1, E2. tauto.
Qed.

(** C5.  For the two word lists of a finished game, scored as [finishGame]
    scores them (against the set of words in both lists): every entry of
    either result whose word is in both lists has 0 points, every other
    entry has the table value of its length (1, 1, 2, 3, 5 for lengths 3 to
    7, 11 from length 8 on), and each total is the sum of the points of that
    player's entries, which is the sum of the contributions over that
    player's list. *)
Theorem shared_words_cancel (p1Words p2Words : list string) :
  let shared := sharedWordsOf p1Words p2Words in
  let r1 := calculateResults p1Words shared in
  let r2 := calculateResults p2Words shared in
  (∀ e, e ∈ Results.words r1 ++ Results.words r2 →
     (Scored.word e ∈ p1Words ∧ Scored.word e ∈ p2Words → Scored.points e = 0) ∧
     (¬ (Scored.word e ∈ p1Words ∧ Scored.word e ∈ p2Words) →
      Scored.points e = getWordScore (String.length (Scored.word e)))) ∧
  (getWordScore 3 = 1 ∧ getWordScore 4 = 1 ∧ getWordScore 5 = 2 ∧
   getWordScore 6 = 3 ∧ getWordScore 7 = 5 ∧ ∀ n, (8 ≤ n)%nat → getWordScore n = 11) ∧
  Results.score r1 = total (map Scored.points (Results.words r1)) ∧
  Results.score r2 = total (map Scored.points (Results.words r2)) ∧
  Results.score r1 = total (map (contribution p1Words p2Words) p1Words) ∧
  Results.score r2 = total (map (contribution p2Words p1Words) p2Words).
Proof.
  intros shared r1 r2.
  split; [|split; [apply getWordScore_table|split_and!]].
  - intros e [He|He]%elem_of_app.
    + apply entry_points in He as (_ & -> & _). split.
      * intros [H1 H2]. by apply contribution_shared.
      * apply contribution_own.
    + assert (e ∈ Results.words (calculateResults p2Words (sharedWordsOf p2Words p1Words))) as He'.
      { apply elem_of_calculateResults in He as (w & Hw & ->).
        apply elem_of_calculateResults. exists w. split; [done|].
        unfold scoreWord. by rewrite (sharedWordsOf_sym p1Words p2Words). }
      apply entry_points in He' as (_ & -> & _). split.
      * intros [H1 H2]. by apply contribution_shared.
      * intros H. apply contribution_own. tauto.
  - apply score_calculateResults.
  - apply score_calculateResults.
  - apply score_contribution, includes_sharedWordsOf.
  - apply score_contribution. intros w. unfold shared.
    rewrite includes_sharedWordsOf. apply andb_comm.
Qed.

(** ** The item loops, kind by kind *)

Lemma NoDup_ITEM_ORDER : NoDup ITEM_ORDER.
Proof. apply (bool_decide_unpack (NoDup ITEM_ORDER)). vm_compute. exact I. Qed.

Lemma getc_insert (m : gmap string Z) (k k' : string) (v : Z) :
  getc (<[k := v]> m) k' = if bool_decide (k' = k) then v else getc m k'.
Proof.
  unfold getc. case_bool_decide as H.
  - subst. by rewrite lookup_insert_eq.
  - by rewrite lookup_insert_ne.
Qed.

Lemma getc_creditLoop (m : gmap string Z) (l : list string) (inv : gmap string Z) (k : string) :
  NoDup l →
  getc (foldl (creditStep m) inv l) k
  = if bool_decide (k ∈ l) then getc inv k + getc m k else getc inv k.
Proof.
  intros Hl. revert inv. induction Hl as [|x l Hx Hl IH]; intros inv; cbn [foldl].
  - by rewrite bool_decide_eq_false_2 by apply not_elem_of_nil.
  - rewrite IH. unfold creditStep. rewrite getc_insert.
    destruct (decide (k = x)) as [->|Hne].
    + rewrite (bool_decide_eq_false_2 (x ∈ l)) by done.
      rewrite (bool_decide_eq_true_2 (x = x)) by done.
      by rewrite (bool_decide_eq_true_2 (x ∈ x :: l)) by constructor.
    + rewrite (bool_decide_eq_false_2 (k = x)) by done.
      rewrite (bool_decide_ext (k ∈ x :: l) (k ∈ l)); [done|].
      rewrite elem_of_cons. tauto.
Qed.

Lemma getc_debitLoop (w : gmap string Z) (l : list string) (inv : gmap string Z) (k : string) :
  NoDup l →
  getc (foldl (debitStep w) inv l) k
  = if bool_decide (k ∈ l) && (0 <? getc w k)
    then Z.max 0 (getc inv k - getc w k) else getc inv k.
Proof.
  intros Hl. revert inv. induction Hl as [|x l Hx Hl IH]; intros inv; cbn [foldl].
  - by rewrite bool_decide_eq_false_2 by apply not_elem_of_nil.
  - rewrite IH. destruct (decide (k = x)) as [->|Hne].
    + rewrite (bool_decide_eq_false_2 (x ∈ l)) by done.
      rewrite (bool_decide_eq_true_2 (x ∈ x :: l)) by constructor.
      simpl. unfold debitStep. destruct (0 <? getc w x); [|done].
      by rewrite getc_insert, bool_decide_eq_true_2.
    + assert (getc (debitStep w inv x) k = getc inv k) as ->.
      { unfold debitStep. destruct (0 <? getc w x); [|done].
        by rewrite getc_insert, bool_decide_eq_false_2. }
      rewrite (bool_decide_ext (k ∈ x :: l) (k ∈ l)); [done|].
      rewrite elem_of_cons. tauto.
Qed.

Lemma getc_creditItems (m inv : gmap string Z) (k : string) :
  getc (creditItems m inv) k
  = if bool_decide (k ∈ ITEM_ORDER) then getc inv k + getc m k else getc inv k.
Proof. apply getc_creditLoop, NoDup_ITEM_ORDER. Qed.

Lemma getc_debitItems (w inv : gmap string Z) (k : string) :
  getc (debitItems w inv) k
  = if bool_decide (k ∈ ITEM_ORDER) && (0 <? getc w k)
    then Z.max 0 (getc inv k - getc w k) else getc inv k.
Proof. apply getc_debitLoop, NoDup_ITEM_ORDER. Qed.

Lemma getc_potLoop (w0 w1 : gmap string Z) (l : list string) (pot : gmap string Z) (k : string) :
  getc (foldl (fun pot item => <[item := getc w0 item + getc w1 item]> pot) pot l) k
  = if bool_decide (k ∈ l) then getc w0 k + getc w1 k else getc pot k.
Proof.
  revert pot. induction l as [|x l IH]; intros pot; cbn [foldl].
  - by rewrite bool_decide_eq_false_2 by apply not_elem_of_nil.
  - rewrite IH, getc_insert.
    destruct (decide (k = x)) as [->|Hne].
    + rewrite (bool_decide_eq_true_2 (x = x)) by done.
      rewrite (bool_decide_eq_true_2 (x ∈ x :: l)) by constructor.
      by destruct (bool_decide (x ∈ l)).
    + rewrite (bool_decide_eq_false_2 (k = x)) by done.
      rewrite (bool_decide_ext (k ∈ x :: l) (k ∈ l)); [done|].
      rewrite elem_of_cons. tauto.
Qed.

Lemma getc_emptyWager (k : string) : getc emptyWager k = 0.
Proof.
  unfold getc, emptyWager.
  destruct (list_to_map (M := gmap string Z) (map (fun item => (item, 0)) ITEM_ORDER) !! k)
    as [v|] eqn:E; [|done].
  apply elem_of_list_to_map_2 in E. apply list_elem_of_In, in_map_iff in E.
  destruct E as (x & [= _ <-] & _). done.
Qed.

Lemma getc_potOf (w0 w1 : gmap string Z) (k : string) :
  getc (potOf w0 w1) k = if bool_decide (k ∈ ITEM_ORDER) then getc w0 k + getc w1 k else 0.
Proof. unfold potOf. rewrite getc_potLoop, getc_emptyWager. done. Qed.


Lemma hasWagerOf_true (pot : gmap string Z) :
  hasWagerOf pot = true ↔ ∃ item, item ∈ ITEM_ORDER ∧ 0 < getc pot item.
Proof.
  unfold hasWagerOf. rewrite existsb_exists. split.
  - intros (x & Hx & Hpos). exists x. split; [by apply list_elem_of_In|lia].
  - intros (x & Hx & Hpos). exists x. split; [by apply list_elem_of_In|lia].
Qed.

(** ** The effects in normal form *)

Lemma notify_eq (p : Player.t) (m : Msg) (st : State.t) :
  notify p m st = State.set_outbox (State.outbox st ++ delivered st p m) st.
Proof.
  unfold notify, delivered, send.
  destruct (Player.connected p && sockOpen st (Player.ws p)); [done|].
  destruct st; simpl. by rewrite app_nil_r.
Qed.

Lemma lookupPlayer_Some {A} (players : gmap string A) (name : string) (a : A) :
  players !! name = Some a → lookupPlayer players name = Own a.
Proof. unfold lookupPlayer. by intros ->. Qed.

Lemma lookupPlayer_Own {A} (players : gmap string A) (name : string) (a : A) :
  lookupPlayer players name = Own a ↔ players !! name = Some a.
Proof.
  unfold lookupPlayer. destruct (players !! name) as [b|].
  - split; by intros [= ->].
  - by destruct (inherits players name).
Qed.

Lemma lookupPlayer_Inherited {A} (players : gmap string A) (name : string) :
  lookupPlayer players name = Inherited ↔
  players !! name = None ∧ inherits players name = true.
Proof.
  unfold lookupPlayer. destruct (players !! name) as [b|].
  - split; [done|by intros [? _]].
  - destruct (inherits players name); split; try done. by intros [_ ?].
Qed.

Lemma lookupPlayer_Missing {A} (players : gmap string A) (name : string) :
  lookupPlayer players name = Missing ↔
  players !! name = None ∧ inherits players name = false.
Proof.
  unfold lookupPlayer. destruct (players !! name) as [b|].
  - split; [done|by intros [? _]].
  - destruct (inherits players name); split; try done. by intros [_ ?].
Qed.

(** A name with a record is not inherited. *)
Lemma registered_not_inherited (name : string) (st : State.t) :
  is_Some (State.itemsData st !! name) → getPlayerData name st ≠ Inherited.
Proof.
  intros [inv Hinv]. unfold getPlayerData. by rewrite (lookupPlayer_Some _ _ _ Hinv).
Qed.

(** What a store inherits depends on its keys only. *)
Lemma lookupPlayer_Inherited_ext {A} (players players' : gmap string A) (name : string) :
  (∀ k, is_Some (players' !! k) ↔ is_Some (players !! k)) →
  lookupPlayer players' name = Inherited ↔ lookupPlayer players name = Inherited.
Proof.
  intros Hkeys. rewrite !lookupPlayer_Inherited. unfold inherits.
  rewrite !eq_None_not_Some, Hkeys.
  by rewrite (bool_decide_ext _ _ (Hkeys "__proto__"%string)).
Qed.

Lemma is_Some_creditStore (name : string) (m : gmap string Z)
    (items : gmap string (gmap string Z)) (name' : string) :
  is_Some (creditStore name m items !! name') ↔ is_Some (items !! name').
Proof.
  unfold creditStore. destruct (items !! name) as [inv|] eqn:E; [|done].
  destruct (decide (name' = name)) as [->|Hne].
  - rewrite lookup_insert_eq, E. split; eauto.
  - by rewrite lookup_insert_ne.
Qed.

Lemma is_Some_debitStore (name : string) (w : gmap string Z)
    (items : gmap string (gmap string Z)) (name' : string) :
  is_Some (debitStore name w items !! name') ↔ is_Some (items !! name').
Proof.
  unfold debitStore. destruct (items !! name) as [inv|] eqn:E; [|done].
  destruct (decide (name' = name)) as [->|Hne].
  - rewrite lookup_insert_eq, E. split; eauto.
  - by rewrite lookup_insert_ne.
Qed.

Lemma creditPlayer_eq (name : string) (m : gmap string Z) (st : State.t) :
  getPlayerData name st ≠ Inherited →
  creditPlayer name m st
  = Returns (State.set_itemsData (creditStore name m (State.itemsData st)) st).
Proof.
  unfold creditPlayer, creditStore, getPlayerData, lookupPlayer.
  destruct (State.itemsData st !! name); [done|].
  destruct (inherits _ name); [done|]. by destruct st.
Qed.

(** A credit throws exactly on an inherited name, before it changes
    anything. *)
Lemma creditPlayer_inherited (name : string) (m : gmap string Z) (st : State.t) :
  getPlayerData name st = Inherited → creditPlayer name m st = Throws st.
Proof. unfold creditPlayer. by intros ->. Qed.

(** A debit returns with the store debited, or throws on an inherited name
    and leaves the store alone. *)
Lemma debitPlayer_cases (name : string) (w : gmap string Z) (st : State.t) :
  debitPlayer name w st
  = Returns (State.set_itemsData (debitStore name w (State.itemsData st)) st) ∨
  (debitPlayer name w st = Throws st ∧ getPlayerData name st = Inherited ∧
   existsb (fun item => 0 <? getc w item) ITEM_ORDER = true).
Proof.
  unfold debitPlayer, debitStore, getPlayerData, lookupPlayer.
  destruct (State.itemsData st !! name); [by left|].
  destruct (inherits _ name).
  - destruct (existsb _ ITEM_ORDER); [by right|left; by destruct st].
  - left. by destruct st.
Qed.

Lemma debitPlayer_eq (name : string) (w : gmap string Z) (st : State.t) :
  getPlayerData name st ≠ Inherited →
  debitPlayer name w st
  = Returns (State.set_itemsData (debitStore name w (State.itemsData st)) st).
Proof.
  intros Hplain. destruct (debitPlayer_cases name w st) as [H|(_ & H & _)]; done.
Qed.

Lemma distributeWager_eq (game : Game.t) (winnerIndex : option nat) (st : State.t) :
  plainNames game st →
  distributeWager game winnerIndex st
  = (Returns (State.set_itemsData (settledItems game winnerIndex (State.itemsData st)) st),
     wagerResultOf game winnerIndex).
Proof.
  intros [Hp0 Hp1]. unfold distributeWager, settledItems, wagerResultOf.
  destruct (hasWagerOf _); [|by destruct st].
  destruct winnerIndex as [[|i]|].
  - cbn [Game.player]. rewrite creditPlayer_eq by done. by destruct st.
  - cbn [Game.player]. rewrite creditPlayer_eq by done. by destruct st.
  - rewrite creditPlayer_eq by done. cbn [andThen].
    rewrite creditPlayer_eq.
    + by destruct st.
    + unfold getPlayerData in *. cbn [State.itemsData State.set_itemsData].
      rewrite lookupPlayer_Inherited_ext; [done|]. intros k. apply is_Some_creditStore.
Qed.

Lemma getGame_Some (gameId : Z) (st : State.t) (g : nat) (game : Game.t) :
  getGame gameId st = Some (g, game) ↔
  State.activeGames st !! gameId = Some g ∧ State.games st !! g = Some game.
Proof.
  unfold getGame. destruct (State.activeGames st !! gameId) as [g'|].
  - destruct (State.games st !! g') as [game'|] eqn:E.
    + split; [intros [= -> ->]; by split|intros [[= ->] H]; congruence].
    + split; [done|intros [[= ->] H]; congruence].
  - split; [done|intros [? _]; done].
Qed.

Lemma getGame_None (gameId : Z) (st : State.t) :
  State.activeGames st !! gameId = None → getGame gameId st = None.
Proof. unfold getGame. by intros ->. Qed.

(** [finishGame] on a live session whose players go by plain names: it
    returns, and this is the state, field by field. *)
Lemma finishGameOutcome_live (gameId : Z) (st : State.t) (g : nat) (game0 : Game.t) :
  getGame gameId st = Some (g, game0) →
  Game.status game0 ≠ SFinished →
  plainNames game0 st →
  let game := Game.set_status SFinished game0 in
  let id0 := Player.id (Game.player0 game0) in
  let id1 := Player.id (Game.player1 game0) in
  finishGameOutcome gameId st
  = Returns
      (State.mk (State.now st) (State.sockets st) (<[g := game]> (State.games st))
         (State.nextGame st) (State.waitingPlayersCasual st) (State.waitingPlayersWager st)
         (delete gameId (State.activeGames st))
         (delete id1 (delete id0 (State.playerToGame st)))
         (delete id1 (delete id0 (State.disconnectedPlayers st)))
         (settledItems game (winnerOf game) (State.itemsData st))
         (State.timers st) (State.nextTimer st)
         ((State.outbox st ++ delivered st (Game.player0 game) (gameEndFor 0 game))
            ++ delivered st (Game.player1 game) (gameEndFor 1 game))).
Proof.
  intros Hget Hlive Hplain game id0 id1. unfold finishGameOutcome. rewrite Hget.
  rewrite bool_decide_eq_false_2 by done. fold game.
  rewrite distributeWager_eq by exact Hplain. cbn [andThen]. rewrite !notify_eq.
  apply getGame_Some in Hget as [Hact Hobj].
  unfold cleanupGame, getGame. simpl. rewrite Hact. simpl.
  rewrite lookup_insert_eq. simpl. reflexivity.
Qed.

Lemma finishGame_live (gameId : Z) (st : State.t) (g : nat) (game0 : Game.t) :
  getGame gameId st = Some (g, game0) →
  Game.status game0 ≠ SFinished →
  plainNames game0 st →
  let game := Game.set_status SFinished game0 in
  let id0 := Player.id (Game.player0 game0) in
  let id1 := Player.id (Game.player1 game0) in
  finishGame gameId st
  = State.mk (State.now st) (State.sockets st) (<[g := game]> (State.games st))
      (State.nextGame st) (State.waitingPlayersCasual st) (State.waitingPlayersWager st)
      (delete gameId (State.activeGames st))
      (delete id1 (delete id0 (State.playerToGame st)))
      (delete id1 (delete id0 (State.disconnectedPlayers st)))
      (settledItems game (winnerOf game) (State.itemsData st))
      (State.timers st) (State.nextTimer st)
      ((State.outbox st ++ delivered st (Game.player0 game) (gameEndFor 0 game))
         ++ delivered st (Game.player1 game) (gameEndFor 1 game)).
Proof.
  intros Hget Hlive Hplain game id0 id1. unfold finishGame.
  by rewrite (finishGameOutcome_live _ _ _ _ Hget Hlive Hplain).
Qed.

(** The credits of a settlement change nothing but the item store, also
    when one of them throws. *)
Lemma creditPlayer_frame (name : string) (m : gmap string Z) (st : State.t) :
  ∃ items', stateOf (creditPlayer name m st) = State.set_itemsData items' st.
Proof.
  unfold creditPlayer. destruct (getPlayerData name st); cbn [stateOf]; eauto;
    exists (State.itemsData st); by destruct st.
Qed.

Lemma distributeWager_frame (game : Game.t) (winnerIndex : option nat) (st : State.t) :
  ∃ items', stateOf (distributeWager game winnerIndex st).1 = State.set_itemsData items' st.
Proof.
  unfold distributeWager. destruct (hasWagerOf _); cbn [fst];
    [|exists (State.itemsData st); by destruct st].
  destruct winnerIndex as [i|]; cbn [fst]; [apply creditPlayer_frame|].
  destruct (creditPlayer_frame (Player.name (Game.player0 game))
              (Player.wager (Game.player0 game)) st) as [items1 H1].
  destruct (creditPlayer _ _ st) as [st1|st1]; cbn [stateOf andThen] in *; [|eauto].
  destruct (creditPlayer_frame (Player.name (Game.player1 game))
              (Player.wager (Game.player1 game)) st1) as [items2 H2].
  rewrite H2, H1. eexists. by destruct st.
Qed.

(** [finishGame] on a live session, whether it returns or throws: the game
    object is marked finished and no other game object changes. *)
Lemma finishGame_games (gameId : Z) (st : State.t) (g : nat) (game0 : Game.t) :
  getGame gameId st = Some (g, game0) →
  Game.status game0 ≠ SFinished →
  State.games (finishGame gameId st) = <[g := Game.set_status SFinished game0]> (State.games st).
Proof.
  intros Hget Hlive. unfold finishGame, finishGameOutcome. rewrite Hget.
  rewrite bool_decide_eq_false_2 by done.
  set (game := Game.set_status SFinished game0).
  destruct (distributeWager_frame game
              (winnerIndexOf (calculateResults (default [] (Player.words (Game.player0 game)))
                                (sharedWordsOf (default [] (Player.words (Game.player0 game)))
                                   (default [] (Player.words (Game.player1 game)))))
                             (calculateResults (default [] (Player.words (Game.player1 game)))
                                (sharedWordsOf (default [] (Player.words (Game.player0 game)))
                                   (default [] (Player.words (Game.player1 game))))))
              (putGame g game st)) as [items' Hframe].
  destruct (distributeWager game _ (putGame g game st)) as [[st2|st2] wr];
    cbn [fst stateOf andThen] in *; subst st2; [|done].
  rewrite !notify_eq. apply getGame_Some in Hget as [Hact Hobj].
  unfold cleanupGame, getGame. cbn. rewrite Hact. cbn. by rewrite lookup_insert_eq.
Qed.

Lemma delivered_ext (st st' : State.t) (p : Player.t) (m : Msg) :
  State.sockets st' = State.sockets st → delivered st' p m = delivered st p m.
Proof. intros H. unfold delivered, sockOpen. by rewrite H. Qed.

(** ** The wager handlers in normal form *)

(** [handleConfirmWager] when it gets past its guards: the debit returns
    and the handler runs to its end, or the debit throws on an inherited
    name and the handler stops with the flags set. *)
Lemma handleConfirmWager_cases (ws : nat) (gameId : Z) (wager : gmap string Z)
    (st : State.t) (g : nat) (game : Game.t) (pid : string) (i : nat) :
  getGame gameId st = Some (g, game) →
  playerIdOf ws st = Some pid →
  Game.status game = SWager →
  Game.findIndex pid game = Some i →
  let player := Player.set_wagerConfirmed true (Player.set_wager wager (Game.player i game)) in
  let game1 := Game.set_player i player game in
  let both := Player.wagerConfirmed (Game.player0 game1)
              && Player.wagerConfirmed (Game.player1 game1) in
  let game2 := if both then Game.set_status SReady game1 else game1 in
  let locked0 := MWagersLocked (Player.wager (Game.player0 game1)) (Player.wager (Game.player1 game1)) in
  let locked1 := MWagersLocked (Player.wager (Game.player1 game1)) (Player.wager (Game.player0 game1)) in
  handleConfirmWager ws gameId wager st
  = State.mk (State.now st) (State.sockets st) (<[g := game2]> (State.games st))
      (State.nextGame st) (State.waitingPlayersCasual st) (State.waitingPlayersWager st)
      (State.activeGames st) (State.playerToGame st) (State.disconnectedPlayers st)
      (debitStore (Player.name player) wager (State.itemsData st))
      (State.timers st) (State.nextTimer st)
      (State.outbox st
         ++ delivered st (Game.player (1 - i) game1) MOpponentWagerConfirmed
         ++ (if both
             then delivered st (Game.player0 game1) locked0 ++ delivered st (Game.player1 game1) locked1
             else [])) ∨
  (handleConfirmWager ws gameId wager st = putGame g game1 st ∧
   getPlayerData (Player.name (Game.player i game)) st = Inherited ∧
   existsb (fun item => 0 <? getc wager item) ITEM_ORDER = true).
Proof.
  intros Hget Hpid Hstatus Hidx player game1 both game2 locked0 locked1.
  unfold handleConfirmWager. rewrite Hget, Hpid, Hstatus.
  rewrite bool_decide_eq_true_2 by done. simpl negb. cbv iota. rewrite Hidx.
  fold player. fold game1. fold both.
  destruct (debitPlayer_cases (Player.name player) wager (putGame g game1 st))
    as [->|(-> & Hinh & Hpos)]; [left|right; by split].
  rewrite !notify_eq.
  unfold game2. destruct both.
  - unfold putGame. simpl.
    rewrite insert_insert_eq.
    rewrite !(delivered_ext st) by done.
    destruct game1; simpl. by rewrite <- !app_assoc.
  - unfold putGame. simpl.
    rewrite !(delivered_ext st) by done. by rewrite app_nil_r.
Qed.

Lemma handleConfirmWager_live (ws : nat) (gameId : Z) (wager : gmap string Z)
    (st : State.t) (g : nat) (game : Game.t) (pid : string) (i : nat) :
  getGame gameId st = Some (g, game) →
  playerIdOf ws st = Some pid →
  Game.status game = SWager →
  Game.findIndex pid game = Some i →
  getPlayerData (Player.name (Game.player i game)) st ≠ Inherited →
  let player := Player.set_wagerConfirmed true (Player.set_wager wager (Game.player i game)) in
  let game1 := Game.set_player i player game in
  let both := Player.wagerConfirmed (Game.player0 game1)
              && Player.wagerConfirmed (Game.player1 game1) in
  let game2 := if both then Game.set_status SReady game1 else game1 in
  let locked0 := MWagersLocked (Player.wager (Game.player0 game1)) (Player.wager (Game.player1 game1)) in
  let locked1 := MWagersLocked (Player.wager (Game.player1 game1)) (Player.wager (Game.player0 game1)) in
  handleConfirmWager ws gameId wager st
  = State.mk (State.now st) (State.sockets st) (<[g := game2]> (State.games st))
      (State.nextGame st) (State.waitingPlayersCasual st) (State.waitingPlayersWager st)
      (State.activeGames st) (State.playerToGame st) (State.disconnectedPlayers st)
      (debitStore (Player.name player) wager (State.itemsData st))
      (State.timers st) (State.nextTimer st)
      (State.outbox st
         ++ delivered st (Game.player (1 - i) game1) MOpponentWagerConfirmed
         ++ (if both
             then delivered st (Game.player0 game1) locked0 ++ delivered st (Game.player1 game1) locked1
             else [])).
Proof.
  intros Hget Hpid Hstatus Hidx Hplain.
  destruct (handleConfirmWager_cases ws gameId wager st g game pid i Hget Hpid Hstatus Hidx)
    as [H|(_ & H & _)]; [exact H|done].
Qed.

Lemma is_Some_refundStore (p : Player.t) (items : gmap string (gmap string Z)) (name : string) :
  is_Some (refundStore p items !! name) ↔ is_Some (items !! name).
Proof.
  unfold refundStore. destruct (Player.wagerConfirmed p); [apply is_Some_creditStore|done].
Qed.

(** A refund returns unless the slot is confirmed under an inherited name. *)
Lemma refundConfirmed_eq (p : Player.t) (st : State.t) :
  Player.wagerConfirmed p = false ∨ getPlayerData (Player.name p) st ≠ Inherited →
  refundConfirmed p st = Returns (State.set_itemsData (refundStore p (State.itemsData st)) st).
Proof.
  intros Hok. unfold refundConfirmed, refundStore.
  destruct (Player.wagerConfirmed p).
  - apply creditPlayer_eq. by destruct Hok.
  - by destruct st.
Qed.

Lemma refundConfirmed_inherited (p : Player.t) (st : State.t) :
  Player.wagerConfirmed p = true → getPlayerData (Player.name p) st = Inherited →
  refundConfirmed p st = Throws st.
Proof. intros Hc Hinh. unfold refundConfirmed. rewrite Hc. by apply creditPlayer_inherited. Qed.



Lemma handleLeaveWager_live (ws : nat) (gameId : Z) (st : State.t)
    (g : nat) (game : Game.t) (pid : string) (i : nat) :
  getGame gameId st = Some (g, game) →
  playerIdOf ws st = Some pid →
  Game.findIndex pid game = Some i →
  handleLeaveWager ws gameId st = stateOf (tearDown gameId game i st).
Proof. intros Hget Hpid Hidx. unfold handleLeaveWager. by rewrite Hget, Hpid, Hidx. Qed.


(** Once the id is out of [activeGames], no wager path touches the state. *)
Lemma gone_is_inert (gameId : Z) (st : State.t) :
  State.activeGames st !! gameId = None →
  finishGame gameId st = st ∧
  ∀ ws, handleLeaveWager ws gameId st = st ∧
        handleCancelReady ws gameId st = st ∧
        ∀ wager, handleConfirmWager ws gameId wager st = st ∧
                 handleUpdateWager ws gameId wager st = st.
Proof.
  intros Hgone%getGame_None.
  unfold finishGame, finishGameOutcome, handleLeaveWager, handleCancelReady,
    handleConfirmWager, handleUpdateWager.
  rewrite Hgone. done.
Qed.

(** ** Holdings after a credit or a debit *)

Lemma holdings_creditStore (name : string) (m : gmap string Z)
    (items : gmap string (gmap string Z)) (name' item : string) :
  holdings (creditStore name m items) name' item
  = match items !! name with
    | Some inv => if bool_decide (name' = name) then credited m inv item
                  else holdings items name' item
    | None => holdings items name' item
    end.
Proof.
  unfold creditStore, holdings, credited.
  destruct (items !! name) as [inv|] eqn:E; [|done].
  case_bool_decide as Hn.
  - subst. rewrite lookup_insert_eq. apply getc_creditItems.
  - by rewrite lookup_insert_ne.
Qed.

Lemma holdings_debitStore (name : string) (w : gmap string Z)
    (items : gmap string (gmap string Z)) (name' item : string) :
  holdings (debitStore name w items) name' item
  = match items !! name with
    | Some inv => if bool_decide (name' = name) then debited w inv item
                  else holdings items name' item
    | None => holdings items name' item
    end.
Proof.
  unfold debitStore, holdings, debited.
  destruct (items !! name) as [inv|] eqn:E; [|done].
  case_bool_decide as Hn.
  - subst. rewrite lookup_insert_eq. apply getc_debitItems.
  - by rewrite lookup_insert_ne.
Qed.

Lemma findIndex_cases (pid : string) (game : Game.t) (i : nat) :
  Game.findIndex pid game = Some i →
  (i = 0%nat ∧ Player.id (Game.player0 game) = pid) ∨
  (i = 1%nat ∧ Player.id (Game.player1 game) = pid).
Proof.
  unfold Game.findIndex. repeat case_bool_decide; intros [= <-]; auto.
Qed.

Lemma holdings_debited (name : string) (w : gmap string Z)
    (items : gmap string (gmap string Z)) (item : string) :
  holdings (debitStore name w items) name item
  = if bool_decide (item ∈ ITEM_ORDER) && (0 <? getc w item)
    then Z.max 0 (holdings items name item - getc w item)
    else holdings items name item.
Proof.
  rewrite holdings_debitStore. unfold holdings, debited.
  destruct (items !! name) as [inv|].
  - by rewrite bool_decide_eq_true_2.
  - destruct (bool_decide (item ∈ ITEM_ORDER) && (0 <? getc w item)) eqn:E; [|done].
    apply andb_true_iff in E as [_ E%Z.ltb_lt]. lia.
Qed.

Lemma holdings_debited_other (name other : string) (w : gmap string Z)
    (items : gmap string (gmap string Z)) (item : string) :
  other ≠ name → holdings (debitStore name w items) other item = holdings items other item.
Proof.
  intros Hne. rewrite holdings_debitStore.
  destruct (items !! name); [|done]. by rewrite bool_decide_eq_false_2.
Qed.

(** C2, as the code has it.  A [confirm_wager] that gets past the guards of
    [handleConfirmWager] (the session exists, is in the wager phase and the
    sender is one of its players) always marks the sender confirmed with the
    map of the message and leaves the opponent's slot as it was; for every
    item kind of [ITEM_ORDER] with a positive count the sender's holdings
    become [max 0 (holdings - count)].  So a count within the holdings is
    debited exactly, a count above them empties the holdings; nobody else's
    holdings change, and the only messages sent are
    [opponent_wager_confirmed] and [wagers_locked]: there is no error. *)
Theorem confirm_wager_clamps (ws : nat) (gameId : Z) (wager : gmap string Z)
    (st : State.t) (g : nat) (game : Game.t) (pid : string) (i : nat) :
  getGame gameId st = Some (g, game) →
  playerIdOf ws st = Some pid →
  Game.status game = SWager →
  Game.findIndex pid game = Some i →
  let st' := handleConfirmWager ws gameId wager st in
  let name := Player.name (Game.player i game) in
  (∃ game', State.games st' !! g = Some game' ∧
            Player.wagerConfirmed (Game.player i game') = true ∧
            Player.wager (Game.player i game') = wager ∧
            Game.player (1 - i) game' = Game.player (1 - i) game) ∧
  (∀ item, holdings (State.itemsData st') name item
           = if bool_decide (item ∈ ITEM_ORDER) && (0 <? getc wager item)
             then Z.max 0 (holdings (State.itemsData st) name item - getc wager item)
             else holdings (State.itemsData st) name item) ∧
  (∀ item, item ∈ ITEM_ORDER →
           0 ≤ getc wager item ≤ holdings (State.itemsData st) name item →
           holdings (State.itemsData st') name item
           = holdings (State.itemsData st) name item - getc wager item) ∧
  (∀ other item, other ≠ name →
           holdings (State.itemsData st') other item = holdings (State.itemsData st) other item) ∧
  (∀ x, x ∈ State.outbox st' →
        x ∈ State.outbox st ∨ x.2 = MOpponentWagerConfirmed ∨ ∃ a b, x.2 = MWagersLocked a b).
Proof.
  intros Hget Hpid Hstatus Hidx st' name. unfold st'.
  destruct (handleConfirmWager_cases ws gameId wager st g game pid i Hget Hpid Hstatus Hidx)
    as [->|(-> & Hinh & _)]; simpl.
  - split_and!.
    + rewrite lookup_insert_eq. eexists. split; [done|].
      apply findIndex_cases in Hidx as [[-> _]|[-> _]];
        destruct (Player.wagerConfirmed _ && Player.wagerConfirmed _); done.
    + intros item. apply findIndex_cases in Hidx as [[-> _]|[-> _]]; apply holdings_debited.
    + intros item Hitem [Hlo Hhi]. fold name.
      rewrite holdings_debited, bool_decide_eq_true_2 by done. simpl.
      destruct (Z.ltb_spec 0 (getc wager item)); lia.
    + intros other item Hne. by apply holdings_debited_other.
    + intros [w m]. rewrite !elem_of_app. intros [?|[H|H]]; [by left|right..].
      * unfold delivered in H. destruct (_ && _) in H; [|by apply elem_of_nil in H].
        apply list_elem_of_singleton in H as [= -> ->]. by left.
      * right. destruct (Player.wagerConfirmed _ && Player.wagerConfirmed _);
          [|by apply elem_of_nil in H].
        unfold delivered in H. apply elem_of_app in H as [H|H];
          (destruct (_ && _) in H; [|by apply elem_of_nil in H]);
          apply list_elem_of_singleton in H as [= -> ->]; simpl; eauto.
  - (* the debit threw: the name has no record, nothing is held or taken *)
    apply lookupPlayer_Inherited in Hinh as [Hnone _]. fold name in Hnone.
    assert (Hzero : ∀ item, holdings (State.itemsData st) name item = 0).
    { intros item. unfold holdings. by rewrite Hnone. }
    split_and!.
    + rewrite lookup_insert_eq. eexists. split; [done|].
      apply findIndex_cases in Hidx as [[-> _]|[-> _]]; done.
    + intros item. rewrite Hzero.
      destruct (bool_decide (item ∈ ITEM_ORDER) && (0 <? getc wager item)) eqn:E; [|done].
      apply andb_true_iff in E as [_ E%Z.ltb_lt]. lia.
    + intros item Hitem [Hlo Hhi]. rewrite Hzero in *. lia.
    + done.
    + intros x Hx. by left.
Qed.

Lemma confirm_wager_clamps_witness :
  holdings (State.itemsData (handleConfirmWager 2 1000 (gold 2) wagerMatched)) "bob" "gold_coin"
  = holdings (State.itemsData wagerMatched) "bob" "gold_coin" - getc (gold 2) "gold_coin".
Proof.
  assert (getGame 1000 wagerMatched = Some (0%nat, gameOf 1000 wagerMatched)) as Hget by computed.
  assert (playerIdOf 2 wagerMatched = Some "p2"%string) as Hpid by computed.
  assert (Game.status (gameOf 1000 wagerMatched) = SWager) as Hst by computed.
  assert (Game.findIndex "p2" (gameOf 1000 wagerMatched) = Some 0%nat) as Hidx by computed.
  assert ("gold_coin"%string ∈ ITEM_ORDER) as Hitem by (apply (bool_decide_unpack _); computed).
  pose proof (confirm_wager_clamps 2 1000 (gold 2) wagerMatched _ _ _ _ Hget Hpid Hst Hidx) as H.
  apply proj2, proj2, proj1 in H. specialize (H _ Hitem).
  assert (Player.name (Game.player 0 (gameOf 1000 wagerMatched)) = "bob"%string) as Hname by computed.
  rewrite Hname in H. apply H. vm_compute. split; discriminate.
Defined.

(** C2, as stated, fails: [ann] holds one gold coin and confirms five.  The
    confirm is accepted: she is marked confirmed, her single coin is taken,
    and the only message is the opponent's [opponent_wager_confirmed]. *)
Lemma overbid_is_accepted :
  holdings (State.itemsData wagerMatched) "ann" "gold_coin" = 1 ∧
  getc (gold 5) "gold_coin" = 5 ∧
  (Player.wagerConfirmed ∘ Game.player1 <$> State.games wagerMatched !! 0%nat) = Some false ∧
  (Player.wagerConfirmed ∘ Game.player1 <$> State.games overbid !! 0%nat) = Some true ∧
  holdings (State.itemsData overbid) "ann" "gold_coin" = 0 ∧
  State.outbox overbid = State.outbox wagerMatched ++ [(2%nat, MOpponentWagerConfirmed)].
Proof. vm_compute. split_and!; reflexivity. Qed.

Lemma holdings_credited (name : string) (m : gmap string Z)
    (items : gmap string (gmap string Z)) (item : string) :
  is_Some (items !! name) →
  item ∈ ITEM_ORDER →
  holdings (creditStore name m items) name item = holdings items name item + getc m item.
Proof.
  intros [inv Hinv] Hitem. rewrite holdings_creditStore. unfold holdings, credited.
  rewrite Hinv. by rewrite !bool_decide_eq_true_2.
Qed.

Lemma holdings_credited_other (name other : string) (m : gmap string Z)
    (items : gmap string (gmap string Z)) (item : string) :
  other ≠ name → holdings (creditStore name m items) other item = holdings items other item.
Proof.
  intros Hne. rewrite holdings_creditStore.
  destruct (items !! name); [|done]. by rewrite bool_decide_eq_false_2.
Qed.

Lemma winnerIndexOf_cases (r1 r2 : Results.t) :
  (Results.score r2 < Results.score r1 ∧ winnerIndexOf r1 r2 = Some 0%nat) ∨
  (Results.score r1 < Results.score r2 ∧ winnerIndexOf r1 r2 = Some 1%nat) ∨
  (Results.score r1 = Results.score r2 ∧ winnerIndexOf r1 r2 = None).
Proof.
  unfold winnerIndexOf.
  destruct (Z.ltb_spec (Results.score r2) (Results.score r1)); [auto|].
  destruct (Z.ltb_spec (Results.score r1) (Results.score r2)); [auto|].
  right. right. split; [lia|done].
Qed.



Lemma plainNames_registered (game : Game.t) (st : State.t) :
  is_Some (State.itemsData st !! Player.name (Game.player0 game)) →
  is_Some (State.itemsData st !! Player.name (Game.player1 game)) →
  plainNames game st.
Proof. intros H0 H1. split; by apply registered_not_inherited. Qed.



(** C3, as stated, fails: [bob] stakes two gold coins against the guest
    [cy], who has no account, and [cy] is ahead (2 points to 0) when the
    session is finished.  The pot of two coins is reported as won by [cy],
    but [itemsData.players] has no record to credit: the store is what it
    was, [bob] is two coins down, and the session is gone. *)
Lemma guest_winner_gets_no_pot :
  Game.status (gameOf 1000 guestLeads) = SActive ∧
  getc (potOf (Player.wager (Game.player0 (gameOf 1000 guestLeads)))
              (Player.wager (Game.player1 (gameOf 1000 guestLeads)))) "gold_coin" = 2 ∧
  Results.score (p1ResultsOf (gameOf 1000 guestLeads)) = 0 ∧
  Results.score (p2ResultsOf (gameOf 1000 guestLeads)) = 2 ∧
  Player.name (Game.player1 (gameOf 1000 guestLeads)) = "cy"%string ∧
  State.itemsData guestLeads !! "cy"%string = None ∧
  drop (length (State.outbox guestLeads)) (State.outbox (finishGame 1000 guestLeads))
  = [(2%nat, gameEndFor 0 (gameOf 1000 guestLeads));
     (1%nat, gameEndFor 1 (gameOf 1000 guestLeads))] ∧
  wagerResultOf (gameOf 1000 guestLeads) (winnerOf (gameOf 1000 guestLeads))
  = Some (WagerResult.mk (Some "cy"%string)
            (potOf (Player.wager (Game.player0 (gameOf 1000 guestLeads)))
                   (Player.wager (Game.player1 (gameOf 1000 guestLeads)))) false) ∧
  State.itemsData (finishGame 1000 guestLeads) = State.itemsData guestLeads ∧
  holdings demoItems "bob" "gold_coin" = 4 ∧
  holdings (State.itemsData (finishGame 1000 guestLeads)) "bob" "gold_coin" = 2 ∧
  State.activeGames (finishGame 1000 guestLeads) !! 1000 = None.
Proof. split_and!; vm_compute; reflexivity. Qed.

(** ** Holdings after a refund and after a settlement *)



Lemma hasWagerOf_false (w0 w1 : gmap string Z) (item : string) :
  Forall (fun item => 0 ≤ getc w0 item ∧ 0 ≤ getc w1 item) ITEM_ORDER →
  hasWagerOf (potOf w0 w1) = false →
  item ∈ ITEM_ORDER →
  getc w0 item = 0 ∧ getc w1 item = 0.
Proof.
  intros Hnonneg Hnone Hitem. rewrite Forall_forall in Hnonneg.
  destruct (Hnonneg item Hitem) as [H0 H1].
  destruct (decide (0 < getc (potOf w0 w1) item)) as [Hpos|Hnpos].
  - assert (hasWagerOf (potOf w0 w1) = true) as Ht by (apply hasWagerOf_true; eauto).
    congruence.
  - rewrite getc_potOf, bool_decide_eq_true_2 in Hnpos by done. lia.
Qed.

(** The holdings of the two (distinct, registered) players after the
    settlement of [finishGame], for each outcome. *)
Lemma holdings_settled (game : Game.t) (wi : option nat)
    (items : gmap string (gmap string Z)) (item : string) :
  let p0 := Game.player0 game in
  let p1 := Game.player1 game in
  let w0 := Player.wager p0 in
  let w1 := Player.wager p1 in
  Player.name p0 ≠ Player.name p1 →
  is_Some (items !! Player.name p0) →
  is_Some (items !! Player.name p1) →
  Forall (fun item => 0 ≤ getc w0 item ∧ 0 ≤ getc w1 item) ITEM_ORDER →
  item ∈ ITEM_ORDER →
  holdings (settledItems game wi items) (Player.name p0) item
  = holdings items (Player.name p0) item
    + match wi with
      | Some O => getc w0 item + getc w1 item
      | Some _ => 0
      | None => getc w0 item
      end ∧
  holdings (settledItems game wi items) (Player.name p1) item
  = holdings items (Player.name p1) item
    + match wi with
      | Some O => 0
      | Some _ => getc w0 item + getc w1 item
      | None => getc w1 item
      end.
Proof.
  intros p0 p1 w0 w1 Hne Hr0 Hr1 Hnonneg Hitem. unfold settledItems.
  fold p0 p1 w0 w1.
  assert (getc (potOf w0 w1) item = getc w0 item + getc w1 item) as Hpot.
  { by rewrite getc_potOf, bool_decide_eq_true_2. }
  destruct (hasWagerOf (potOf w0 w1)) eqn:Hhas.
  - assert (Player.name p1 ≠ Player.name p0) as Hne' by done.
    destruct wi as [[|i]|]; cbn [Game.player]; fold p0 p1; split.
    + rewrite holdings_credited, Hpot by done. lia.
    + rewrite holdings_credited_other by done. lia.
    + rewrite holdings_credited_other by done. lia.
    + rewrite holdings_credited, Hpot by done. lia.
    + rewrite holdings_credited_other by done. by rewrite holdings_credited.
    + rewrite holdings_credited by (done || by apply is_Some_creditStore).
      by rewrite holdings_credited_other.
  - destruct (hasWagerOf_false w0 w1 item Hnonneg Hhas Hitem) as [-> ->].
    destruct wi as [[|i]|]; lia.
Qed.



(** Two stakes within the holdings, confirmed one after the other, and the
    settlement of [finishGame]: what the two registered players hold
    afterwards. *)
Lemma stakes_settled (ws0 ws1 : nat) (gameId : Z) (w0 w1 : gmap string Z)
    (st : State.t) (g : nat) (game : Game.t) :
  let p0 := Game.player0 game in
  let p1 := Game.player1 game in
  let n0 := Player.name p0 in
  let n1 := Player.name p1 in
  let h := holdings (State.itemsData st) in
  getGame gameId st = Some (g, game) →
  Game.status game = SWager →
  playerIdOf ws0 st = Some (Player.id p0) →
  playerIdOf ws1 st = Some (Player.id p1) →
  Player.id p0 ≠ Player.id p1 →
  Player.wagerConfirmed p1 = false →
  n0 ≠ n1 →
  is_Some (State.itemsData st !! n0) →
  is_Some (State.itemsData st !! n1) →
  Forall (fun item => 0 ≤ getc w0 item ≤ h n0 item ∧ 0 ≤ getc w1 item ≤ h n1 item)
    ITEM_ORDER →
  let st' := finishGame gameId
               (handleConfirmWager ws1 gameId w1 (handleConfirmWager ws0 gameId w0 st)) in
  let h' := holdings (State.itemsData st') in
  let s0 := Results.score (p1ResultsOf game) in
  let s1 := Results.score (p2ResultsOf game) in
  State.activeGames st' !! gameId = None ∧
  ∀ item, item ∈ ITEM_ORDER →
    h' n0 item + h' n1 item = h n0 item + h n1 item ∧
    (s1 < s0 → h' n0 item = h n0 item + getc w1 item ∧
               h' n1 item = h n1 item - getc w1 item) ∧
    (s0 < s1 → h' n0 item = h n0 item - getc w0 item ∧
               h' n1 item = h n1 item + getc w0 item) ∧
    (s0 = s1 → h' n0 item = h n0 item ∧ h' n1 item = h n1 item).
Proof.
  intros p0 p1 n0 n1 h Hget Hstatus Hpid0 Hpid1 Hids Hconf1 Hne Hr0 Hr1 Hsuff st' h' s0 s1.
  assert (Hidx0 : Game.findIndex (Player.id p0) game = Some 0%nat).
  { unfold Game.findIndex. by rewrite bool_decide_true. }
  pose proof (handleConfirmWager_live ws0 gameId w0 st g game _ _ Hget Hpid0 Hstatus Hidx0
                (registered_not_inherited _ _ Hr0)) as Hc0. cbv zeta in Hc0.
  set (st1 := handleConfirmWager ws0 gameId w0 st) in *.
  set (q0 := Player.set_wagerConfirmed true (Player.set_wager w0 (Game.player 0 game))) in Hc0.
  set (game1 := Game.set_player 0 q0 game) in Hc0.
  assert (Hboth0 : Player.wagerConfirmed (Game.player0 game1)
                   && Player.wagerConfirmed (Game.player1 game1) = false).
  { subst game1. cbn. exact Hconf1. }
  rewrite Hboth0 in Hc0.
  assert (Hget1 : getGame gameId st1 = Some (g, game1)).
  { apply getGame_Some in Hget as [Hact _]. apply getGame_Some.
    rewrite Hc0. cbn [State.activeGames State.games]. by rewrite lookup_insert_eq. }
  assert (Hpid1' : playerIdOf ws1 st1 = Some (Player.id p1)) by (by rewrite Hc0).
  assert (Hidx1 : Game.findIndex (Player.id p1) game1 = Some 1%nat).
  { unfold Game.findIndex. subst game1. cbn [Game.player0 Game.player1 Game.set_player].
    subst q0. cbn [Player.id Player.set_wagerConfirmed Player.set_wager Game.player].
    rewrite bool_decide_false by done. by rewrite bool_decide_true. }
  assert (Hitems1 : State.itemsData st1 = debitStore n0 w0 (State.itemsData st))
    by (by rewrite Hc0).
  assert (Hplain1 : getPlayerData (Player.name (Game.player 1 game1)) st1 ≠ Inherited).
  { apply registered_not_inherited. rewrite Hitems1. by apply is_Some_debitStore. }
  pose proof (handleConfirmWager_live ws1 gameId w1 st1 g game1 _ _ Hget1 Hpid1' Hstatus Hidx1
                Hplain1) as Hc1. cbv zeta in Hc1.
  set (st2 := handleConfirmWager ws1 gameId w1 st1) in *.
  set (q1 := Player.set_wagerConfirmed true (Player.set_wager w1 (Game.player 1 game1))) in Hc1.
  set (game2 := Game.set_player 1 q1 game1) in Hc1.
  assert (Hboth1 : Player.wagerConfirmed (Game.player0 game2)
                   && Player.wagerConfirmed (Game.player1 game2) = true) by done.
  rewrite Hboth1 in Hc1.
  assert (Hget2 : getGame gameId st2 = Some (g, Game.set_status SReady game2)).
  { apply getGame_Some in Hget1 as [Hact _]. apply getGame_Some.
    rewrite Hc1. cbn [State.activeGames State.games]. by rewrite lookup_insert_eq. }
  assert (Hitems2 : State.itemsData st2 = debitStore n1 w1 (debitStore n0 w0 (State.itemsData st))).
  { rewrite Hc1. cbn [State.itemsData]. by rewrite Hitems1. }
  assert (Hlive : Game.status (Game.set_status SReady game2) ≠ SFinished) by done.
  set (final := Game.set_status SFinished (Game.set_status SReady game2)).
  assert (Hr0' : is_Some (State.itemsData st2 !! Player.name (Game.player0 final))).
  { rewrite Hitems2. by apply is_Some_debitStore, is_Some_debitStore. }
  assert (Hr1' : is_Some (State.itemsData st2 !! Player.name (Game.player1 final))).
  { rewrite Hitems2. by apply is_Some_debitStore, is_Some_debitStore. }
  assert (Hplain2 : plainNames (Game.set_status SReady game2) st2).
  { by apply plainNames_registered. }
  subst h' st'. rewrite (finishGame_live _ _ _ _ Hget2 Hlive Hplain2).
  cbn [State.activeGames State.itemsData]. fold final.
  split; [apply lookup_delete_eq|]. intros item Hitem.
  rewrite Forall_forall in Hsuff. destruct (Hsuff item Hitem) as [Hs0 Hs1].
  assert (Hnonneg : Forall (fun item => 0 ≤ getc (Player.wager (Game.player0 final)) item ∧
                                        0 ≤ getc (Player.wager (Game.player1 final)) item)
                      ITEM_ORDER).
  { apply Forall_forall. intros x Hx. destruct (Hsuff x Hx) as [? ?].
    change (Player.wager (Game.player0 final)) with w0.
    change (Player.wager (Game.player1 final)) with w1. lia. }
  pose proof (holdings_settled final (winnerOf final) (State.itemsData st2) item
                Hne Hr0' Hr1' Hnonneg Hitem) as [H0 H1].
  change (Player.name (Game.player0 final)) with n0 in H0, H1.
  change (Player.name (Game.player1 final)) with n1 in H0, H1.
  change (Player.wager (Game.player0 final)) with w0 in H0, H1.
  change (Player.wager (Game.player1 final)) with w1 in H0, H1.
  change (winnerOf final) with (winnerIndexOf (p1ResultsOf game) (p2ResultsOf game)) in *.
  assert (Hd0 : holdings (State.itemsData st2) n0 item = h n0 item - getc w0 item).
  { rewrite Hitems2, holdings_debited_other by done. rewrite holdings_debited.
    rewrite bool_decide_true by done. cbn [andb]. fold (h n0 item).
    destruct (0 <? getc w0 item) eqn:Hpos; [lia|]. apply Z.ltb_ge in Hpos. lia. }
  assert (Hd1 : holdings (State.itemsData st2) n1 item = h n1 item - getc w1 item).
  { rewrite Hitems2, holdings_debited. rewrite bool_decide_true by done. cbn [andb].
    rewrite holdings_debited_other by done. fold (h n1 item).
    destruct (0 <? getc w1 item) eqn:Hpos; [lia|]. apply Z.ltb_ge in Hpos. lia. }
  rewrite H0, H1, Hd0, Hd1.
  destruct (winnerIndexOf_cases (p1ResultsOf game) (p2ResultsOf game))
    as [[Hs ->]|[[Hs ->]|[Hs ->]]]; fold s0 s1 in Hs; split_and!; intros; lia.
Qed.







(** A confirmed slot under an inherited name stops [handleLeaveWager] in
    its refund loop: nothing is sent and nothing is removed; what the loop
    had refunded before stays refunded. *)
Lemma leave_wager_stops_at_inherited_name (ws : nat) (gameId : Z) (st : State.t)
    (g : nat) (game : Game.t) (pid : string) (i : nat) :
  getGame gameId st = Some (g, game) →
  playerIdOf ws st = Some pid →
  Game.findIndex pid game = Some i →
  let st' := handleLeaveWager ws gameId st in
  let p0 := Game.player0 game in
  let p1 := Game.player1 game in
  (Player.wagerConfirmed p0 = true → getPlayerData (Player.name p0) st = Inherited →
   st' = st) ∧
  (Player.wagerConfirmed p0 = false ∨ getPlayerData (Player.name p0) st ≠ Inherited →
   Player.wagerConfirmed p1 = true → getPlayerData (Player.name p1) st = Inherited →
   st' = State.set_itemsData (refundStore p0 (State.itemsData st)) st).
Proof.
  intros Hget Hpid Hidx st' p0 p1. unfold st'.
  rewrite (handleLeaveWager_live _ _ _ _ _ _ _ Hget Hpid Hidx). unfold tearDown. fold p0 p1.
  split.
  - intros Hc Hinh. by rewrite (refundConfirmed_inherited _ _ Hc Hinh).
  - intros Hok Hc Hinh. rewrite (refundConfirmed_eq _ _ Hok). cbn [andThen].
    rewrite refundConfirmed_inherited; [done|done|].
    unfold getPlayerData in *. cbn [State.itemsData State.set_itemsData].
    rewrite lookupPlayer_Inherited_ext; [done|]. intros k. apply is_Some_refundStore.
Qed.

(** C10 fails on the code.  In the wager match of [bob] and a guest who
    took the name [constructor], both stakes are confirmed and the round is
    under way when [bob] sends [leave_wager].  The refund loop gives [bob]
    his two coins back and then throws on the guest's name, which
    [getPlayerData] finds among the members every object inherits: no
    [opponent_cancelled_wager] is sent, the session and both routing
    entries stay, and a [find_game] of [bob] is answered with
    [Already in game].  A second [leave_wager] refunds him once more. *)
Lemma leave_wager_stuck_on_inherited_name :
  (Game.status (gameOf 1000 heirActive) = SActive ∧
   Player.name (Game.player0 (gameOf 1000 heirActive)) = "bob"%string ∧
   Player.name (Game.player1 (gameOf 1000 heirActive)) = "constructor"%string ∧
   Player.wagerConfirmed (Game.player0 (gameOf 1000 heirActive)) = true ∧
   Player.wagerConfirmed (Game.player1 (gameOf 1000 heirActive)) = true ∧
   State.itemsData heirActive !! "constructor"%string = None ∧
   getPlayerData "constructor" heirActive = Inherited ∧
   holdings (State.itemsData heirActive) "bob" "gold_coin" = 2) ∧
  (threw (tearDown 1000 (gameOf 1000 heirActive) 0 heirActive) = true ∧
   State.outbox (handleLeaveWager 2 1000 heirActive) = State.outbox heirActive ∧
   State.activeGames (handleLeaveWager 2 1000 heirActive) !! 1000 = Some 0%nat ∧
   State.playerToGame (handleLeaveWager 2 1000 heirActive) !! "p1"%string = Some 1000 ∧
   State.playerToGame (handleLeaveWager 2 1000 heirActive) !! "p2"%string = Some 1000 ∧
   holdings (State.itemsData (handleLeaveWager 2 1000 heirActive)) "bob" "gold_coin" = 4) ∧
  (drop (length (State.outbox heirActive))
     (State.outbox (handleFindGame 2 false "" [] (handleLeaveWager 2 1000 heirActive)))
   = [(2%nat, MError "Already in game")] ∧
   holdings (State.itemsData (handleLeaveWager 2 1000 (handleLeaveWager 2 1000 heirActive)))
     "bob" "gold_coin" = 6).
Proof. split_and!; vm_compute; reflexivity. Qed.

(** ** Word submission *)

Lemma upperAscii_idemp (c : ascii) : upperAscii (upperAscii c) = upperAscii c.
Proof. destruct c as [[] [] [] [] [] [] [] []]; reflexivity. Qed.

Lemma toUpperCase_idemp (s : string) : toUpperCase (toUpperCase s) = toUpperCase s.
Proof. induction s as [|c s IH]; simpl; [done|]. by rewrite upperAscii_idemp, IH. Qed.

Lemma elem_of_stored (words : list string) (w : string) :
  w ∈ newSet (map toUpperCase words) ↔ ∃ v, v ∈ words ∧ w = toUpperCase v.
Proof.
  rewrite elem_of_newSet, list_elem_of_In, in_map_iff.
  setoid_rewrite <- list_elem_of_In. split; intros (v & ? & ?); exists v; done.
Qed.

(** The game object at address [g] after [finishGame]: finished when the
    session was live, untouched otherwise; its slots are never changed. *)
Lemma finishGame_slots (gameId : Z) (st : State.t) (g : nat) (game : Game.t) :
  getGame gameId st = Some (g, game) →
  ∃ game', State.games (finishGame gameId st) !! g = Some game' ∧
           Game.player0 game' = Game.player0 game ∧
           Game.player1 game' = Game.player1 game.
Proof.
  intros Hget. destruct (decide (Game.status game = SFinished)) as [Hfin|Hlive].
  - unfold finishGame, finishGameOutcome. rewrite Hget, bool_decide_eq_true_2 by done.
    apply getGame_Some in Hget as [_ Hobj]. eauto.
  - rewrite (finishGame_games _ _ _ _ Hget Hlive).
    rewrite lookup_insert_eq. eauto.
Qed.

(** [handleSubmitWords] when it gets past its guards. *)
Lemma handleSubmitWords_live (ws : nat) (words : list string) (st : State.t)
    (pid : string) (gameId : Z) (g : nat) (game : Game.t) (i : nat) :
  playerIdOf ws st = Some pid →
  State.playerToGame st !! pid = Some gameId →
  getGame gameId st = Some (g, game) →
  Game.findIndex pid game = Some i →
  let stored := newSet (map toUpperCase words) in
  let game1 := Game.set_player i (Player.set_words (Some stored) (Game.player i game)) game in
  handleSubmitWords ws words st
  = if bool_decide (Player.words (Game.player0 game1) ≠ None)
       && bool_decide (Player.words (Game.player1 game1) ≠ None)
    then finishGame gameId (putGame g game1 st) else putGame g game1 st.
Proof.
  intros Hpid Hroute Hget Hidx stored game1. unfold handleSubmitWords.
  by rewrite Hpid, Hroute, Hget, Hidx.
Qed.

(** C4, as the code has it.  Every [submit_words] from a player of a session
    in the store, whatever the phase and whatever the slot already holds,
    stores in the sender's slot the list of the message, uppercased and
    deduplicated (each uppercased word once, in order of first occurrence),
    and leaves the other slot alone: the latest submission stands.  That
    is all it does while the other slot holds no list; once both slots hold
    one, [finishGame] runs on the result. *)
Theorem submit_words_overwrites (ws : nat) (words : list string) (st : State.t)
    (pid : string) (gameId : Z) (g : nat) (game : Game.t) (i : nat) :
  playerIdOf ws st = Some pid →
  State.playerToGame st !! pid = Some gameId →
  getGame gameId st = Some (g, game) →
  Game.findIndex pid game = Some i →
  let stored := newSet (map toUpperCase words) in
  let game1 := Game.set_player i (Player.set_words (Some stored) (Game.player i game)) game in
  (∃ game', State.games (handleSubmitWords ws words st) !! g = Some game' ∧
            Player.words (Game.player i game') = Some stored ∧
            Game.player (1 - i) game' = Game.player (1 - i) game) ∧
  NoDup stored ∧
  (∀ w, w ∈ stored ↔ ∃ v, v ∈ words ∧ w = toUpperCase v) ∧
  (∀ w, w ∈ stored → toUpperCase w = w) ∧
  (Player.words (Game.player (1 - i) game) = None →
   handleSubmitWords ws words st = putGame g game1 st) ∧
  (Player.words (Game.player (1 - i) game) ≠ None →
   handleSubmitWords ws words st = finishGame gameId (putGame g game1 st)).
Proof.
  intros Hpid Hroute Hget Hidx stored game1.
  rewrite (handleSubmitWords_live _ _ _ _ _ _ _ _ Hpid Hroute Hget Hidx).
  fold stored. fold game1.
  assert (Player.words (Game.player i game1) = Some stored ∧
          Game.player (1 - i) game1 = Game.player (1 - i) game) as [Hw Hother].
  { apply findIndex_cases in Hidx as [[-> _]|[-> _]]; done. }
  assert ((bool_decide (Player.words (Game.player0 game1) ≠ None)
           && bool_decide (Player.words (Game.player1 game1) ≠ None))
          = bool_decide (Player.words (Game.player (1 - i) game) ≠ None)) as Hboth.
  { rewrite <- Hother.
    apply findIndex_cases in Hidx as [[-> _]|[-> _]]; cbn [Game.player Nat.sub] in *;
      rewrite Hw; by rewrite ?andb_true_r. }
  split_and!.
  - assert (getGame gameId (putGame g game1 st) = Some (g, game1)) as Hget1.
    { apply getGame_Some in Hget as [Hact _]. apply getGame_Some.
      split; [done|]. cbn. apply lookup_insert_eq. }
    destruct (_ && _).
    + destruct (finishGame_slots _ _ _ _ Hget1) as (game' & Hg & H0 & H1).
      exists game'. split; [done|].
      apply findIndex_cases in Hidx as [[-> _]|[-> _]]; cbn [Game.player] in *;
        rewrite ?H0, ?H1; done.
    + exists game1. split; [|done]. cbn. apply lookup_insert_eq.
  - apply NoDup_newSet.
  - apply elem_of_stored.
  - intros w (v & _ & ->)%elem_of_stored. apply toUpperCase_idemp.
  - intros Hnone. rewrite Hboth, bool_decide_eq_false_2; [done|].
    intros Hsome. by apply Hsome.
  - intros Hsome. by rewrite Hboth, bool_decide_eq_true_2.
Qed.

Lemma submit_words_overwrites_witness :
  ∃ game', State.games (handleSubmitWords 1 ["dog"]%string submittedOnce) !! 0%nat = Some game' ∧
           Player.words (Game.player 1 game') = Some (newSet (map toUpperCase ["dog"]%string)).
Proof.
  assert (playerIdOf 1 submittedOnce = Some "p1"%string) as Hpid by computed.
  assert (State.playerToGame submittedOnce !! "p1"%string = Some 1000) as Hroute by computed.
  assert (getGame 1000 submittedOnce = Some (0%nat, gameOf 1000 submittedOnce)) as Hget
    by computed.
  assert (Game.findIndex "p1" (gameOf 1000 submittedOnce) = Some 1%nat) as Hidx by computed.
  destruct (submit_words_overwrites 1 ["dog"]%string submittedOnce _ _ _ _ _
              Hpid Hroute Hget Hidx) as ((game' & Hg & Hw & _) & _).
  exists game'. split; [exact Hg|exact Hw].
Defined.

(** C4, as stated, fails: in a round under way [ann] submits
    [["cat"; "Cat"]], stored as [["CAT"]], then [["dog"]].  The second
    submission is not rejected: her slot now holds [["DOG"]]. *)
Lemma second_submission_replaces_first :
  Game.status (gameOf 1000 casualActive) = SActive ∧
  Player.words (Game.player1 (gameOf 1000 submittedOnce)) = Some ["CAT"]%string ∧
  Player.words (Game.player1 (gameOf 1000 submittedTwice)) = Some ["DOG"]%string.
Proof. vm_compute. split_and!; reflexivity. Qed.

(** ** Countdown and matchmaking in normal form *)

Lemma startCountdownPhase_eq (g : nat) (st : State.t) (game : Game.t) :
  State.games st !! g = Some game →
  startCountdownPhase g st
  = State.mk (State.now st) (State.sockets st)
      (<[g := Game.set_status SCountdown game]> (State.games st))
      (State.nextGame st) (State.waitingPlayersCasual st) (State.waitingPlayersWager st)
      (State.activeGames st) (State.playerToGame st) (State.disconnectedPlayers st)
      (State.itemsData st)
      (State.timers st ++ countdownTimers g (State.now st) (State.nextTimer st))
      (S (S (S (S (S (State.nextTimer st)))))) (State.outbox st).
Proof.
  intros Hobj. unfold startCountdownPhase. rewrite Hobj.
  unfold setTimeout, putGame, countdownTimers. cbn.
  by rewrite <- !app_assoc.
Qed.

Lemma startGame_eq (player1 player2 : nat) (wagerMode : bool) (board : list string)
    (st : State.t) (s1 s2 : Sock.t) :
  State.sockets st !! player1 = Some s1 →
  State.sockets st !! player2 = Some s2 →
  let g := State.nextGame st in
  let gameId := State.now st in
  startGame player1 player2 wagerMode board st
  = State.mk (State.now st) (State.sockets st)
      (<[g := matchedGame player1 s1 player2 s2 wagerMode board gameId]> (State.games st))
      (S g) (State.waitingPlayersCasual st) (State.waitingPlayersWager st)
      (<[gameId := g]> (State.activeGames st))
      (<[Sock.playerId s2 := gameId]> (<[Sock.playerId s1 := gameId]> (State.playerToGame st)))
      (State.disconnectedPlayers st) (State.itemsData st)
      (State.timers st
         ++ (if wagerMode then [] else countdownTimers g gameId (State.nextTimer st)))
      (if wagerMode then State.nextTimer st else S (S (S (S (S (State.nextTimer st))))))
      (State.outbox st
         ++ [(player1, MGameMatched gameId board GAME_TIME wagerMode (Sock.playerName s2));
             (player2, MGameMatched gameId board GAME_TIME wagerMode (Sock.playerName s1))]).
Proof.
  intros H1 H2 g gameId. unfold startGame. rewrite H1, H2.
  destruct wagerMode.
  - unfold send, putGame, matchedGame. cbn.
    by rewrite app_nil_r, <- app_assoc.
  - erewrite startCountdownPhase_eq.
    2: { unfold send, putGame. cbn. apply lookup_insert_eq. }
    unfold send, putGame, matchedGame. cbn.
    by rewrite insert_insert_eq, <- app_assoc.
Qed.

(** C8.  [handleFindGame] for a socket [ws]: a socket already in either
    queue gets the error "Already searching" and a socket whose player id
    the session store maps gets "Already in game", with no other effect;
    otherwise, when the queue of the requested mode is empty the socket is
    appended to it and gets [searching], and when it is not, its head (the
    oldest waiter) leaves the queue and is paired with the arriver in a new
    session, whatever else waits behind; the other queue is not touched. *)
Theorem find_game_pairs_with_head (ws : nat) (wagerMode : bool) (generated : string)
    (board : list string) (st : State.t) (s : Sock.t) :
  State.sockets st !! ws = Some s →
  let st' := handleFindGame ws wagerMode generated board st in
  let queueOf := fun x => if wagerMode then State.waitingPlayersWager x
                          else State.waitingPlayersCasual x in
  let otherOf := fun x => if wagerMode then State.waitingPlayersCasual x
                          else State.waitingPlayersWager x in
  let name := if bool_decide (Sock.playerName s = ""%string) then generated
              else Sock.playerName s in
  (ws ∈ State.waitingPlayersCasual st ∨ ws ∈ State.waitingPlayersWager st →
   st' = send ws (MError "Already searching") st) ∧
  (ws ∉ State.waitingPlayersCasual st → ws ∉ State.waitingPlayersWager st →
   is_Some (State.playerToGame st !! Sock.playerId s) →
   st' = send ws (MError "Already in game") st) ∧
  (ws ∉ State.waitingPlayersCasual st → ws ∉ State.waitingPlayersWager st →
   State.playerToGame st !! Sock.playerId s = None →
   queueOf st = [] →
   queueOf st' = [ws] ∧ otherOf st' = otherOf st ∧
   State.outbox st' = State.outbox st ++ [(ws, MSearching)] ∧
   State.activeGames st' = State.activeGames st ∧
   State.playerToGame st' = State.playerToGame st ∧
   State.games st' = State.games st) ∧
  (ws ∉ State.waitingPlayersCasual st → ws ∉ State.waitingPlayersWager st →
   State.playerToGame st !! Sock.playerId s = None →
   ∀ opponent rest s2,
     queueOf st = opponent :: rest →
     State.sockets st !! opponent = Some s2 →
     queueOf st' = rest ∧ otherOf st' = otherOf st ∧
     State.activeGames st' !! State.now st = Some (State.nextGame st) ∧
     State.games st' !! State.nextGame st
     = Some (matchedGame ws (Sock.set_wagerMode wagerMode (Sock.set_playerName name s))
               opponent s2 wagerMode board (State.now st)) ∧
     State.playerToGame st' !! Sock.playerId s = Some (State.now st) ∧
     State.playerToGame st' !! Sock.playerId s2 = Some (State.now st) ∧
     State.outbox st'
     = State.outbox st
       ++ [(ws, MGameMatched (State.now st) board GAME_TIME wagerMode (Sock.playerName s2));
           (opponent, MGameMatched (State.now st) board GAME_TIME wagerMode name)]).
Proof.
  intros Hs st' queueOf otherOf name. unfold st', handleFindGame. rewrite Hs.
  split_and!.
  - intros Hin.
    destruct Hin as [Hin|Hin]; rewrite (bool_decide_eq_true_2 _ Hin); [done|].
    by rewrite orb_true_r.
  - intros Hc Hw Hroute.
    rewrite (bool_decide_eq_false_2 _ Hc), (bool_decide_eq_false_2 _ Hw).
    by rewrite (bool_decide_eq_true_2 _ Hroute).
  - intros Hc Hw Hroute Hempty.
    rewrite (bool_decide_eq_false_2 _ Hc), (bool_decide_eq_false_2 _ Hw).
    rewrite bool_decide_eq_false_2 by (rewrite Hroute; by intros [? ?]).
    unfold queueOf, otherOf in *. destruct wagerMode; cbn in *; rewrite Hempty; done.
  - intros Hc Hw Hroute opponent rest s2 Hqueue Hs2.
    rewrite (bool_decide_eq_false_2 _ Hc), (bool_decide_eq_false_2 _ Hw).
    rewrite bool_decide_eq_false_2 by (rewrite Hroute; by intros [? ?]).
    fold name. cbn [orb].
    assert (opponent ≠ ws) as Hne.
    { intros ->. unfold queueOf in Hqueue.
      destruct wagerMode; [apply Hw|apply Hc]; rewrite Hqueue; constructor. }
    set (s' := Sock.set_wagerMode wagerMode (Sock.set_playerName name s)).
    unfold queueOf, otherOf in *.
    destruct wagerMode; cbn in Hqueue |- *; rewrite Hqueue;
      (erewrite (startGame_eq ws opponent _ board _ s' s2);
       [|cbn; apply lookup_insert_eq|cbn; by rewrite lookup_insert_ne]);
      cbn; rewrite !lookup_insert_eq; split_and!; try done;
      (destruct (decide (Sock.playerId s2 = Sock.playerId s)) as [->|Hid];
       [by rewrite lookup_insert_eq|by rewrite lookup_insert_ne, lookup_insert_eq]).
Qed.

Lemma find_game_pairs_with_head_witness :
  State.waitingPlayersCasual casualWaiting = [1%nat] ∧
  State.waitingPlayersCasual (handleFindGame 2 false "" [] casualWaiting) = [] ∧
  State.activeGames (handleFindGame 2 false "" [] casualWaiting) !! 1000 = Some 0%nat.
Proof.
  assert (State.sockets casualWaiting !! 2%nat = Some (Sock.mk "p2" "bob" false true)) as Hs
    by computed.
  assert (State.sockets casualWaiting !! 1%nat = Some (Sock.mk "p1" "ann" false true)) as Hs2
    by computed.
  assert (State.waitingPlayersCasual casualWaiting = [1%nat]) as Hqueue by computed.
  assert (2%nat ∉ State.waitingPlayersCasual casualWaiting) as Hc
    by (apply (bool_decide_unpack _); vm_compute; exact I).
  assert (2%nat ∉ State.waitingPlayersWager casualWaiting) as Hw
    by (apply (bool_decide_unpack _); vm_compute; exact I).
  assert (State.playerToGame casualWaiting !! "p2"%string = None) as Hroute by computed.
  pose proof (proj2 (proj2 (proj2 (find_game_pairs_with_head 2 false "" [] casualWaiting _ Hs)))
                Hc Hw Hroute 1%nat [] _ Hqueue Hs2) as Hpair.
  split_and!; [exact Hqueue|apply Hpair|].
  replace 1000 with (State.now casualWaiting) at 2 by computed.
  replace 0%nat with (State.nextGame casualWaiting) at 2 by computed.
  apply Hpair.
Defined.

(** ** The automatic end *)

Lemma autoEnds_app (l k : list Timer.t) : autoEnds (l ++ k) = autoEnds l ++ autoEnds k.
Proof. apply List.filter_app. Qed.

(** C9, as the code has it.  [startCountdownPhase] puts the session in the
    countdown phase and schedules one automatic end, due the round length
    plus 15 seconds plus the 3 seconds of the countdown (198 seconds) after
    the entry to the countdown.  When that timer runs and the session is
    still in the session store with a status other than [finished] (any
    other status, paused or not), it runs [finishGame], which marks the
    session finished and, when the players go by plain names, takes it out
    of the session store; otherwise the timer does nothing. *)
Theorem auto_end_after_countdown_and_round :
  (∀ g st game,
     State.games st !! g = Some game →
     let st' := startCountdownPhase g st in
     (Game.status <$> State.games st' !! g) = Some SCountdown ∧
     autoEnds (State.timers st')
     = autoEnds (State.timers st)
       ++ [Timer.mk (S (S (S (S (State.nextTimer st)))))
             (State.now st + (GAME_TIME + 15 + 3) * 1000) (AutoEnd g)]) ∧
  (∀ g st game,
     State.games st !! g = Some game →
     State.activeGames st !! Game.id game = Some g →
     Game.status game ≠ SFinished →
     let st' := runCallback (AutoEnd g) st in
     st' = finishGame (Game.id game) st ∧
     (Game.status <$> State.games st' !! g) = Some SFinished ∧
     (plainNames game st → State.activeGames st' !! Game.id game = None)) ∧
  (∀ g st game,
     State.games st !! g = Some game →
     Game.status game = SFinished ∨ State.activeGames st !! Game.id game = None →
     runCallback (AutoEnd g) st = st).
Proof.
  split_and!.
  - intros g st game Hobj st'. unfold st'. rewrite (startCountdownPhase_eq _ _ _ Hobj).
    cbn [State.games State.timers]. rewrite lookup_insert_eq. split; [done|].
    rewrite autoEnds_app. reflexivity.
  - intros g st game Hobj Hact Hlive st'.
    assert (st' = finishGame (Game.id game) st) as ->.
    { unfold st', runCallback, callbackOutcome, activeHas. rewrite Hobj.
      rewrite bool_decide_eq_true_2 by (rewrite Hact; eauto).
      by rewrite bool_decide_eq_false_2. }
    split; [done|].
    assert (getGame (Game.id game) st = Some (g, game)) as Hget by (by apply getGame_Some).
    split.
    + rewrite (finishGame_games _ _ _ _ Hget Hlive). by rewrite lookup_insert_eq.
    + intros Hplain. rewrite (finishGame_live _ _ _ _ Hget Hlive Hplain).
      cbn [State.activeGames]. apply lookup_delete_eq.
  - intros g st game Hobj Hdone. unfold runCallback, callbackOutcome, activeHas. rewrite Hobj.
    destruct Hdone as [Hfin|Hgone].
    + rewrite (bool_decide_eq_true_2 (Game.status game = SFinished)) by done.
      by rewrite andb_false_r.
    + rewrite bool_decide_eq_false_2; [done|]. rewrite Hgone. by intros [? ?].
Qed.

Lemma auto_end_after_countdown_and_round_witness :
  (Game.status <$> State.games (runCallback (AutoEnd 0) casualActive) !! 0%nat)
  = Some SFinished ∧
  State.activeGames (runCallback (AutoEnd 0) casualActive) !! 1000 = None.
Proof.
  destruct auto_end_after_countdown_and_round as (_ & Hfire & _).
  assert (State.games casualActive !! 0%nat = Some (gameOf 1000 casualActive)) as Hobj
    by computed.
  assert (Game.id (gameOf 1000 casualActive) = 1000) as Hid by computed.
  specialize (Hfire 0%nat casualActive _ Hobj). rewrite Hid in Hfire.
  destruct Hfire as (_ & Hfin & Hgone); [computed|vm_compute; discriminate|].
  split; [exact Hfin|]. apply Hgone. apply plainNames_registered; eexists; computed.
Defined.

(** C9, as stated, fails: the casual session of the example enters the
    countdown at time 1000; its one automatic end is due at 199000, which is
    198 seconds later, not the round length plus 15 seconds (that would be
    196000), and when the round is under way no other timer is pending. *)
Lemma auto_end_due_198_seconds_after_entry :
  State.now casualMatched = 1000 ∧
  Game.status (gameOf 1000 casualMatched) = SCountdown ∧
  autoEnds (State.timers casualMatched) = [Timer.mk 4 199000 (AutoEnd 0)] ∧
  State.timers casualActive = [Timer.mk 4 199000 (AutoEnd 0)] ∧
  1000 + (GAME_TIME + 15) * 1000 = 196000.
Proof. vm_compute. split_and!; reflexivity. Qed.

(** ** Disconnect, pause and the grace timer *)

Lemma pauseGame_eq (g : nat) (name : string) (st : State.t) (game : Game.t) :
  State.games st !! g = Some game →
  Game.paused game = false →
  pauseGame g name st
  = State.mk (State.now st) (State.sockets st) (<[g := pausedGame game st]> (State.games st))
      (State.nextGame st) (State.waitingPlayersCasual st) (State.waitingPlayersWager st)
      (State.activeGames st) (State.playerToGame st) (State.disconnectedPlayers st)
      (State.itemsData st) (State.timers st) (State.nextTimer st)
      ((State.outbox st ++ delivered st (Game.player0 game) (pausedMsg name game st))
         ++ delivered st (Game.player1 game) (pausedMsg name game st)).
Proof.
  intros Hobj Hrun. unfold pauseGame. rewrite Hobj, Hrun.
  unfold broadcastToGame. rewrite !notify_eq. unfold putGame. cbn.
  by rewrite !(delivered_ext st) by done.
Qed.

Lemma pauseGame_paused (g : nat) (name : string) (st : State.t) (game : Game.t) :
  State.games st !! g = Some game → Game.paused game = true → pauseGame g name st = st.
Proof. intros Hobj Hp. unfold pauseGame. by rewrite Hobj, Hp. Qed.

(** [handleDisconnect] for a player of a live session: the game object, the
    disconnect record and the grace timer it leaves behind. *)
Lemma handleDisconnect_live (ws : nat) (st : State.t) (pid : string) (gameId : Z)
    (g : nat) (game : Game.t) (i : nat) :
  playerIdOf ws st = Some pid →
  State.playerToGame st !! pid = Some gameId →
  getGame gameId st = Some (g, game) →
  Game.status game ≠ SFinished →
  Game.findIndex pid game = Some i →
  let st' := handleDisconnect ws st in
  let player := Player.set_connected false (Game.player i game) in
  let game1 := Game.set_player i player game in
  State.games st' !! g = Some (if Game.paused game then game1 else pausedGame game1 st) ∧
  State.activeGames st' = State.activeGames st ∧
  State.playerToGame st' = State.playerToGame st ∧
  State.disconnectedPlayers st' !! pid
  = Some (Disc.mk gameId i (Player.name player) (default [] (Player.words player))
            (State.nextTimer st)) ∧
  State.timers st'
  = State.timers st
    ++ [Timer.mk (State.nextTimer st) (State.now st + RECONNECT_GRACE_PERIOD)
          (GraceExpired ws g i gameId)] ∧
  State.now st' = State.now st ∧
  State.itemsData st' = State.itemsData st.
Proof.
  intros Hpid Hroute Hget Hlive Hidx st' player game1. unfold st', handleDisconnect.
  assert (∀ x, playerIdOf ws (State.set_waitingPlayersWager x
                 (State.set_waitingPlayersCasual (removeFirst ws (State.waitingPlayersCasual st)) st))
               = playerIdOf ws st) as -> by done.
  rewrite Hpid. cbn [State.playerToGame State.set_waitingPlayersWager
                     State.set_waitingPlayersCasual]. rewrite Hroute.
  assert (∀ x y, getGame gameId (State.set_waitingPlayersWager x
                   (State.set_waitingPlayersCasual y st)) = getGame gameId st) as -> by done.
  rewrite Hget, bool_decide_eq_false_2, Hidx by done.
  fold player. fold game1. rewrite notify_eq.
  assert (Game.paused game1 = Game.paused game) as Hsame.
  { apply findIndex_cases in Hidx as [[-> _]|[-> _]]; done. }
  destruct (Game.paused game) eqn:Hp.
  - erewrite pauseGame_paused; [|cbn; apply lookup_insert_eq|done].
    cbn. rewrite !lookup_insert_eq. done.
  - erewrite pauseGame_eq; [|cbn; apply lookup_insert_eq|done].
    cbn. rewrite insert_insert_eq, !lookup_insert_eq. done.
Qed.

Lemma fireTimer_found (h : nat) (st : State.t) (t : Timer.t) :
  find (fun t => bool_decide (Timer.handle t = h)) (State.timers st) = Some t →
  fireTimer h st = runCallback (Timer.callback t) (clearTimeout h st).
Proof. intros Hfind. unfold fireTimer, fireOutcome, runCallback. by rewrite Hfind. Qed.

Lemma calculateResults_nil (sharedWords : list string) :
  calculateResults [] sharedWords = Results.mk [] 0 0.
Proof. reflexivity. Qed.



(** C6 fails on the code.  [bob] stakes two gold coins against a guest who
    took the name [constructor]; the guest has submitted a word when
    [bob]'s socket closes, and [bob] does not come back.  When the grace
    timer runs, [finishGame] marks the session finished and finds the guest
    ahead, 2 points to 0, with a pot to hand out; [getPlayerData] finds the
    winner's name among the members every object inherits, and the credit
    throws.  Only [opponent_left] has been sent: there is no [game_end] and
    no score, the session stays in the session store, and [bob]'s stake is
    with nobody.  The exception leaves a timer callback, so the process
    ends: a later message is not served. *)
Lemma grace_expiry_crashes_on_inherited_name :
  (State.now heirDropped = 44000 ∧
   find (fun t => bool_decide (Timer.handle t = 5%nat)) (State.timers heirDropped)
   = Some (Timer.mk 5 44000 (GraceExpired 2 0 0 1000)) ∧
   Game.status (gameOf 1000 heirDropped) = SActive ∧
   Player.name (Game.player0 (gameOf 1000 heirDropped)) = "bob"%string ∧
   Player.words (Game.player0 (gameOf 1000 heirDropped)) = None ∧
   Player.name (Game.player1 (gameOf 1000 heirDropped)) = "constructor"%string ∧
   Player.words (Game.player1 (gameOf 1000 heirDropped)) = Some ["HELLO"%string] ∧
   Results.score (p1ResultsOf (gameOf 1000 heirDropped)) = 0 ∧
   Results.score (p2ResultsOf (gameOf 1000 heirDropped)) = 2 ∧
   getc (potOf (Player.wager (Game.player0 (gameOf 1000 heirDropped)))
               (Player.wager (Game.player1 (gameOf 1000 heirDropped)))) "gold_coin" = 2 ∧
   getPlayerData "constructor" heirDropped = Inherited) ∧
  (threw (fireOutcome 5 heirDropped) = true ∧
   crashes heirDropped (Fire 5) = true ∧
   State.outbox (fireTimer 5 heirDropped)
   = State.outbox heirDropped ++ [(1%nat, MOpponentLeft "Opponent did not reconnect")] ∧
   Game.status (gameOf 1000 (fireTimer 5 heirDropped)) = SFinished ∧
   State.activeGames (fireTimer 5 heirDropped) !! 1000 = Some 0%nat ∧
   holdings demoItems "bob" "gold_coin" = 4 ∧
   holdings (State.itemsData (fireTimer 5 heirDropped)) "bob" "gold_coin" = 2 ∧
   run heirDropped [Fire 5; Message 1 (find_game false "" [])] = fireTimer 5 heirDropped).
Proof. split_and!; vm_compute; reflexivity. Qed.

(** ** Reconnect and resume *)

(** C7 fails on the code.  In the run above the round is active and not
    paused when socket 3 closes at 23000, and the pause snapshot taken then
    is 169 seconds.  The resume countdown of the repeated [reconnect] is
    still pending: at 24000 it ends the pause, with 170 seconds on the clock
    and [ann] away.  She reconnects at 30000, inside the grace period, and
    [reconnect_success] carries 164 seconds and [paused: false], not the
    snapshot.  (Her first reconnect, with no other resume pending, did carry
    the snapshot of the first disconnect, 170.) *)
Lemma stale_resume_timer_overrides_pause :
  (Game.status (gameOf 1000 resumedOnce) = SActive ∧
   Game.paused (gameOf 1000 resumedOnce) = false ∧
   Player.connected (Game.player1 (gameOf 1000 resumedOnce)) = true) ∧
  (State.now droppedAgain = 23000 ∧
   Game.paused (gameOf 1000 droppedAgain) = true ∧
   Game.pausedTimeRemaining (gameOf 1000 droppedAgain) = Some 169 ∧
   State.timers droppedAgain
   = [Timer.mk 4 199000 (AutoEnd 0); Timer.mk 13 24000 (ResumeNow 0 (Some 170));
      Timer.mk 14 53000 (GraceExpired 3 0 1 1000)]) ∧
  (Game.paused (gameOf 1000 staleResumed) = false ∧
   Game.endTime (gameOf 1000 staleResumed) = Some 194000 ∧
   secondsLeft (gameOf 1000 staleResumed) staleResumed = 170 ∧
   Player.connected (Game.player1 (gameOf 1000 staleResumed)) = false) ∧
  (State.now reconnectedLate = 30000 ∧
   30000 - 23000 < RECONNECT_GRACE_PERIOD ∧
   drop (length (State.outbox staleResumed)) (State.outbox reconnectedLate)
   = [(4%nat, MReconnectSuccess 1000 [] 164 "bob" false []); (2%nat, MOpponentReconnected)]) ∧
  State.outbox resumedOnce !! 13%nat = Some (3%nat, MReconnectSuccess 1000 [] 170 "bob" true []).
Proof. split_and!; vm_compute; reflexivity. Qed.

(* Taken one by one, the steps keep the snapshot: the disconnect of a player
   of an active, running round records the seconds left; a [reconnect] that
   finds this pause standing reports the recorded value; the end of the
   resume countdown it starts puts exactly that value back on the clock. *)

Lemma secondsLeft_nonneg (game : Game.t) (st : State.t) : 0 ≤ secondsLeft game st.
Proof. unfold secondsLeft. lia. Qed.

Lemma disconnect_takes_snapshot (ws : nat) (st : State.t) (pid : string) (gameId : Z)
    (g : nat) (game : Game.t) (i : nat) :
  playerIdOf ws st = Some pid →
  State.playerToGame st !! pid = Some gameId →
  getGame gameId st = Some (g, game) →
  Game.status game = SActive →
  Game.paused game = false →
  Game.findIndex pid game = Some i →
  ∃ game', getGame gameId (handleDisconnect ws st) = Some (g, game') ∧
           Game.status game' = SActive ∧
           Game.paused game' = true ∧
           Game.pausedTimeRemaining game' = Some (secondsLeft game st) ∧
           Game.findIndex pid game' = Some i.
Proof.
  intros Hpid Hroute Hget Hstatus Hrun Hidx.
  assert (Game.status game ≠ SFinished) as Hlive by (by rewrite Hstatus).
  destruct (handleDisconnect_live ws st pid gameId g game i Hpid Hroute Hget Hlive Hidx)
    as (Hobj & Hact & _).
  rewrite Hrun in Hobj. eexists. split.
  - apply getGame_Some. rewrite Hact. split; [by apply getGame_Some in Hget as [? _]|exact Hobj].
  - apply findIndex_cases in Hidx as Hcase.
    destruct Hcase as [[-> Hid]|[-> Hid]]; split_and!; try done;
      unfold Game.findIndex in *; cbn; done.
Qed.




(** * Further properties *)

(** ** The scoring engine *)






Lemma calculateResults_ext (words s s' : list string) :
  (∀ w, includes s w = includes s' w) → calculateResults words s = calculateResults words s'.
Proof.
  intros Hext. unfold calculateResults.
  assert (map (scoreWord s) words = map (scoreWord s') words) as ->; [|done].
  apply map_ext. intros w. unfold scoreWord. by rewrite Hext.
Qed.

(** X2.  Scoring does not depend on which player is slot 0: with the two
    lists exchanged each player gets the same result, and the winner index
    is the other one (a tie stays a tie). *)
Theorem scoring_is_symmetric (p1Words p2Words : list string) :
  let r1 := calculateResults p1Words (sharedWordsOf p1Words p2Words) in
  let r2 := calculateResults p2Words (sharedWordsOf p1Words p2Words) in
  calculateResults p2Words (sharedWordsOf p2Words p1Words) = r2 ∧
  calculateResults p1Words (sharedWordsOf p2Words p1Words) = r1 ∧
  winnerIndexOf r2 r1 = (fun i => (1 - i)%nat) <$> winnerIndexOf r1 r2.
Proof.
  intros r1 r2. split_and!.
  - apply calculateResults_ext, sharedWordsOf_sym.
  - apply calculateResults_ext, sharedWordsOf_sym.
  - unfold winnerIndexOf.
    destruct (Z.ltb_spec (Results.score r2) (Results.score r1));
      destruct (Z.ltb_spec (Results.score r1) (Results.score r2)); try done; lia.
Qed.

Lemma getWordScore_range (n : nat) : 0 ≤ getWordScore n ≤ 11.
Proof.
  unfold getWordScore. destruct (8 <=? n)%nat; [lia|].
  do 8 (destruct n as [|n]; [cbn; lia|]). cbn. lia.
Qed.

(** X3.  The length table: a word of fewer than three letters is worth
    nothing, no word is worth more than 11 points, and a longer word is
    never worth less than a shorter one. *)
Theorem getWordScore_monotone (n m : nat) :
  ((n < 3)%nat → getWordScore n = 0) ∧
  0 ≤ getWordScore n ≤ 11 ∧
  ((n ≤ m)%nat → getWordScore n ≤ getWordScore m).
Proof.
  split; [|split].
  - intros Hn. do 3 (destruct n as [|n]; [done|]). lia.
  - apply getWordScore_range.
  - intros Hnm. destruct (Nat.leb_spec 8 m) as [Hm|Hm].
    + pose proof (proj2 (proj2 (proj2 (proj2 (proj2 getWordScore_table)))) m Hm) as ->.
      apply getWordScore_range.
    + assert (n < 8)%nat as Hn by lia.
      do 8 (destruct m as [|m];
            [do 8 (destruct n as [|n]; [first [lia|vm_compute; discriminate]|]); lia|]).
      lia.
Qed.

Lemma total_points_range (l : list Scored.t) :
  (∀ e, e ∈ l → 0 ≤ Scored.points e ≤ 11) →
  0 ≤ total (map Scored.points l) ≤ 11 * Z.of_nat (length l).
Proof.
  induction l as [|x l IH]; intros Hall; simpl; [lia|].
  assert (0 ≤ Scored.points x ≤ 11) by (apply Hall; constructor).
  assert (0 ≤ total (map Scored.points l) ≤ 11 * Z.of_nat (length l)).
  { apply IH. intros e He. apply Hall. by constructor. }
  unfold total in *. lia.
Qed.

(** X4.  A total is never negative and never above 11 points per submitted
    word; two identical submissions cancel completely: both totals are 0
    and there is no winner. *)
Theorem score_bounds_and_full_cancellation (words sharedWords : list string) :
  0 ≤ Results.score (calculateResults words sharedWords) ≤ 11 * Z.of_nat (length words) ∧
  Results.score (calculateResults words (sharedWordsOf words words)) = 0 ∧
  winnerIndexOf (calculateResults words (sharedWordsOf words words))
                (calculateResults words (sharedWordsOf words words)) = None.
Proof.
  split; [|split].
  - unfold calculateResults. cbn [Results.score]. rewrite foldl_points, Z.add_0_l.
    pose proof (total_points_range (map (scoreWord sharedWords) words)) as Hrange.
    rewrite length_map in Hrange. apply Hrange. intros e He.
    apply list_elem_of_In, in_map_iff in He as (w & <- & _).
    rewrite points_scoreWord. destruct (includes sharedWords w); [lia|apply getWordScore_range].
  - rewrite (score_contribution words words (sharedWordsOf words words))
      by apply includes_sharedWordsOf.
    assert (∀ l, (∀ w, w ∈ l → w ∈ words) →
                 total (map (contribution words words) l) = 0) as Hzero.
    { induction l as [|w l IH]; intros Hsub; simpl; [done|].
      rewrite IH by (intros; apply Hsub; by constructor).
      rewrite contribution_shared by (apply Hsub; constructor). lia. }
    by apply Hzero.
  - unfold winnerIndexOf. by rewrite Z.ltb_irrefl.
Qed.

(** ** The waiting queues *)

Lemma queuesOf_send ws m st : queuesOf (send ws m st) = queuesOf st.
Proof. reflexivity. Qed.

Lemma queuesOf_notify p m st : queuesOf (notify p m st) = queuesOf st.
Proof. unfold notify. by destruct (_ && _). Qed.

Lemma queuesOf_broadcastToGame game m st : queuesOf (broadcastToGame game m st) = queuesOf st.
Proof. unfold broadcastToGame. by rewrite !queuesOf_notify. Qed.

Lemma queuesOf_setTimeout cb delay st : queuesOf (setTimeout cb delay st) = queuesOf st.
Proof. reflexivity. Qed.

Lemma queuesOf_clearTimeout h st : queuesOf (clearTimeout h st) = queuesOf st.
Proof. reflexivity. Qed.

Lemma queuesOf_putGame g game st : queuesOf (putGame g game st) = queuesOf st.
Proof. reflexivity. Qed.

Lemma queuesOf_creditPlayer name m st :
  queuesOf (stateOf (creditPlayer name m st)) = queuesOf st.
Proof. destruct (creditPlayer_frame name m st) as [items' ->]. done. Qed.

Lemma queuesOf_debitPlayer name m st :
  queuesOf (stateOf (debitPlayer name m st)) = queuesOf st.
Proof. destruct (debitPlayer_cases name m st) as [->|(-> & _)]; done. Qed.

Lemma queuesOf_refundConfirmed p st :
  queuesOf (stateOf (refundConfirmed p st)) = queuesOf st.
Proof.
  unfold refundConfirmed. destruct (Player.wagerConfirmed p); [|done].
  apply queuesOf_creditPlayer.
Qed.

Lemma queuesOf_cleanupGame gameId st : queuesOf (cleanupGame gameId st) = queuesOf st.
Proof. unfold cleanupGame. by repeat case_match. Qed.

Lemma queuesOf_finishGame gameId st : queuesOf (finishGame gameId st) = queuesOf st.
Proof.
  unfold finishGame, finishGameOutcome. destruct (getGame gameId st) as [[g game]|]; [|done].
  case_bool_decide; [done|].
  match goal with
  | |- context [distributeWager ?gm ?wi ?s] =>
      destruct (distributeWager_frame gm wi s) as [items' Hframe];
      destruct (distributeWager gm wi s) as [[st2|st2] wr]
  end; cbn [fst stateOf andThen] in *; subst st2; [|done].
  by rewrite queuesOf_cleanupGame, !queuesOf_notify.
Qed.

Lemma queuesOf_pauseGame g name st : queuesOf (pauseGame g name st) = queuesOf st.
Proof.
  unfold pauseGame. repeat case_match; try done. by rewrite queuesOf_broadcastToGame.
Qed.

Lemma queuesOf_resumeGame g st : queuesOf (resumeGame g st) = queuesOf st.
Proof.
  unfold resumeGame. repeat case_match; try done.
  cbn [foldl]. by rewrite !queuesOf_setTimeout, queuesOf_broadcastToGame.
Qed.

Lemma queuesOf_startCountdownPhase g st : queuesOf (startCountdownPhase g st) = queuesOf st.
Proof. unfold startCountdownPhase. by case_match. Qed.

Lemma queuesOf_startGame p1 p2 wagerMode board st :
  queuesOf (startGame p1 p2 wagerMode board st) = queuesOf st.
Proof.
  unfold startGame. repeat case_match; try done.
  by rewrite queuesOf_startCountdownPhase.
Qed.

Lemma queuesOf_tearDown gameId game i st :
  queuesOf (stateOf (tearDown gameId game i st)) = queuesOf st.
Proof.
  unfold tearDown.
  pose proof (queuesOf_refundConfirmed (Game.player0 game) st) as H0.
  destruct (refundConfirmed (Game.player0 game) st) as [st0|st0]; cbn [andThen stateOf] in *;
    [|done].
  pose proof (queuesOf_refundConfirmed (Game.player1 game) st0) as H1.
  destruct (refundConfirmed (Game.player1 game) st0) as [st1|st1]; cbn [andThen stateOf] in *;
    [|congruence].
  rewrite <- H0, <- H1.
  exact (queuesOf_notify (Game.player (1 - i) game) MOpponentCancelledWager st1).
Qed.

Lemma queuesOf_runCallback cb st : queuesOf (runCallback cb st) = queuesOf st.
Proof.
  unfold runCallback.
  destruct cb; cbn [callbackOutcome]; repeat case_match; cbn [stateOf];
    rewrite ?queuesOf_broadcastToGame, ?queuesOf_notify; try done.
  all: match goal with
       | |- queuesOf (stateOf (finishGameOutcome ?id ?s)) = _ =>
           change (queuesOf (finishGame id s) = queuesOf st); rewrite queuesOf_finishGame
       end.
  all: by rewrite ?queuesOf_notify.
Qed.

Lemma queuesOf_fireTimer h st : queuesOf (fireTimer h st) = queuesOf st.
Proof.
  unfold fireTimer, fireOutcome. case_match; [|done].
  match goal with
  | |- queuesOf (stateOf (callbackOutcome ?cb ?s)) = _ =>
      change (queuesOf (runCallback cb s) = queuesOf st)
  end.
  by rewrite queuesOf_runCallback.
Qed.

Create Rewrite HintDb queues.

#[local] Hint Rewrite queuesOf_send queuesOf_notify queuesOf_broadcastToGame
  queuesOf_setTimeout queuesOf_clearTimeout queuesOf_putGame queuesOf_creditPlayer
  queuesOf_debitPlayer queuesOf_refundConfirmed queuesOf_cleanupGame
  queuesOf_finishGame queuesOf_pauseGame queuesOf_resumeGame
  queuesOf_startCountdownPhase queuesOf_startGame queuesOf_tearDown
  queuesOf_runCallback queuesOf_fireTimer : queues.

Ltac frame_queues := repeat case_match; autorewrite with queues; try done.

(** The handlers that do not deal with the queues leave them alone. *)
Lemma queuesOf_other_messages (ws : nat) (msg : InMsg) (st : State.t) :
  match msg with
  | find_game _ _ _ | cancel_search => True
  | _ => queuesOf (handleMessage ws msg st) = queuesOf st
  end.
Proof.
  destruct msg; [done|done|..]; cbn [handleMessage].
  - unfold handleSubmitWords. frame_queues.
  - unfold handleReconnect. frame_queues.
  - unfold handleUpdateWager. frame_queues.
  - unfold handleConfirmWager. frame_queues.
    all: match goal with
         | H : debitPlayer ?n ?w ?s = _ |- _ =>
             pose proof (queuesOf_debitPlayer n w s) as Hq; rewrite H in Hq; exact Hq
         end.
  - unfold handleLeaveWager. frame_queues.
  - unfold handlePlayerReady. frame_queues.
  - unfold handleCancelReady. frame_queues.
Qed.

Lemma removeFirst_length x l : (length (removeFirst x l) ≤ length l)%nat.
Proof. induction l as [|y l IH]; cbn [removeFirst length]; [lia|]. case_bool_decide; cbn [length]; lia. Qed.

Lemma removeFirst_subset x y l : y ∈ removeFirst x l → y ∈ l.
Proof.
  induction l as [|z l IH]; cbn [removeFirst]; [done|].
  case_bool_decide; rewrite ?elem_of_cons; intuition.
Qed.

Lemma removeFirst_absent x l : x ∉ l → removeFirst x l = l.
Proof.
  induction l as [|z l IH]; cbn [removeFirst]; [done|].
  rewrite not_elem_of_cons. intros [Hne Hl]. rewrite bool_decide_false by done.
  by rewrite IH.
Qed.

Lemma removeFirst_other x y l : y ≠ x → y ∈ removeFirst x l ↔ y ∈ l.
Proof.
  intros Hne. induction l as [|z l IH]; cbn [removeFirst]; [done|].
  case_bool_decide; rewrite ?elem_of_cons; [subst|]; intuition.
Qed.

Lemma removeFirst_NoDup x l : NoDup l → (x ∉ removeFirst x l) ∧ NoDup (removeFirst x l).
Proof.
  induction 1 as [|z l Hz Hl IH]; cbn [removeFirst]; [split; [apply not_elem_of_nil|constructor]|].
  case_bool_decide; [subst; done|]. destruct IH as [IH1 IH2]. split.
  - rewrite not_elem_of_cons. split; [done|done].
  - constructor; [|done]. intros Hin. by apply Hz, (removeFirst_subset x).
Qed.

Lemma queuesOf_handleDisconnect ws st :
  queuesOf (handleDisconnect ws st) =
  (removeFirst ws (State.waitingPlayersCasual st),
   removeFirst ws (State.waitingPlayersWager st)).
Proof. unfold handleDisconnect. frame_queues. Qed.

Lemma queuesOf_onClose ws st :
  queuesOf (onClose ws st) =
  (removeFirst ws (State.waitingPlayersCasual st),
   removeFirst ws (State.waitingPlayersWager st)).
Proof. unfold onClose. by rewrite queuesOf_handleDisconnect. Qed.

Lemma queuesOf_handleCancelSearch ws st :
  queuesOf (handleCancelSearch ws st) =
  if bool_decide (ws ∈ State.waitingPlayersCasual st)
  then (removeFirst ws (State.waitingPlayersCasual st), State.waitingPlayersWager st)
  else (State.waitingPlayersCasual st, removeFirst ws (State.waitingPlayersWager st)).
Proof.
  unfold handleCancelSearch. case_bool_decide; [done|].
  case_bool_decide; [done|]. by rewrite removeFirst_absent.
Qed.

(** What [handleFindGame] does to the queues: nothing on an error, the
    socket is appended to an empty queue, or the head of the queue leaves. *)
Lemma queuesOf_handleFindGame ws wagerMode generated board st :
  let casual := State.waitingPlayersCasual st in
  let wager := State.waitingPlayersWager st in
  queuesOf (handleFindGame ws wagerMode generated board st) = (casual, wager) ∨
  ((ws ∉ casual) ∧ (ws ∉ wager) ∧
   queuesOf (handleFindGame ws wagerMode generated board st) =
   if wagerMode then (casual, match wager with [] => [ws] | _ :: rest => rest end)
   else (match casual with [] => [ws] | _ :: rest => rest end, wager)).
Proof.
  intros casual wager. unfold handleFindGame.
  destruct (State.sockets st !! ws) as [s|]; [|by left].
  fold casual wager.
  case_bool_decide as Hc; [by left|]. case_bool_decide as Hw; [by left|].
  cbn [orb]. case_bool_decide; [by left|]. right. split_and!; [done..|].
  destruct wagerMode; cbn [State.waitingPlayersWager State.waitingPlayersCasual
    State.set_sockets]; fold casual wager.
  - destruct wager; [done|]. by rewrite queuesOf_startGame.
  - destruct casual; [done|]. by rewrite queuesOf_startGame.
Qed.

Lemma queues_of_state st :
  State.waitingPlayersCasual st = (queuesOf st).1 ∧
  State.waitingPlayersWager st = (queuesOf st).2.
Proof. done. Qed.

Lemma queues_ext st st' :
  queuesOf st' = queuesOf st →
  smallQueues st ∧ disjointQueues st → smallQueues st' ∧ disjointQueues st'.
Proof.
  unfold smallQueues, disjointQueues.
  rewrite !(proj1 (queues_of_state st')), !(proj2 (queues_of_state st')).
  intros ->. done.
Qed.

Lemma step_keeps_queues st e :
  smallQueues st ∧ disjointQueues st →
  smallQueues (step st e) ∧ disjointQueues (step st e).
Proof.
  intros Hinv. destruct e as [ws pid name|ws msg|ws|h|ms]; cbn [step].
  - by apply (queues_ext st).
  - pose proof (queuesOf_other_messages ws msg st) as Hother.
    destruct msg; try (by apply (queues_ext st)); cbn [handleMessage]; clear Hother.
    + pose proof (queuesOf_handleFindGame ws wagerMode generated board st) as Hq.
      cbv zeta in Hq. destruct Hq as [Hq|(Hc & Hw & Hq)]; [by apply (queues_ext st)|].
      destruct Hinv as [[Hlc Hlw] Hdis].
      unfold smallQueues, disjointQueues.
      rewrite !(proj1 (queues_of_state (handleFindGame _ _ _ _ _))),
        !(proj2 (queues_of_state (handleFindGame _ _ _ _ _))), Hq.
      destruct wagerMode; cbn [fst snd].
      * destruct (State.waitingPlayersWager st) as [|o [|]]; cbn [length] in *; try lia.
        -- split; [split; [done|cbn; lia]|]. intros x Hx. rewrite list_elem_of_singleton.
           intros ->. done.
        -- split; [split; [done|cbn; lia]|]. intros x _. apply not_elem_of_nil.
      * destruct (State.waitingPlayersCasual st) as [|o [|]]; cbn [length] in *; try lia.
        -- split; [split; [cbn; lia|done]|]. intros x. rewrite list_elem_of_singleton.
           intros ->. done.
        -- split; [split; [cbn; lia|done]|]. intros x Hx. by apply not_elem_of_nil in Hx.
    + destruct Hinv as [[Hlc Hlw] Hdis].
      pose proof (queuesOf_handleCancelSearch ws st) as Hq.
      unfold smallQueues, disjointQueues.
      rewrite !(proj1 (queues_of_state (handleCancelSearch _ _))),
        !(proj2 (queues_of_state (handleCancelSearch _ _))), Hq.
      pose proof (removeFirst_length ws (State.waitingPlayersCasual st)).
      pose proof (removeFirst_length ws (State.waitingPlayersWager st)).
      case_bool_decide; cbn [fst snd]; (split; [split; lia|]); intros x Hx.
      * apply removeFirst_subset in Hx. by apply Hdis.
      * intros Hx'. apply removeFirst_subset in Hx'. by apply (Hdis x).
  - destruct Hinv as [[Hlc Hlw] Hdis].
    pose proof (queuesOf_onClose ws st) as Hq.
    unfold smallQueues, disjointQueues.
    rewrite !(proj1 (queues_of_state (onClose _ _))),
      !(proj2 (queues_of_state (onClose _ _))), Hq. cbn [fst snd].
    pose proof (removeFirst_length ws (State.waitingPlayersCasual st)).
    pose proof (removeFirst_length ws (State.waitingPlayersWager st)).
    split; [split; lia|]. intros x Hx Hx'.
    apply removeFirst_subset in Hx, Hx'. by apply (Hdis x).
  - apply (queues_ext st); [|done]. apply queuesOf_fireTimer.
  - by apply (queues_ext st).
Qed.

Lemma run_keeps_queues es st :
  smallQueues st ∧ disjointQueues st →
  smallQueues (run st es) ∧ disjointQueues (run st es).
Proof.
  revert st. induction es as [|e es IH]; intros st Hinv; [done|]. cbn [run].
  destruct (crashes st e); [by apply step_keeps_queues|].
  apply (IH (step st e)), step_keeps_queues, Hinv.
Qed.

(** X5. Whatever the clients do, in whatever order sockets connect, send
    messages and close and timers fire, each of the two waiting queues holds
    at most one socket and no socket waits in both. *)
Theorem queues_hold_at_most_one (t0 : Z) (items : gmap string (gmap string Z))
    (es : list Event) :
  smallQueues (run (initial t0 items) es) ∧ disjointQueues (run (initial t0 items) es).
Proof.
  apply run_keeps_queues. split; [split; cbn; lia|].
  intros ws Hws. by apply not_elem_of_nil in Hws.
Qed.

(** X6. A socket that cancels its search is in no queue afterwards, the
    other waiting sockets stay where they are, it is told [search_cancelled]
    exactly when it was waiting, a socket that was not waiting changes
    nothing, and a second cancellation has no effect. *)
Theorem cancel_search_leaves_no_entry (ws : nat) (st : State.t)
    (Hcasual : NoDup (State.waitingPlayersCasual st))
    (Hwager : NoDup (State.waitingPlayersWager st))
    (Hdisjoint : disjointQueues st) :
  let st' := handleCancelSearch ws st in
  (ws ∉ State.waitingPlayersCasual st') ∧ (ws ∉ State.waitingPlayersWager st') ∧
  (∀ x, x ≠ ws →
     (x ∈ State.waitingPlayersCasual st' ↔ x ∈ State.waitingPlayersCasual st) ∧
     (x ∈ State.waitingPlayersWager st' ↔ x ∈ State.waitingPlayersWager st)) ∧
  (ws ∈ State.waitingPlayersCasual st ∨ ws ∈ State.waitingPlayersWager st →
     State.outbox st' = State.outbox st ++ [(ws, MSearchCancelled)]) ∧
  (ws ∉ State.waitingPlayersCasual st → ws ∉ State.waitingPlayersWager st → st' = st) ∧
  handleCancelSearch ws st' = st'.
Proof.
  intros st'.
  destruct (removeFirst_NoDup ws _ Hcasual) as [Hc1 Hc2].
  destruct (removeFirst_NoDup ws _ Hwager) as [Hw1 Hw2].
  assert (Hc' : (ws ∉ State.waitingPlayersCasual st') ∧ (ws ∉ State.waitingPlayersWager st')).
  { subst st'. unfold handleCancelSearch.
    case_bool_decide as Hc; [split; [done|by apply Hdisjoint]|].
    case_bool_decide as Hw; [split; [done|done]|done]. }
  destruct Hc' as [Hc' Hw']. split_and!; try done.
  - intros x Hx. subst st'. unfold handleCancelSearch.
    case_bool_decide; [split; [by apply removeFirst_other|done]|].
    case_bool_decide; [split; [done|by apply removeFirst_other]|done].
  - intros Hin. subst st'. unfold handleCancelSearch.
    case_bool_decide; [done|]. case_bool_decide; [done|]. by destruct Hin.
  - intros Hc Hw. subst st'. unfold handleCancelSearch.
    by rewrite !bool_decide_false.
  - unfold handleCancelSearch at 1. by rewrite !bool_decide_false.
Qed.

Lemma cancel_search_leaves_no_entry_witness :
  1%nat ∈ State.waitingPlayersCasual casualWaiting ∧
  (1%nat ∉ State.waitingPlayersCasual (handleCancelSearch 1 casualWaiting)) ∧
  handleCancelSearch 1 (handleCancelSearch 1 casualWaiting) = handleCancelSearch 1 casualWaiting.
Proof.
  assert (Hc : NoDup (State.waitingPlayersCasual casualWaiting))
    by (apply (bool_decide_unpack _); vm_compute; exact I).
  assert (Hw : NoDup (State.waitingPlayersWager casualWaiting))
    by (apply (bool_decide_unpack _); vm_compute; exact I).
  assert (Hd : disjointQueues casualWaiting).
  { intros x Hx. change (State.waitingPlayersWager casualWaiting) with (@nil nat).
    apply not_elem_of_nil. }
  pose proof (cancel_search_leaves_no_entry 1 casualWaiting Hc Hw Hd) as H.
  cbv zeta in H. split; [apply (bool_decide_unpack _); vm_compute; exact I|].
  split; [apply H|apply H].
Defined.

(** ** The wager and ready phases *)

Lemma handleUpdateWager_live (ws : nat) (gameId : Z) (wager : gmap string Z)
    (st : State.t) (g : nat) (game : Game.t) (pid : string) (i : nat) :
  getGame gameId st = Some (g, game) →
  playerIdOf ws st = Some pid →
  Game.status game = SWager →
  Game.findIndex pid game = Some i →
  let game1 := Game.set_player i (Player.set_wager wager (Game.player i game)) game in
  handleUpdateWager ws gameId wager st
  = State.mk (State.now st) (State.sockets st) (<[g := game1]> (State.games st))
      (State.nextGame st) (State.waitingPlayersCasual st) (State.waitingPlayersWager st)
      (State.activeGames st) (State.playerToGame st) (State.disconnectedPlayers st)
      (State.itemsData st) (State.timers st) (State.nextTimer st)
      (State.outbox st ++ delivered st (Game.player (1 - i) game) (MWagerUpdated wager)).
Proof.
  intros Hget Hpid Hstatus Hidx game1. unfold handleUpdateWager.
  rewrite Hget, Hpid, Hstatus, Hidx. cbn [negb bool_decide decide_rel].
  rewrite bool_decide_true by done. cbn [negb]. rewrite notify_eq. fold game1.
  assert (Hopp : Game.player (1 - i) game1 = Game.player (1 - i) game).
  { destruct (findIndex_cases _ _ _ Hidx) as [[-> _]|[-> _]]; reflexivity. }
  rewrite Hopp. reflexivity.
Qed.

(** X7. Proposing a stake moves no items: [update_wager] never changes the
    item store, the session store or the timers, whatever its arguments;
    in the wager phase it replaces the sender's stored stake (also after the
    sender confirmed another one), keeps the confirmation flags and the
    opponent's slot, and shows the proposal to a connected opponent; in any
    other phase it does nothing. *)
Theorem update_wager_moves_no_items (ws : nat) (gameId : Z) (wager : gmap string Z)
    (st : State.t) :
  let st' := handleUpdateWager ws gameId wager st in
  State.itemsData st' = State.itemsData st ∧
  State.activeGames st' = State.activeGames st ∧
  State.playerToGame st' = State.playerToGame st ∧
  State.timers st' = State.timers st ∧
  (∀ g game pid i,
     getGame gameId st = Some (g, game) →
     playerIdOf ws st = Some pid →
     Game.findIndex pid game = Some i →
     (Game.status game = SWager →
      (∃ game', State.games st' !! g = Some game' ∧
                Player.wager (Game.player i game') = wager ∧
                Player.wagerConfirmed (Game.player i game')
                = Player.wagerConfirmed (Game.player i game) ∧
                Game.player (1 - i) game' = Game.player (1 - i) game ∧
                Game.status game' = SWager) ∧
      State.outbox st'
      = State.outbox st ++ delivered st (Game.player (1 - i) game) (MWagerUpdated wager)) ∧
     (Game.status game ≠ SWager → st' = st)).
Proof.
  intros st'.
  assert (Hframe : State.itemsData st' = State.itemsData st ∧
                   State.activeGames st' = State.activeGames st ∧
                   State.playerToGame st' = State.playerToGame st ∧
                   State.timers st' = State.timers st).
  { subst st'. unfold handleUpdateWager.
    destruct (getGame gameId st) as [[g game]|]; [|done].
    destruct (playerIdOf ws st) as [pid|]; [|done].
    destruct (negb _); [done|]. destruct (Game.findIndex pid game); [|done].
    by rewrite notify_eq. }
  destruct Hframe as (? & ? & ? & ?). split_and!; try done.
  intros g game pid i Hget Hpid Hidx. split.
  - intros Hstatus. subst st'.
    rewrite (handleUpdateWager_live _ _ _ _ _ _ _ _ Hget Hpid Hstatus Hidx).
    cbn [State.games State.outbox]. split; [|done].
    eexists. split; [apply lookup_insert_eq|].
    destruct (findIndex_cases _ _ _ Hidx) as [[-> _]|[-> _]]; done.
  - intros Hstatus. subst st'. unfold handleUpdateWager.
    rewrite Hget, Hpid. by rewrite bool_decide_false.
Qed.

Lemma handlePlayerReady_live (ws : nat) (gameId : Z) (st : State.t)
    (g : nat) (game : Game.t) (pid : string) (i : nat) :
  getGame gameId st = Some (g, game) →
  playerIdOf ws st = Some pid →
  Game.status game = SReady →
  Game.findIndex pid game = Some i →
  let game1 := Game.set_player i (Player.set_ready true (Game.player i game)) game in
  let both := Player.ready (Game.player (1 - i) game) in
  handlePlayerReady ws gameId st
  = State.mk (State.now st) (State.sockets st)
      (<[g := if both then Game.set_status SCountdown game1 else game1]> (State.games st))
      (State.nextGame st) (State.waitingPlayersCasual st) (State.waitingPlayersWager st)
      (State.activeGames st) (State.playerToGame st) (State.disconnectedPlayers st)
      (State.itemsData st)
      (State.timers st
         ++ (if both then countdownTimers g (State.now st) (State.nextTimer st) else []))
      (if both then S (S (S (S (S (State.nextTimer st))))) else State.nextTimer st)
      (State.outbox st
         ++ delivered st (Game.player (1 - i) game) MOpponentReady
         ++ (if both
             then delivered st (Game.player0 game) (MBothReady 3)
                    ++ delivered st (Game.player1 game) (MBothReady 3)
             else [])).
Proof.
  intros Hget Hpid Hstatus Hidx game1 both. unfold handlePlayerReady.
  rewrite Hget, Hpid, Hstatus, Hidx. rewrite bool_decide_true by done. cbn [negb].
  fold game1.
  assert (Hopp : Game.player (1 - i) game1 = Game.player (1 - i) game).
  { destruct (findIndex_cases _ _ _ Hidx) as [[-> _]|[-> _]]; reflexivity. }
  assert (Hboth : Player.ready (Game.player0 game1) && Player.ready (Game.player1 game1) = both).
  { subst both. destruct (findIndex_cases _ _ _ Hidx) as [[-> _]|[-> _]];
      cbn; [done|by rewrite andb_true_r]. }
  rewrite Hboth, Hopp. rewrite notify_eq. destruct both.
  - erewrite startCountdownPhase_eq.
    2:{ unfold broadcastToGame. rewrite !notify_eq. cbn [State.games putGame State.set_games
          State.set_outbox]. apply lookup_insert_eq. }
    unfold broadcastToGame. rewrite !notify_eq.
    cbn [State.games State.outbox State.now State.sockets State.nextGame
         State.waitingPlayersCasual State.waitingPlayersWager State.activeGames
         State.playerToGame State.disconnectedPlayers State.itemsData State.timers
         State.nextTimer putGame State.set_games State.set_outbox].
    rewrite insert_insert_eq.
    rewrite !(delivered_ext st (State.set_outbox _ _)) by done.
    assert (Hd0 : ∀ m, delivered st (Game.player0 game1) m = delivered st (Game.player0 game) m).
    { intros m. destruct (findIndex_cases _ _ _ Hidx) as [[-> _]|[-> _]]; reflexivity. }
    assert (Hd1 : ∀ m, delivered st (Game.player1 game1) m = delivered st (Game.player1 game) m).
    { intros m. destruct (findIndex_cases _ _ _ Hidx) as [[-> _]|[-> _]]; reflexivity. }
    rewrite Hd0, Hd1. by rewrite <- !app_assoc.
  - cbn [State.games State.outbox State.now State.sockets State.nextGame
         State.waitingPlayersCasual State.waitingPlayersWager State.activeGames
         State.playerToGame State.disconnectedPlayers State.itemsData State.timers
         State.nextTimer putGame State.set_games State.set_outbox].
    by rewrite !app_nil_r.
Qed.

(** X8. In the ready phase [player_ready] marks the sender ready and tells
    a connected opponent; the countdown starts exactly when the opponent is
    ready too, with the announcement [both_ready] and the five timers of
    [startCountdownPhase]; one player alone, however often it repeats the
    message, starts nothing.  Outside the ready phase the message is
    ignored, and in no case does it move items. *)
Theorem both_ready_starts_countdown (ws : nat) (gameId : Z) (st : State.t)
    (g : nat) (game : Game.t) (pid : string) (i : nat) :
  getGame gameId st = Some (g, game) →
  playerIdOf ws st = Some pid →
  Game.findIndex pid game = Some i →
  let st' := handlePlayerReady ws gameId st in
  let opponent := Game.player (1 - i) game in
  State.itemsData st' = State.itemsData st ∧
  State.activeGames st' = State.activeGames st ∧
  (Game.status game ≠ SReady → st' = st) ∧
  (Game.status game = SReady → Player.ready opponent = false →
   (∃ game', State.games st' !! g = Some game' ∧
             Game.status game' = SReady ∧
             Player.ready (Game.player i game') = true ∧
             Game.player (1 - i) game' = opponent) ∧
   State.timers st' = State.timers st ∧
   State.outbox st' = State.outbox st ++ delivered st opponent MOpponentReady) ∧
  (Game.status game = SReady → Player.ready opponent = true →
   (∃ game', State.games st' !! g = Some game' ∧
             Game.status game' = SCountdown ∧
             Player.ready (Game.player i game') = true ∧
             Game.player (1 - i) game' = opponent) ∧
   State.timers st'
   = State.timers st ++ countdownTimers g (State.now st) (State.nextTimer st) ∧
   State.outbox st'
   = State.outbox st
     ++ delivered st opponent MOpponentReady
     ++ delivered st (Game.player0 game) (MBothReady 3)
     ++ delivered st (Game.player1 game) (MBothReady 3)).
Proof.
  intros Hget Hpid Hidx st' opponent.
  assert (Hskip : Game.status game ≠ SReady → st' = st).
  { intros Hstatus. subst st'. unfold handlePlayerReady.
    rewrite Hget, Hpid. by rewrite bool_decide_false. }
  destruct (decide (Game.status game = SReady)) as [Hstatus|Hstatus].
  2:{ rewrite (Hskip Hstatus). split_and!; done. }
  pose proof (handlePlayerReady_live _ _ _ _ _ _ _ Hget Hpid Hstatus Hidx) as Heq.
  cbv zeta in Heq. fold st' opponent in Heq. rewrite Heq.
  cbn [State.itemsData State.activeGames State.games State.timers State.outbox].
  split_and!; try done.
  - intros _ Hopp. rewrite Hopp, !app_nil_r. split_and!; try done.
    eexists. split; [apply lookup_insert_eq|]. subst opponent.
    destruct (findIndex_cases _ _ _ Hidx) as [[-> _]|[-> _]]; done.
  - intros _ Hopp. rewrite Hopp. split_and!; try done.
    eexists. split; [apply lookup_insert_eq|]. subst opponent.
    destruct (findIndex_cases _ _ _ Hidx) as [[-> _]|[-> _]]; done.
Qed.

Lemma both_ready_starts_countdown_witness :
  State.timers (handlePlayerReady 1 1000 wagerReady) = State.timers wagerReady ∧
  State.outbox (handlePlayerReady 1 1000 wagerReady)
  = State.outbox wagerReady ++ [(2%nat, MOpponentReady)].
Proof.
  assert (getGame 1000 wagerReady = Some (0%nat, gameOf 1000 wagerReady)) as Hget by computed.
  assert (playerIdOf 1 wagerReady = Some "p1"%string) as Hpid by computed.
  assert (Game.findIndex "p1" (gameOf 1000 wagerReady) = Some 1%nat) as Hidx by computed.
  assert (Game.status (gameOf 1000 wagerReady) = SReady) as Hstatus by computed.
  assert (Player.ready (Game.player (1 - 1) (gameOf 1000 wagerReady)) = false) as Hopp
    by computed.
  pose proof (both_ready_starts_countdown 1 1000 wagerReady _ _ _ _ Hget Hpid Hidx) as H.
  cbv zeta in H. apply proj2, proj2, proj2, proj1 in H.
  specialize (H Hstatus Hopp). apply proj2 in H. destruct H as [Ht Ho].
  split; [exact Ht|]. rewrite Ho. computed.
Defined.

(** ** The clock of a round *)

Lemma becomeActive_eq (g : nat) (st : State.t) (game0 : Game.t) :
  State.games st !! g = Some game0 →
  is_Some (State.activeGames st !! Game.id game0) →
  Game.status game0 = SCountdown →
  let game := Game.set_endTime (Some (State.now st + GAME_TIME * 1000))
                (Game.set_startTime (Some (State.now st)) (Game.set_status SActive game0)) in
  runCallback (BecomeActive g) st
  = State.mk (State.now st) (State.sockets st) (<[g := game]> (State.games st))
      (State.nextGame st) (State.waitingPlayersCasual st) (State.waitingPlayersWager st)
      (State.activeGames st) (State.playerToGame st) (State.disconnectedPlayers st)
      (State.itemsData st) (State.timers st) (State.nextTimer st)
      (State.outbox st
         ++ delivered st (Game.player0 game0) (MGameStart GAME_TIME)
         ++ delivered st (Game.player1 game0) (MGameStart GAME_TIME)).
Proof.
  intros Hobj Hact Hstatus game. unfold runCallback; cbn [callbackOutcome]. rewrite Hobj.
  unfold activeHas. rewrite bool_decide_true by done. rewrite bool_decide_true by done.
  cbn [andb]. fold game. unfold broadcastToGame. rewrite !notify_eq.
  cbn [State.games State.outbox State.now State.sockets State.nextGame
       State.waitingPlayersCasual State.waitingPlayersWager State.activeGames
       State.playerToGame State.disconnectedPlayers State.itemsData State.timers
       State.nextTimer putGame State.set_games State.set_outbox].
  rewrite !(delivered_ext st (State.set_outbox _ _)) by done.
  rewrite !(delivered_ext st (putGame _ _ _)) by done.
  by rewrite <- app_assoc.
Qed.

(** X9. When the countdown of a live session ends the round starts with a
    full clock: the status becomes [active], the end time is 180 seconds
    after the start, both connected players get [game_start] with that
    duration, and nothing else about the session changes.  The callback
    does nothing for a session that left the countdown phase or was torn
    down in the meantime. *)
Theorem round_starts_with_full_clock (g : nat) (st : State.t) (game : Game.t) :
  State.games st !! g = Some game →
  let st' := runCallback (BecomeActive g) st in
  (is_Some (State.activeGames st !! Game.id game) → Game.status game = SCountdown →
   (∃ game', State.games st' !! g = Some game' ∧
             Game.status game' = SActive ∧
             Game.startTime game' = Some (State.now st) ∧
             Game.endTime game' = Some (State.now st + 180000) ∧
             secondsLeft game' st' = 180 ∧
             Game.player0 game' = Game.player0 game ∧
             Game.player1 game' = Game.player1 game ∧
             Game.paused game' = Game.paused game) ∧
   State.outbox st'
   = State.outbox st
     ++ delivered st (Game.player0 game) (MGameStart 180)
     ++ delivered st (Game.player1 game) (MGameStart 180) ∧
   State.itemsData st' = State.itemsData st ∧
   State.activeGames st' = State.activeGames st ∧
   State.timers st' = State.timers st) ∧
  (State.activeGames st !! Game.id game = None ∨ Game.status game ≠ SCountdown → st' = st).
Proof.
  intros Hobj st'. split.
  - intros Hact Hstatus. subst st'. rewrite (becomeActive_eq _ _ _ Hobj Hact Hstatus).
    cbn [State.games State.outbox State.itemsData State.activeGames State.timers].
    split_and!; try done.
    eexists. split; [apply lookup_insert_eq|]. split_and!; try done.
    unfold secondsLeft. cbn [Game.endTime Game.set_endTime num default State.now].
    unfold id, GAME_TIME.
    replace (State.now st + 180 * 1000 - State.now st) with (180 * 1000) by lia.
    rewrite Z.div_mul by lia. lia.
  - intros Hgone. subst st'. unfold runCallback; cbn [callbackOutcome]. rewrite Hobj. unfold activeHas.
    destruct Hgone as [Hgone|Hstatus].
    + rewrite Hgone. rewrite bool_decide_false; [done|]. by intros [? ?].
    + rewrite (bool_decide_false (Game.status game = SCountdown)) by done.
      by rewrite andb_false_r.
Qed.

Lemma round_starts_with_full_clock_witness :
  ∃ game', State.games (runCallback (BecomeActive 0) casualMatched) !! 0%nat = Some game' ∧
           Game.status game' = SActive ∧
           Game.endTime game' = Some (State.now casualMatched + 180000).
Proof.
  assert (Hobj : State.games casualMatched !! 0%nat = Some (gameOf 1000 casualMatched))
    by computed.
  assert (Hact : is_Some (State.activeGames casualMatched !! Game.id (gameOf 1000 casualMatched)))
    by (exists 0%nat; computed).
  assert (Hstatus : Game.status (gameOf 1000 casualMatched) = SCountdown) by computed.
  pose proof (round_starts_with_full_clock 0 casualMatched _ Hobj) as H.
  cbv zeta in H. apply proj1 in H. specialize (H Hact Hstatus). apply proj1 in H.
  destruct H as (game' & Hg & Hs & _ & He & _). exists game'. by split_and!.
Defined.

(** The last event is served whether or not it ends the process; the clock
    moving on ends nothing. *)
Lemma run_last (st : State.t) (e : Event) : run st [e] = step st e.
Proof. cbn [run]. by destruct (crashes st e). Qed.

Lemma run_advance (st : State.t) (ms : Z) (es : list Event) :
  run st (Advance ms :: es) = run (step st (Advance ms)) es.
Proof. reflexivity. Qed.

Lemma find_app_skip {A} (f : A → bool) (l1 l2 : list A) :
  Forall (fun x => f x = false) l1 → find f (l1 ++ l2) = find f l2.
Proof.
  induction 1 as [|x l1 Hx Hl IH]; [done|]. cbn [app find]. by rewrite Hx.
Qed.

(** X10. A round that starts on time is cut off fifteen seconds after its
    clock ran out: when the countdown is entered at time [t] and the start
    timer fires three seconds later, the round is active with a clock of 180
    seconds, its end time is [t + 183000], and the pending automatic end of
    the session is due exactly 15000 ms after that end time. *)
Theorem forced_end_follows_clock (g : nat) (st : State.t) (game : Game.t) :
  State.games st !! g = Some game →
  is_Some (State.activeGames st !! Game.id game) →
  Forall (fun t => (Timer.handle t < State.nextTimer st)%nat) (State.timers st) →
  let st' := run (startCountdownPhase g st) [Advance 3000; Fire (3 + State.nextTimer st)] in
  ∃ game' autoEnd,
    State.games st' !! g = Some game' ∧
    Game.status game' = SActive ∧
    Game.endTime game' = Some (State.now st + 183000) ∧
    secondsLeft game' st' = GAME_TIME ∧
    autoEnd ∈ State.timers st' ∧
    Timer.callback autoEnd = AutoEnd g ∧
    Some (Timer.due autoEnd) = (fun e => e + 15000) <$> Game.endTime game'.
Proof.
  intros Hobj Hact Hfresh st'. subst st'.
  rewrite (startCountdownPhase_eq _ _ _ Hobj). rewrite run_advance, run_last. cbn [step].
  set (n := State.nextTimer st).
  unfold fireTimer, fireOutcome.
  cbn [State.timers State.set_now State.now State.sockets State.games State.nextGame
       State.waitingPlayersCasual State.waitingPlayersWager State.activeGames
       State.playerToGame State.disconnectedPlayers State.itemsData State.nextTimer
       State.outbox].
  rewrite find_app_skip.
  2:{ eapply Forall_impl; [exact Hfresh|]. intros t Ht. cbn beta in *.
      apply bool_decide_false. fold n in Ht. lia. }
  unfold countdownTimers. cbn [find Timer.handle].
  rewrite !bool_decide_false by lia. rewrite bool_decide_true by lia.
  cbn [Timer.callback].
  set (st2 := clearTimeout _ _).
  assert (Hobj2 : State.games st2 !! g = Some (Game.set_status SCountdown game))
    by apply lookup_insert_eq.
  change (stateOf (callbackOutcome (BecomeActive g) st2))
    with (runCallback (BecomeActive g) st2).
  rewrite (becomeActive_eq g st2 _ Hobj2 Hact eq_refl).
  clear Hobj2. subst st2.
  cbn [State.games State.timers State.now clearTimeout State.set_timers State.set_now].
  eexists. exists (Timer.mk (S (S (S (S n)))) (State.now st + 198000) (AutoEnd g)).
  split; [apply lookup_insert_eq|]. split_and!.
  - done.
  - cbn [Game.endTime Game.set_endTime]. f_equal. unfold GAME_TIME. lia.
  - unfold secondsLeft, GAME_TIME.
    cbn [Game.endTime Game.set_endTime num default State.now]. unfold id.
    replace (State.now st + 3000 + 180 * 1000 - (State.now st + 3000)) with (180 * 1000) by lia.
    rewrite Z.div_mul by lia. lia.
  - apply list_elem_of_filter. split; [cbn [Timer.handle]; lia|].
    apply elem_of_app. right. rewrite !elem_of_cons. do 4 right. left.
    f_equal.
  - done.
  - cbn [Timer.due Game.endTime Game.set_endTime fmap option_fmap option_map].
    f_equal. unfold GAME_TIME. lia.
Qed.

Lemma forced_end_follows_clock_witness :
  ∃ game' autoEnd,
    State.games (run (startCountdownPhase 0 wagerReady) [Advance 3000; Fire 3]) !! 0%nat
    = Some game' ∧
    Game.endTime game' = Some 184000 ∧
    autoEnd ∈ State.timers (run (startCountdownPhase 0 wagerReady) [Advance 3000; Fire 3]) ∧
    Timer.due autoEnd = 199000.
Proof.
  assert (Hobj : State.games wagerReady !! 0%nat = Some (gameOf 1000 wagerReady)) by computed.
  assert (Hact : is_Some (State.activeGames wagerReady !! Game.id (gameOf 1000 wagerReady)))
    by (exists 0%nat; computed).
  assert (Hfresh : Forall (fun t => (Timer.handle t < State.nextTimer wagerReady)%nat)
                     (State.timers wagerReady)) by constructor.
  pose proof (forced_end_follows_clock 0 wagerReady _ Hobj Hact Hfresh) as H.
  cbv zeta in H. destruct H as (game' & autoEnd & Hg & _ & He & _ & Hin & _ & Hdue).
  exists game', autoEnd. split_and!; [exact Hg|exact He|exact Hin|].
  rewrite He in Hdue. by injection Hdue.
Defined.

(** ** After the end of a session *)



(** X12. A grace timer that outlives its session settles nothing: when
    it fires for a session that is no longer in the session store, the item
    store, the game objects, the routing of players and the timers stay as
    they are; all it does is forget the disconnect record of its socket's
    player and send [opponent_left] to the other slot of the game object, if
    that player is connected. *)
Theorem late_grace_timer_settles_nothing (ws g i : nat) (gameId : Z) (st : State.t) :
  State.activeGames st !! gameId = None →
  let st' := runCallback (GraceExpired ws g i gameId) st in
  State.itemsData st' = State.itemsData st ∧
  State.games st' = State.games st ∧
  State.activeGames st' = State.activeGames st ∧
  State.playerToGame st' = State.playerToGame st ∧
  State.timers st' = State.timers st ∧
  State.disconnectedPlayers st'
  = match State.sockets st !! ws with
    | Some s => delete (Sock.playerId s) (State.disconnectedPlayers st)
    | None => State.disconnectedPlayers st
    end ∧
  State.outbox st'
  = State.outbox st
    ++ match State.games st !! g with
       | Some game => delivered st (Game.player (1 - i) game)
                        (MOpponentLeft "Opponent did not reconnect")
       | None => []
       end.
Proof.
  intros Hgone st'. subst st'. unfold runCallback; cbn [callbackOutcome].
  assert (Hfin : ∀ st0, State.activeGames st0 = State.activeGames st →
                        stateOf (finishGameOutcome gameId st0) = st0).
  { intros st0 Hsame. apply (gone_is_inert gameId st0). by rewrite Hsame. }
  destruct (State.sockets st !! ws) as [s|];
    cbn [State.games State.set_disconnectedPlayers];
    destruct (State.games st !! g) as [game|]; rewrite ?notify_eq, ?app_nil_r;
    rewrite Hfin by done; split_and!; done.
Qed.

Lemma late_grace_timer_settles_nothing_witness :
  State.itemsData (runCallback (GraceExpired 1 0 1 1000) (finishGame 1000 casualActive))
  = State.itemsData (finishGame 1000 casualActive) ∧
  State.outbox (runCallback (GraceExpired 1 0 1 1000) (finishGame 1000 casualActive))
  = State.outbox (finishGame 1000 casualActive)
    ++ [(2%nat, MOpponentLeft "Opponent did not reconnect")].
Proof.
  assert (Hgone : State.activeGames (finishGame 1000 casualActive) !! 1000 = None)
    by computed.
  pose proof (late_grace_timer_settles_nothing 1 0 1 1000 _ Hgone) as H.
  cbv zeta in H. destruct H as (Hi & _ & _ & _ & _ & _ & Ho).
  split; [exact Hi|]. rewrite Ho. computed.
Defined.

(** ** Pause and reconnect *)

Lemma resumeGame_eq (g : nat) (st : State.t) (game : Game.t) :
  State.games st !! g = Some game →
  Game.paused game = true →
  resumeGame g st
  = State.mk (State.now st) (State.sockets st) (State.games st)
      (State.nextGame st) (State.waitingPlayersCasual st) (State.waitingPlayersWager st)
      (State.activeGames st) (State.playerToGame st) (State.disconnectedPlayers st)
      (State.itemsData st)
      (State.timers st
         ++ resumeTimers g (State.now st) (State.nextTimer st) (Game.pausedTimeRemaining game))
      (S (S (S (S (State.nextTimer st)))))
      ((State.outbox st
          ++ delivered st (Game.player0 game) (MGameResuming 3 (Game.pausedTimeRemaining game)))
         ++ delivered st (Game.player1 game) (MGameResuming 3 (Game.pausedTimeRemaining game))).
Proof.
  intros Hobj Hp. unfold resumeGame. rewrite Hobj, Hp. cbn [negb foldl].
  unfold broadcastToGame. rewrite !notify_eq. unfold setTimeout, resumeTimers.
  cbn [State.games State.outbox State.now State.sockets State.nextGame
       State.waitingPlayersCasual State.waitingPlayersWager State.activeGames
       State.playerToGame State.disconnectedPlayers State.itemsData State.timers
       State.nextTimer State.set_timers State.set_nextTimer State.set_outbox].
  rewrite !(delivered_ext st (State.set_outbox _ _)) by done.
  rewrite <- !app_assoc. reflexivity.
Qed.

(** [handleDisconnect] for a session that is already paused. *)
Lemma handleDisconnect_paused (ws : nat) (st : State.t) (pid : string) (gameId : Z)
    (g : nat) (game : Game.t) (i : nat) :
  playerIdOf ws st = Some pid →
  State.playerToGame st !! pid = Some gameId →
  getGame gameId st = Some (g, game) →
  Game.status game ≠ SFinished →
  Game.findIndex pid game = Some i →
  Game.paused game = true →
  let player := Player.set_connected false (Game.player i game) in
  handleDisconnect ws st
  = State.mk (State.now st) (State.sockets st)
      (<[g := Game.set_player i player game]> (State.games st))
      (State.nextGame st)
      (removeFirst ws (State.waitingPlayersCasual st))
      (removeFirst ws (State.waitingPlayersWager st))
      (State.activeGames st) (State.playerToGame st)
      (<[pid := Disc.mk gameId i (Player.name player) (default [] (Player.words player))
                  (State.nextTimer st)]> (State.disconnectedPlayers st))
      (State.itemsData st)
      (State.timers st
         ++ [Timer.mk (State.nextTimer st) (State.now st + RECONNECT_GRACE_PERIOD)
               (GraceExpired ws g i gameId)])
      (S (State.nextTimer st))
      (State.outbox st
         ++ delivered st (Game.player (1 - i) game)
              (MOpponentDisconnected true (RECONNECT_GRACE_PERIOD / 1000))).
Proof.
  intros Hpid Hroute Hget Hlive Hidx Hp player. unfold handleDisconnect.
  assert (∀ x, playerIdOf ws (State.set_waitingPlayersWager x
                 (State.set_waitingPlayersCasual (removeFirst ws (State.waitingPlayersCasual st)) st))
               = playerIdOf ws st) as -> by done.
  rewrite Hpid. cbn [State.playerToGame State.set_waitingPlayersWager
                     State.set_waitingPlayersCasual]. rewrite Hroute.
  assert (∀ x y, getGame gameId (State.set_waitingPlayersWager x
                   (State.set_waitingPlayersCasual y st)) = getGame gameId st) as -> by done.
  rewrite Hget, bool_decide_eq_false_2, Hidx by done.
  fold player. rewrite notify_eq.
  assert (Game.paused (Game.set_player i player game) = true) as Hsame.
  { apply findIndex_cases in Hidx as [[-> _]|[-> _]]; done. }
  assert (Game.player (1 - i) (Game.set_player i player game) = Game.player (1 - i) game)
    as Hopp.
  { apply findIndex_cases in Hidx as [[-> _]|[-> _]]; done. }
  erewrite pauseGame_paused; [|cbn; apply lookup_insert_eq|done].
  rewrite Hopp. unfold setTimeout, putGame.
  cbn [State.games State.outbox State.now State.sockets State.nextGame
       State.waitingPlayersCasual State.waitingPlayersWager State.activeGames
       State.playerToGame State.disconnectedPlayers State.itemsData State.timers
       State.nextTimer State.set_timers State.set_nextTimer State.set_outbox
       State.set_games State.set_disconnectedPlayers].
  rewrite (delivered_ext st) by done. reflexivity.
Qed.

(** X13. A disconnect in a session that is already paused (the other
    player dropped first, or a resume countdown is running) keeps the
    snapshot of the clock: in the game object only the sender's [connected]
    flag changes, nobody is told [game_paused] a second time, a grace timer of
    30 seconds is added for the sender, and its words so far are put into its
    disconnect record. *)
Theorem second_disconnect_keeps_snapshot (ws : nat) (st : State.t) (pid : string)
    (gameId : Z) (g : nat) (game : Game.t) (i : nat) :
  playerIdOf ws st = Some pid →
  State.playerToGame st !! pid = Some gameId →
  getGame gameId st = Some (g, game) →
  Game.status game ≠ SFinished →
  Game.findIndex pid game = Some i →
  Game.paused game = true →
  let st' := handleDisconnect ws st in
  (∃ game', State.games st' !! g = Some game' ∧
            game' = Game.set_player i (Player.set_connected false (Game.player i game)) game ∧
            Game.paused game' = true ∧
            Game.pausedTimeRemaining game' = Game.pausedTimeRemaining game ∧
            Game.pausedAt game' = Game.pausedAt game ∧
            Game.endTime game' = Game.endTime game ∧
            Game.player (1 - i) game' = Game.player (1 - i) game) ∧
  State.outbox st'
  = State.outbox st
    ++ delivered st (Game.player (1 - i) game) (MOpponentDisconnected true 30) ∧
  State.timers st'
  = State.timers st
    ++ [Timer.mk (State.nextTimer st) (State.now st + 30000) (GraceExpired ws g i gameId)] ∧
  (∃ d, State.disconnectedPlayers st' !! pid = Some d ∧
        Disc.words d = default [] (Player.words (Game.player i game)) ∧
        Disc.timeout d = State.nextTimer st) ∧
  State.itemsData st' = State.itemsData st.
Proof.
  intros Hpid Hroute Hget Hlive Hidx Hp st'. subst st'.
  rewrite (handleDisconnect_paused _ _ _ _ _ _ _ Hpid Hroute Hget Hlive Hidx Hp).
  cbn [State.games State.outbox State.timers State.disconnectedPlayers State.itemsData].
  split_and!; try done.
  - eexists. split; [apply lookup_insert_eq|].
    apply findIndex_cases in Hidx as [[-> _]|[-> _]]; split_and!; done.
  - eexists. split; [apply lookup_insert_eq|].
    apply findIndex_cases in Hidx as [[-> _]|[-> _]]; split_and!; done.
Qed.

Lemma second_disconnect_keeps_snapshot_witness :
  Game.pausedTimeRemaining (gameOf 1000 casualDropped) = Some 170 ∧
  ∃ game', State.games (handleDisconnect 2 casualDropped) !! 0%nat = Some game' ∧
           Game.pausedTimeRemaining game' = Game.pausedTimeRemaining (gameOf 1000 casualDropped).
Proof.
  assert (Hpid : playerIdOf 2 casualDropped = Some "p2"%string) by computed.
  assert (Hroute : State.playerToGame casualDropped !! "p2"%string = Some 1000) by computed.
  assert (Hget : getGame 1000 casualDropped = Some (0%nat, gameOf 1000 casualDropped))
    by computed.
  assert (Hlive : Game.status (gameOf 1000 casualDropped) ≠ SFinished)
    by (apply (bool_decide_unpack _); vm_compute; exact I).
  assert (Hidx : Game.findIndex "p2" (gameOf 1000 casualDropped) = Some 0%nat) by computed.
  assert (Hp : Game.paused (gameOf 1000 casualDropped) = true) by computed.
  pose proof (second_disconnect_keeps_snapshot 2 casualDropped _ _ _ _ _
                Hpid Hroute Hget Hlive Hidx Hp) as H.
  cbv zeta in H. apply proj1 in H. destruct H as (game' & Hg & _ & _ & Hr & _).
  split; [computed|]. exists game'. by split.
Defined.

(** [handleReconnect] for a paused session, field by field. *)
Lemma handleReconnect_paused (ws : nat) (gameId : Z) (oldPlayerId : string)
    (st : State.t) (g : nat) (game : Game.t) (i : nat) :
  getGame gameId st = Some (g, game) →
  Game.findIndex oldPlayerId game = Some i →
  Game.paused game = true →
  let st' := handleReconnect ws gameId oldPlayerId st in
  let opponent := Game.player (1 - i) game in
  let player := Player.set_connected true (Player.set_ws ws (Game.player i game)) in
  let kept := match State.disconnectedPlayers st !! oldPlayerId with
              | Some d => filter (fun t => Timer.handle t ≠ Disc.timeout d) (State.timers st)
              | None => State.timers st
              end in
  State.games st' = <[g := Game.set_player i player game]> (State.games st) ∧
  State.timers st'
  = kept ++ (if Player.connected opponent
             then resumeTimers g (State.now st) (State.nextTimer st)
                    (Game.pausedTimeRemaining game)
             else []) ∧
  State.disconnectedPlayers st' = delete oldPlayerId (State.disconnectedPlayers st) ∧
  State.playerToGame st' = <[oldPlayerId := gameId]> (State.playerToGame st) ∧
  State.activeGames st' = State.activeGames st ∧
  State.itemsData st' = State.itemsData st ∧
  State.now st' = State.now st ∧
  (Player.connected opponent = false →
   State.outbox st'
   = State.outbox st
     ++ [(ws, MReconnectSuccess gameId (Game.board game)
                (match Game.pausedTimeRemaining game with
                 | Some r => r
                 | None => secondsLeft game st
                 end)
                (Player.name opponent) true
                (default [] (Disc.words <$> State.disconnectedPlayers st !! oldPlayerId)));
         (ws, MGamePaused "Opponent disconnected" None)]).
Proof.
  intros Hget Hidx Hp st' opponent player kept. subst st'.
  unfold handleReconnect. rewrite Hget, Hidx.
  fold opponent player.
  set (game1 := Game.set_player i player game).
  assert (Game.paused game1 = true ∧
          Game.pausedTimeRemaining game1 = Game.pausedTimeRemaining game ∧
          Game.board game1 = Game.board game ∧ Game.endTime game1 = Game.endTime game)
    as (Hp1 & Hr1 & Hb1 & He1).
  { subst game1. apply findIndex_cases in Hidx as [[-> _]|[-> _]]; done. }
  rewrite Hp1, Hr1, Hb1. cbn [andb]. rewrite notify_eq.
  set (st1 := match State.disconnectedPlayers st !! oldPlayerId with
              | Some d => _
              | None => st
              end).
  assert (Hst1 : st1 = State.set_disconnectedPlayers
                         (delete oldPlayerId (State.disconnectedPlayers st))
                         (State.set_timers kept st)).
  { subst st1 kept. destruct (State.disconnectedPlayers st !! oldPlayerId) as [d|] eqn:Hd.
    - reflexivity.
    - rewrite delete_id by done. by destruct st. }
  rewrite Hst1. clear Hst1 st1.
  destruct (Player.connected opponent) eqn:Hopp; cbn [negb].
  - erewrite resumeGame_eq; [|cbn; apply lookup_insert_eq|exact Hp1].
    rewrite Hr1.
    cbn [State.games State.outbox State.now State.sockets State.nextGame
         State.waitingPlayersCasual State.waitingPlayersWager State.activeGames
         State.playerToGame State.disconnectedPlayers State.itemsData State.timers
         State.nextTimer State.set_timers State.set_nextTimer State.set_outbox
         State.set_games State.set_disconnectedPlayers State.set_sockets
         State.set_playerToGame putGame send].
    split_and!; done.
  - cbn [State.games State.outbox State.now State.sockets State.nextGame
         State.waitingPlayersCasual State.waitingPlayersWager State.activeGames
         State.playerToGame State.disconnectedPlayers State.itemsData State.timers
         State.nextTimer State.set_timers State.set_nextTimer State.set_outbox
         State.set_games State.set_disconnectedPlayers State.set_sockets
         State.set_playerToGame putGame send].
    rewrite app_nil_r. split_and!; try done.
    intros _. unfold delivered. rewrite Hopp. cbn [andb]. rewrite app_nil_r.
    rewrite <- app_assoc. cbn [app]. do 4 f_equal.
    destruct (Game.pausedTimeRemaining game); [done|].
    unfold secondsLeft. by rewrite He1.
Qed.



(** X15. A player who comes back while the opponent is still away has to
    wait: the reconnect succeeds and reports the stored snapshot, the
    session stays paused with that snapshot, the player is told
    [game_paused] with the reason [Opponent disconnected], its grace timer is
    cancelled and its disconnect record removed, and no resumption is
    scheduled. *)
Theorem reconnect_waits_for_opponent (ws : nat) (gameId : Z) (pid : string)
    (st : State.t) (g : nat) (game : Game.t) (i : nat) :
  getGame gameId st = Some (g, game) →
  Game.findIndex pid game = Some i →
  Game.paused game = true →
  Player.connected (Game.player (1 - i) game) = false →
  let st' := handleReconnect ws gameId pid st in
  (∃ game', State.games st' !! g = Some game' ∧
            Game.paused game' = true ∧
            Game.pausedTimeRemaining game' = Game.pausedTimeRemaining game ∧
            Player.connected (Game.player i game') = true ∧
            Player.ws (Game.player i game') = ws ∧
            Game.player (1 - i) game' = Game.player (1 - i) game) ∧
  (∀ t, t ∈ State.timers st' ↔
        t ∈ State.timers st ∧
        ∀ d, State.disconnectedPlayers st !! pid = Some d → Timer.handle t ≠ Disc.timeout d) ∧
  State.outbox st'
  = State.outbox st
    ++ [(ws, MReconnectSuccess gameId (Game.board game)
               (match Game.pausedTimeRemaining game with
                | Some r => r
                | None => secondsLeft game st
                end)
               (Player.name (Game.player (1 - i) game)) true
               (default [] (Disc.words <$> State.disconnectedPlayers st !! pid)));
        (ws, MGamePaused "Opponent disconnected" None)] ∧
  State.playerToGame st' !! pid = Some gameId ∧
  State.disconnectedPlayers st' !! pid = None ∧
  State.itemsData st' = State.itemsData st.
Proof.
  intros Hget Hidx Hp Hopp st'.
  destruct (handleReconnect_paused ws gameId pid st g game i Hget Hidx Hp)
    as (Hgames & Htimers & Hdisc & Hroute & _ & Hitems & _ & Hout).
  fold st' in Hgames, Htimers, Hdisc, Hroute, Hitems, Hout.
  rewrite Hopp, app_nil_r in Htimers. split_and!.
  - eexists. rewrite Hgames. split; [apply lookup_insert_eq|].
    clear - Hidx Hp. apply findIndex_cases in Hidx as [[-> _]|[-> _]]; done.
  - intros t. rewrite Htimers.
    destruct (State.disconnectedPlayers st !! pid) as [d|].
    + rewrite list_elem_of_filter. split.
      * intros [Hne Hin]. split; [done|]. by intros d' [= <-].
      * intros [Hin Hne]. split; [by apply Hne|done].
    + split; [by intros Hin; split|by intros [Hin _]].
  - by apply Hout.
  - rewrite Hroute. apply lookup_insert_eq.
  - rewrite Hdisc. apply lookup_delete_eq.
  - exact Hitems.
Qed.

Lemma reconnect_waits_for_opponent_witness :
  State.outbox (handleReconnect 3 1000 "p1" (handleDisconnect 2 casualDropped))
  = State.outbox (handleDisconnect 2 casualDropped)
    ++ [(3%nat, MReconnectSuccess 1000 [] 170 "bob" true []);
        (3%nat, MGamePaused "Opponent disconnected" None)].
Proof.
  set (st := handleDisconnect 2 casualDropped).
  assert (Hget : getGame 1000 st = Some (0%nat, gameOf 1000 st)) by computed.
  assert (Hidx : Game.findIndex "p1" (gameOf 1000 st) = Some 1%nat) by computed.
  assert (Hp : Game.paused (gameOf 1000 st) = true) by computed.
  assert (Hopp : Player.connected (Game.player (1 - 1) (gameOf 1000 st)) = false) by computed.
  pose proof (reconnect_waits_for_opponent 3 1000 "p1" st _ _ _ Hget Hidx Hp Hopp) as H.
  cbv zeta in H. apply proj2, proj2, proj1 in H. rewrite H. computed.
Defined.

(** ** A wager match from the stakes to the settlement *)

(** X16. Stakes are zero-sum.  Both players of a session in the wager
    phase confirm a stake they hold, and the session is then settled by
    [finishGame]: for every item kind the two players together hold what
    they held before the confirmations; the strictly higher scorer has
    gained exactly the other player's stake, which the other player has
    lost, and on equal totals both hold what they held before. *)
Theorem stakes_are_zero_sum (ws0 ws1 : nat) (gameId : Z) (w0 w1 : gmap string Z)
    (st : State.t) (g : nat) (game : Game.t) :
  let p0 := Game.player0 game in
  let p1 := Game.player1 game in
  let n0 := Player.name p0 in
  let n1 := Player.name p1 in
  let h := holdings (State.itemsData st) in
  getGame gameId st = Some (g, game) →
  Game.status game = SWager →
  playerIdOf ws0 st = Some (Player.id p0) →
  playerIdOf ws1 st = Some (Player.id p1) →
  Player.id p0 ≠ Player.id p1 →
  Player.wagerConfirmed p1 = false →
  n0 ≠ n1 →
  is_Some (State.itemsData st !! n0) →
  is_Some (State.itemsData st !! n1) →
  Forall (fun item => 0 ≤ getc w0 item ≤ h n0 item ∧ 0 ≤ getc w1 item ≤ h n1 item)
    ITEM_ORDER →
  let st' := finishGame gameId
               (handleConfirmWager ws1 gameId w1 (handleConfirmWager ws0 gameId w0 st)) in
  let h' := holdings (State.itemsData st') in
  let s0 := Results.score (p1ResultsOf game) in
  let s1 := Results.score (p2ResultsOf game) in
  State.activeGames st' !! gameId = None ∧
  ∀ item, item ∈ ITEM_ORDER →
    h' n0 item + h' n1 item = h n0 item + h n1 item ∧
    (s1 < s0 → h' n0 item = h n0 item + getc w1 item ∧
               h' n1 item = h n1 item - getc w1 item) ∧
    (s0 < s1 → h' n0 item = h n0 item - getc w0 item ∧
               h' n1 item = h n1 item + getc w0 item) ∧
    (s0 = s1 → h' n0 item = h n0 item ∧ h' n1 item = h n1 item).
Proof.
  intros p0 p1 n0 n1 h Hget Hstatus Hpid0 Hpid1 Hids Hconf1 Hne Hr0 Hr1 Hsuff.
  exact (stakes_settled ws0 ws1 gameId w0 w1 st g game Hget Hstatus Hpid0 Hpid1 Hids Hconf1
           Hne Hr0 Hr1 Hsuff).
Qed.

Lemma stakes_are_zero_sum_witness :
  holdings (State.itemsData
              (finishGame 1000
                 (handleConfirmWager 1 1000 (gold 1)
                    (handleConfirmWager 2 1000 (gold 2) wagerMatched)))) "bob" "gold_coin"
  + holdings (State.itemsData
                (finishGame 1000
                   (handleConfirmWager 1 1000 (gold 1)
                      (handleConfirmWager 2 1000 (gold 2) wagerMatched)))) "ann" "gold_coin"
  = 4 + 1.
Proof.
  assert (Hget : getGame 1000 wagerMatched = Some (0%nat, gameOf 1000 wagerMatched))
    by computed.
  assert (Hstatus : Game.status (gameOf 1000 wagerMatched) = SWager) by computed.
  assert (Hpid0 : playerIdOf 2 wagerMatched
                  = Some (Player.id (Game.player0 (gameOf 1000 wagerMatched)))) by computed.
  assert (Hpid1 : playerIdOf 1 wagerMatched
                  = Some (Player.id (Game.player1 (gameOf 1000 wagerMatched)))) by computed.
  assert (Hids : Player.id (Game.player0 (gameOf 1000 wagerMatched))
                 ≠ Player.id (Game.player1 (gameOf 1000 wagerMatched)))
    by (apply (bool_decide_unpack _); vm_compute; exact I).
  assert (Hconf : Player.wagerConfirmed (Game.player1 (gameOf 1000 wagerMatched)) = false)
    by computed.
  assert (Hne : Player.name (Game.player0 (gameOf 1000 wagerMatched))
                ≠ Player.name (Game.player1 (gameOf 1000 wagerMatched)))
    by (apply (bool_decide_unpack _); vm_compute; exact I).
  assert (Hr0 : is_Some (State.itemsData wagerMatched
                           !! Player.name (Game.player0 (gameOf 1000 wagerMatched))))
    by (exists (gold 4); computed).
  assert (Hr1 : is_Some (State.itemsData wagerMatched
                           !! Player.name (Game.player1 (gameOf 1000 wagerMatched))))
    by (exists (gold 1); computed).
  assert (Hsuff : Forall (fun item =>
                    0 ≤ getc (gold 2) item
                      ≤ holdings (State.itemsData wagerMatched)
                          (Player.name (Game.player0 (gameOf 1000 wagerMatched))) item ∧
                    0 ≤ getc (gold 1) item
                      ≤ holdings (State.itemsData wagerMatched)
                          (Player.name (Game.player1 (gameOf 1000 wagerMatched))) item)
                    ITEM_ORDER)
    by (apply (bool_decide_unpack _); vm_compute; exact I).
  pose proof (stakes_are_zero_sum 2 1 1000 (gold 2) (gold 1) wagerMatched _ _
                Hget Hstatus Hpid0 Hpid1 Hids Hconf Hne Hr0 Hr1 Hsuff) as H.
  cbv zeta in H. apply proj2 in H.
  assert (Hitem : "gold_coin"%string ∈ ITEM_ORDER)
    by (apply (bool_decide_unpack _); vm_compute; exact I).
  apply (proj1 (H _ Hitem)).
Defined.

(** ** Closing a socket *)

Lemma sockets_pauseGame g name st : State.sockets (pauseGame g name st) = State.sockets st.
Proof.
  unfold pauseGame. destruct (State.games st !! g) as [game|]; [|done].
  destruct (Game.paused game); [done|].
  unfold broadcastToGame. rewrite !notify_eq.
  cbn [State.sockets State.set_outbox putGame State.set_games]. reflexivity.
Qed.

Lemma sockets_handleDisconnect ws st :
  State.sockets (handleDisconnect ws st) = State.sockets st.
Proof.
  unfold handleDisconnect.
  set (st0 := State.set_waitingPlayersWager _ _).
  assert (Hs : State.sockets st0 = State.sockets st) by reflexivity.
  clearbody st0.
  destruct (playerIdOf ws st0) as [pid|]; [|done].
  destruct (State.playerToGame st0 !! pid) as [gameId|]; [|done].
  destruct (getGame gameId st0) as [[g game]|]; [|done].
  destruct (bool_decide (Game.status game = SFinished)); [done|].
  destruct (Game.findIndex pid game) as [i|]; [|done].
  rewrite notify_eq. cbn [State.sockets State.set_outbox]. rewrite sockets_pauseGame.
  exact Hs.
Qed.

(** X17. When a socket closes it is no longer open, it waits in no queue,
    so that no later [find_game] can be paired with it, and the other
    waiting sockets keep their places; if its player is in no session, the
    sessions, the timers, the item store and the outbox are untouched. *)
Theorem closed_socket_leaves_the_queues (ws : nat) (st : State.t) :
  NoDup (State.waitingPlayersCasual st) →
  NoDup (State.waitingPlayersWager st) →
  let st' := onClose ws st in
  sockOpen st' ws = false ∧
  (ws ∉ State.waitingPlayersCasual st') ∧
  (ws ∉ State.waitingPlayersWager st') ∧
  (∀ x, x ≠ ws →
     (x ∈ State.waitingPlayersCasual st' ↔ x ∈ State.waitingPlayersCasual st) ∧
     (x ∈ State.waitingPlayersWager st' ↔ x ∈ State.waitingPlayersWager st)) ∧
  ((∀ pid, playerIdOf ws st = Some pid → State.playerToGame st !! pid = None) →
   State.games st' = State.games st ∧
   State.activeGames st' = State.activeGames st ∧
   State.playerToGame st' = State.playerToGame st ∧
   State.disconnectedPlayers st' = State.disconnectedPlayers st ∧
   State.timers st' = State.timers st ∧
   State.itemsData st' = State.itemsData st ∧
   State.outbox st' = State.outbox st).
Proof.
  intros Hcasual Hwager st'.
  pose proof (queuesOf_onClose ws st) as Hq. fold st' in Hq.
  assert (Hc : State.waitingPlayersCasual st' = removeFirst ws (State.waitingPlayersCasual st))
    by (by injection Hq).
  assert (Hw : State.waitingPlayersWager st' = removeFirst ws (State.waitingPlayersWager st))
    by (by injection Hq).
  rewrite Hc, Hw. split_and!.
  - subst st'. unfold onClose, sockOpen. rewrite sockets_handleDisconnect.
    cbn [State.sockets State.set_sockets]. rewrite lookup_alter_eq.
    by destruct (State.sockets st !! ws).
  - by apply removeFirst_NoDup.
  - by apply removeFirst_NoDup.
  - intros x Hx. split; by apply removeFirst_other.
  - intros Hfree. subst st'. unfold onClose, handleDisconnect.
    set (st0 := State.set_sockets _ st).
    destruct (playerIdOf ws (State.set_waitingPlayersWager _ _)) as [pid|] eqn:Hpid; [|done].
    assert (Hpid' : playerIdOf ws st = Some pid).
    { revert Hpid. unfold playerIdOf.
      cbn [State.sockets State.set_waitingPlayersWager State.set_waitingPlayersCasual st0
           State.set_sockets].
      rewrite lookup_alter_eq. by destruct (State.sockets st !! ws). }
    cbn [State.playerToGame State.set_waitingPlayersWager State.set_waitingPlayersCasual st0
         State.set_sockets].
    by rewrite (Hfree pid Hpid').
Qed.

Lemma closed_socket_leaves_the_queues_witness :
  1%nat ∈ State.waitingPlayersCasual casualWaiting ∧
  (1%nat ∉ State.waitingPlayersCasual (onClose 1 casualWaiting)) ∧
  sockOpen (onClose 1 casualWaiting) 1 = false.
Proof.
  assert (Hc : NoDup (State.waitingPlayersCasual casualWaiting))
    by (apply (bool_decide_unpack _); vm_compute; exact I).
  assert (Hw : NoDup (State.waitingPlayersWager casualWaiting))
    by (apply (bool_decide_unpack _); vm_compute; exact I).
  pose proof (closed_socket_leaves_the_queues 1 casualWaiting Hc Hw) as H.
  cbv zeta in H. split; [apply (bool_decide_unpack _); vm_compute; exact I|].
  split; [apply H|apply H].
Defined.

(** ** Accounts *)


Lemma sliceLast_length {A} (n : nat) (l : list A) :
  length (sliceLast n l) = Nat.min n (length l).
Proof. unfold sliceLast. rewrite length_drop. lia. Qed.

Lemma sliceLast_last {A} (n : nat) (l : list A) (x : A) :
  (0 < n)%nat → x ∈ sliceLast n (l ++ [x]).
Proof.
  intros Hn. unfold sliceLast. rewrite length_app. cbn [length].
  rewrite drop_app_le by lia. apply elem_of_app. right. apply list_elem_of_singleton. done.
Qed.

Lemma sliceLast_all {A} (n : nat) (l : list A) : (length l ≤ n)%nat → sliceLast n l = l.
Proof. intros Hn. unfold sliceLast. replace (length l - n)%nat with 0%nat by lia. done. Qed.

Section AccountProperties.
Variable hashPin : string → string.

(** X18. A login with the right pin opens a session: [verifyPin] returns
    the fresh token with the inventory, the token is accepted by
    [verifySession] from then on, the account keeps at most ten sessions
    (the ten most recent ones), so that while fewer than ten were open every
    older session stays valid, and neither the inventory, the pin, the
    history nor any other account changes. *)
Theorem login_opens_a_session (name pin token now : string)
    (players : gmap string Account.t) (acct : Account.t) :
  players !! name = Some acct →
  Account.pinHash acct = hashPin pin →
  let res := verifyPin hashPin name pin token now players in
  res.1 = PinVerified token (Account.inventory acct) ∧
  (∃ acct', res.2 !! name = Some acct' ∧
            Account.sessions acct' = sliceLast 10 (Account.sessions acct ++ [token]) ∧
            (length (Account.sessions acct') ≤ 10)%nat ∧
            Account.inventory acct' = Account.inventory acct ∧
            Account.pinHash acct' = Account.pinHash acct ∧
            Account.history acct' = Account.history acct) ∧
  (∀ other, other ≠ name → res.2 !! other = players !! other) ∧
  (∀ now', (verifySession name token now' res.2).1 = Some (Account.inventory acct)) ∧
  (∀ old now', (length (Account.sessions acct) < 10)%nat →
     old ∈ Account.sessions acct →
     (verifySession name old now' res.2).1 = Some (Account.inventory acct)).
Proof.
  intros Hacct Hpin res. subst res. unfold verifyPin. rewrite Hacct.
  rewrite bool_decide_false by (intros Hne; by apply Hne).
  cbn [fst snd].
  set (pushed := Account.sessions acct ++ [token]).
  assert (Hsessions : (if bool_decide (10 < length pushed)%nat then sliceLast 10 pushed
                       else pushed) = sliceLast 10 pushed).
  { case_bool_decide; [done|]. by rewrite sliceLast_all by lia. }
  rewrite Hsessions. split_and!.
  - done.
  - eexists. split; [apply lookup_insert_eq|]. split_and!; try done.
    cbn. rewrite sliceLast_length. lia.
  - intros other Hother. by rewrite lookup_insert_ne.
  - intros now'. unfold verifySession. rewrite lookup_insert_eq.
    cbn [Account.sessions Account.set_lastSeen Account.set_sessions].
    rewrite bool_decide_true by (apply sliceLast_last; lia). done.
  - intros old now' Hlen Hold. unfold verifySession. rewrite lookup_insert_eq.
    cbn [Account.sessions Account.set_lastSeen Account.set_sessions].
    rewrite sliceLast_all by (subst pushed; rewrite length_app; cbn; lia).
    rewrite bool_decide_true by (apply elem_of_app; by left). done.
Qed.

End AccountProperties.

Lemma getc_addItem (inv : gmap string Z) (item x : string) :
  getc (addItem inv item) x = getc inv x + (if bool_decide (item = x) then 1 else 0).
Proof.
  unfold addItem, getc. case_bool_decide as Hx.
  - subst. by rewrite lookup_insert_eq.
  - rewrite lookup_insert_ne by done. lia.
Qed.

Lemma getc_addItems (items : list string) (inv : gmap string Z) (x : string) :
  getc (foldl addItem inv items) x = getc inv x + occurrences x items.
Proof.
  revert inv. induction items as [|item items IH]; intros inv; cbn [foldl].
  - unfold occurrences. cbn. lia.
  - rewrite IH, getc_addItem. unfold occurrences. rewrite filter_cons.
    case_bool_decide; destruct (decide (item = x)); try done; cbn [length]; lia.
Qed.


Lemma login_opens_a_session_witness :
  (verifyPin (fun pin => pin) "ann" "1234" "t1" "d1" demoAccounts).1
  = PinVerified "t1" (gold 1) ∧
  (verifySession "ann" "t1" "d2"
     (verifyPin (fun pin => pin) "ann" "1234" "t1" "d1" demoAccounts).2).1
  = Some (gold 1).
Proof.
  assert (Hacct : demoAccounts !! "ann"%string
                  = Some (Account.mk "1234" (gold 1) "d0" "d0" ["t0"%string] []))
    by computed.
  pose proof (login_opens_a_session (fun pin => pin) "ann" "1234" "t1" "d1" demoAccounts _
                Hacct eq_refl) as H.
  cbv zeta in H. destruct H as (Hres & _ & _ & Hsession & _).
  split; [exact Hres|exact (Hsession "d2"%string)].
Defined.

(** ** Boards *)


Section SortDescending.
Context {A : Type} (key : A → Z) (cmp : A → A → Z).
Hypothesis cmp_key : ∀ a b, cmp a b = key b - key a.

Lemma insertBy_perm (x : A) (l : list A) : insertBy cmp x l ≡ₚ x :: l.
Proof.
  induction l as [|y l IH]; cbn [insertBy]; [done|].
  destruct (cmp x y <=? 0); [done|]. rewrite IH. apply Permutation_swap.
Qed.

Lemma sortBy_perm (l : list A) : sortBy cmp l ≡ₚ l.
Proof. induction l as [|x l IH]; cbn [sortBy]; [done|]. by rewrite insertBy_perm, IH. Qed.

Lemma insertBy_descending (x : A) (l : list A) :
  descending key l → descending key (insertBy cmp x l).
Proof.
  unfold descending.
  induction 1 as [|y l Hl IH Hy]; cbn [insertBy]; [repeat constructor|].
  rewrite cmp_key. destruct (Z.leb_spec (key y - key x) 0) as [Hle|Hgt].
  - constructor; [by constructor|]. constructor; [lia|].
    eapply Forall_impl; [exact Hy|]. cbn. intros z ?. lia.
  - constructor; [done|]. rewrite insertBy_perm. constructor; [lia|done].
Qed.

Lemma sortBy_descending (l : list A) : descending key (sortBy cmp l).
Proof.
  induction l as [|x l IH]; cbn [sortBy]; [constructor|by apply insertBy_descending].
Qed.

(** The sort is stable: a list that is in order already stays as it is. *)
Lemma sortBy_sorted_id (l : list A) : descending key l → sortBy cmp l = l.
Proof.
  unfold descending. induction 1 as [|x l Hl IH Hx]; cbn [sortBy]; [done|].
  rewrite IH. destruct l as [|y l]; [done|]. cbn [insertBy]. rewrite cmp_key.
  apply Forall_cons in Hx as [Hxy _]. destruct (Z.leb_spec (key y - key x) 0); [done|lia].
Qed.

Lemma descending_app (l1 l2 : list A) :
  descending key (l1 ++ l2) → ∀ x y, x ∈ l1 → y ∈ l2 → key y ≤ key x.
Proof.
  unfold descending. induction l1 as [|a l1 IH]; intros Hs x y Hx Hy.
  - by apply not_elem_of_nil in Hx.
  - cbn [app] in Hs. apply StronglySorted_inv in Hs as [Hs Ha].
    apply elem_of_cons in Hx as [->|Hx]; [|by apply IH].
    rewrite Forall_forall in Ha. apply Ha, elem_of_app. by right.
Qed.

Lemma descending_take (n : nat) (l : list A) : descending key l → descending key (take n l).
Proof.
  unfold descending. intros Hs. revert n. induction Hs as [|x l Hl IH Hx]; intros [|n];
    cbn [take]; try constructor; [by apply IH|].
  rewrite Forall_forall in *. intros y Hy. by apply Hx, (subseteq_take n l).
Qed.

(** The best [n] of a list: in order, with nothing better left out. *)
Lemma top_of_sorted (n : nat) (l : list A) :
  let top := take n (sortBy cmp l) in
  let rest := drop n (sortBy cmp l) in
  descending key top ∧
  length top = Nat.min n (length l) ∧
  top ++ rest ≡ₚ l ∧
  (∀ x y, x ∈ rest → y ∈ top → key x ≤ key y).
Proof.
  intros top rest. subst top rest. split_and!.
  - apply descending_take, sortBy_descending.
  - by rewrite length_take, sortBy_perm.
  - by rewrite take_drop, sortBy_perm.
  - intros x y Hx Hy. apply (descending_app (take n (sortBy cmp l)) (drop n (sortBy cmp l)));
      [rewrite take_drop; apply sortBy_descending|done..].
Qed.
End SortDescending.

(** X21. A board of [handleSubmitScore] keeps the best twenty: after a
    submission the board is in descending order of value and holds the
    old entries and the new one up to twenty; what is left out is not better
    than anything kept; a submission that beats an entry of a board of at
    most twenty is on the board afterwards; and on a board in order a
    submission that beats nobody goes to the end, behind the entries it ties
    with, so that it does not enter a full board. *)
Theorem board_keeps_the_best (e : Entry.t) (board : list Entry.t) :
  let board' := addToBoard e board in
  descending Entry.value board' ∧
  length board' = Nat.min 20 (S (length board)) ∧
  (∃ dropped, board' ++ dropped ≡ₚ board ++ [e] ∧
              ∀ x y, x ∈ dropped → y ∈ board' → Entry.value x ≤ Entry.value y) ∧
  ((length board ≤ 20)%nat →
   ∀ x, x ∈ board → Entry.value x < Entry.value e → e ∈ board') ∧
  (descending Entry.value board →
   (∀ x, x ∈ board → Entry.value e ≤ Entry.value x) →
   board' = take 20 (board ++ [e])).
Proof.
  intros board'.
  pose proof (top_of_sorted Entry.value byValueDesc (fun a b => eq_refl) 20 (board ++ [e]))
    as Htop. cbv zeta in Htop.
  change (take 20 (sortBy byValueDesc (board ++ [e]))) with board' in Htop.
  destruct Htop as (Hsorted & Hlen & Hperm & Hbest).
  split_and!.
  - exact Hsorted.
  - rewrite Hlen, length_app. cbn [length]. lia.
  - eexists. split; [exact Hperm|exact Hbest].
  - intros Hfull x Hx Hlt.
    set (rest := drop 20 (sortBy byValueDesc (board ++ [e]))) in *.
    assert (He : e ∈ board' ++ rest) by (rewrite Hperm; apply elem_of_app; right; by left).
    apply elem_of_app in He as [He|He]; [done|].
    assert (Hx' : x ∈ board' ++ rest) by (rewrite Hperm; apply elem_of_app; by left).
    assert (Hxrest : x ∈ rest).
    { apply elem_of_app in Hx' as [Hx'|Hx']; [|done].
      specialize (Hbest e x He Hx'). lia. }
    assert (Hrest : (2 ≤ length rest)%nat).
    { destruct rest as [|a [|b rest']]; cbn [length]; [|..|lia].
      - by apply not_elem_of_nil in He.
      - apply list_elem_of_singleton in He, Hxrest. subst. lia. }
    assert (Htotal : (length board' + length rest = S (length board))%nat).
    { rewrite <- length_app, Hperm, length_app. cbn [length]. lia. }
    rewrite Hlen, length_app in Htotal. cbn [length] in Htotal. lia.
  - intros Hboard Hall. subst board'. unfold addToBoard.
    rewrite (sortBy_sorted_id Entry.value byValueDesc (fun a b => eq_refl)); [done|].
    unfold descending in *. clear -Hboard Hall.
    induction Hboard as [|x l Hl IH Hx]; cbn [app].
    + repeat constructor.
    + constructor.
      * apply IH. intros y Hy. apply Hall. by right.
      * rewrite Forall_app. split; [done|]. constructor; [|done]. apply Hall. by left.
Qed.

Lemma totalItemsOf_fresh (m : gmap string Z) (k : string) (v : Z) :
  m !! k = None → totalItemsOf (<[k := v]> m) = totalItemsOf m + v.
Proof.
  intros Hk. unfold totalItemsOf. rewrite map_fold_insert_L; [done| |done].
  intros. lia.
Qed.

Lemma totalItemsOf_insert (m : gmap string Z) (k : string) (v : Z) :
  totalItemsOf (<[k := v]> m) = totalItemsOf m - getc m k + v.
Proof.
  unfold getc. destruct (m !! k) as [old|] eqn:Hk; cbn [default].
  - rewrite <- (insert_delete_eq m k v).
    rewrite <- (insert_delete_id m k old Hk) at 2.
    rewrite !totalItemsOf_fresh by apply lookup_delete_eq. unfold id. lia.
  - rewrite totalItemsOf_fresh by done. lia.
Qed.

Lemma totalItemsOf_addItems (items : list string) (inv : gmap string Z) :
  totalItemsOf (foldl addItem inv items) = totalItemsOf inv + Z.of_nat (length items).
Proof.
  revert inv. induction items as [|item items IH]; intros inv; cbn [foldl length].
  - lia.
  - rewrite IH. unfold addItem. rewrite totalItemsOf_insert. lia.
Qed.

(** X22. [getRichestPlayers] returns at most [limit] rows in descending
    order of the total; every row is the name, the inventory and the sum
    of the inventory of one account of the store; an account that is left
    out holds no more than any listed one; and each item that
    [addItemsToPlayer] adds raises the total of an inventory by one. *)
Theorem richest_are_ranked (limit : nat) (entries : list (string * Account.t)) :
  let rows := getRichestPlayers limit entries in
  descending Rich.totalItems rows ∧
  length rows = Nat.min limit (length entries) ∧
  (∀ r, r ∈ rows →
     ∃ acct, (Rich.name r, acct) ∈ entries ∧
             Rich.inventory r = Account.inventory acct ∧
             Rich.totalItems r = totalItemsOf (Account.inventory acct)) ∧
  (∀ name acct, (name, acct) ∈ entries →
     Rich.mk name (totalItemsOf (Account.inventory acct)) (Account.inventory acct) ∈ rows ∨
     ∀ r, r ∈ rows → totalItemsOf (Account.inventory acct) ≤ Rich.totalItems r) ∧
  (∀ inv items, totalItemsOf (foldl addItem inv items)
                = totalItemsOf inv + Z.of_nat (length items)).
Proof.
  intros rows.
  set (toRow := fun '(name, data) =>
                  Rich.mk name (totalItemsOf (Account.inventory data)) (Account.inventory data)).
  pose proof (top_of_sorted Rich.totalItems byTotalDesc (fun a b => eq_refl) limit
                (map toRow entries)) as Htop. cbv zeta in Htop.
  change (take limit (sortBy byTotalDesc (map toRow entries))) with rows in Htop.
  destruct Htop as (Hsorted & Hlen & Hperm & Hbest).
  split_and!.
  - exact Hsorted.
  - by rewrite Hlen, length_map.
  - intros r Hr.
    assert (Hin : r ∈ map toRow entries).
    { rewrite <- Hperm. apply elem_of_app. by left. }
    apply list_elem_of_fmap in Hin as [[name acct] [-> Hin]]. exists acct. by split_and!.
  - intros name acct Hin.
    assert (Hrow : toRow (name, acct) ∈ rows ++ drop limit (sortBy byTotalDesc (map toRow entries))).
    { rewrite Hperm. apply list_elem_of_fmap. by exists (name, acct). }
    apply elem_of_app in Hrow as [Hrow|Hrow]; [by left|right].
    intros r Hr. exact (Hbest _ _ Hrow Hr).
  - intros inv items. apply totalItemsOf_addItems.
Qed.

(** ** The Scrabble games *)


Lemma swap_perm {A} (i j : nat) (a : list A) : swap i j a ≡ₚ a.
Proof.
  unfold swap. destruct (a !! i) as [x|] eqn:Hi; [|done].
  destruct (a !! j) as [y|] eqn:Hj; [|done].
  by apply Permutation_insert_swap.
Qed.

Lemma shuffleFrom_perm {A} (i : nat) (draws : list nat) (a : list A) :
  shuffleFrom i draws a ≡ₚ a.
Proof.
  revert draws a. induction i as [|i IH]; intros draws a; [done|].
  destruct draws as [|j draws]; [done|]. cbn [shuffleFrom]. by rewrite IH, swap_perm.
Qed.

Lemma swap_in_range {A} (i j : nat) (a : list A) :
  (i < length a)%nat → (j < length a)%nat →
  swap i j a !! i = a !! j ∧ swap i j a !! j = a !! i ∧
  ∀ k, k ≠ i → k ≠ j → swap i j a !! k = a !! k.
Proof.
  intros Hi Hj. unfold swap.
  destruct (lookup_lt_is_Some_2 a i Hi) as [x Hx], (lookup_lt_is_Some_2 a j Hj) as [y Hy].
  rewrite Hx, Hy. split_and!.
  - destruct (decide (i = j)) as [->|Hne].
    + rewrite list_lookup_insert_eq by (by rewrite length_insert). congruence.
    + rewrite list_lookup_insert_ne by done. by rewrite list_lookup_insert_eq.
  - by rewrite list_lookup_insert_eq by (by rewrite length_insert).
  - intros k Hki Hkj. by rewrite !list_lookup_insert_ne.
Qed.

Lemma shuffleFrom_above {A} (i k : nat) (draws : list nat) (a : list A) :
  (i < k)%nat → drawsFit i draws → shuffleFrom i draws a !! k = a !! k.
Proof.
  revert draws a. induction i as [|i IH]; intros draws a Hk Hfit; [by destruct draws|].
  destruct draws as [|j draws]; [done|]. cbn [shuffleFrom drawsFit] in *.
  destruct Hfit as [Hj Hfit]. rewrite IH by (done || lia).
  unfold swap. destruct (a !! S i) as [x|] eqn:Hx; [|done].
  destruct (a !! j) as [y|] eqn:Hy; [|done].
  by rewrite !list_lookup_insert_ne by lia.
Qed.

(** X23. [shuffleArray] loses and invents nothing: the result is a
    rearrangement of the array, of the same length; and the first draw
    decides which element comes last. *)
Theorem shuffle_is_a_rearrangement {A} (arr : list A) (draws : list nat) :
  drawsFit (length arr - 1) draws →
  shuffleArray arr draws ≡ₚ arr ∧
  length (shuffleArray arr draws) = length arr ∧
  (∀ j draws', draws = j :: draws' →
     shuffleArray arr draws !! (length arr - 1)%nat = arr !! j).
Proof.
  intros Hfit. assert (Hperm : shuffleArray arr draws ≡ₚ arr) by apply shuffleFrom_perm.
  split_and!; [done|by rewrite Hperm|]. intros j draws' ->.
  unfold shuffleArray in *. destruct (length arr - 1)%nat as [|i] eqn:Hlen; [done|].
  cbn [shuffleFrom drawsFit] in *. destruct Hfit as [Hj Hfit].
  rewrite shuffleFrom_above by (done || lia).
  apply swap_in_range; lia.
Qed.

Lemma shuffle_is_a_rearrangement_witness :
  shuffleArray [1; 2; 3] [0; 1]%nat ≡ₚ [1; 2; 3] ∧
  shuffleArray [1; 2; 3] [0; 1]%nat !! 2%nat = Some 1.
Proof.
  assert (Hfit : drawsFit (length [1; 2; 3] - 1) [0; 1]%nat) by (cbn; lia).
  destruct (shuffle_is_a_rearrangement [1; 2; 3] [0; 1]%nat Hfit) as (Hperm & _ & Hlast).
  split; [exact Hperm|]. exact (Hlast 0%nat [1%nat] eq_refl).
Defined.

Lemma length_SCRABBLE_TILES : length SCRABBLE_TILES = 100%nat.
Proof. reflexivity. Qed.



Lemma otherPlayer_spec (game : Scrabble.t) :
  Scrabble.player1 game ≠ Scrabble.player2 game →
  Scrabble.currentTurn game = Scrabble.player1 game ∨
  Scrabble.currentTurn game = Scrabble.player2 game →
  otherPlayer game ≠ Scrabble.currentTurn game ∧
  (otherPlayer game = Scrabble.player1 game ∨ otherPlayer game = Scrabble.player2 game).
Proof.
  intros Hne Hturn. unfold otherPlayer. case_bool_decide as H1.
  - rewrite H1. split; [congruence|by right].
  - destruct Hturn as [?|H2]; [done|]. split; [congruence|by left].
Qed.

(** X25. The players of a Scrabble game move in turn.  A move or a pass
    by anyone but the player on turn is refused with an error and changes
    nothing; a pass by the player on turn hands the turn to the other
    player and changes nothing else but the move history, so that two
    passes bring the turn back; and in a game against the NPC, the move of
    the NPC is a pass that gives the turn to the first player. *)
Theorem scrabble_players_move_in_turn (gameId now : string) (data : ScrabbleData.t)
    (game : Scrabble.t) :
  ScrabbleData.games data !! gameId = Some game →
  Scrabble.player1 game ≠ Scrabble.player2 game →
  Scrabble.currentTurn game = Scrabble.player1 game ∨
  Scrabble.currentTurn game = Scrabble.player2 game →
  let onTurn := Scrabble.currentTurn game in
  let passed := handleScrabblePassTurn gameId onTurn now data in
  (∀ who tiles score, who ≠ onTurn → Scrabble.status game = "active"%string →
     handleScrabblePlayMove gameId who tiles score now data
     = (ScrabbleError "Not your turn", false, data)) ∧
  (∀ who, who ≠ onTurn →
     handleScrabblePassTurn gameId who now data = (ScrabbleError "Cannot pass", data)) ∧
  (∃ game', ScrabbleData.games passed.2 !! gameId = Some game' ∧
            Scrabble.currentTurn game' = otherPlayer game ∧
            Scrabble.currentTurn game' ≠ onTurn ∧
            Scrabble.moveHistory game' = Scrabble.moveHistory game ++ [Passed onTurn now] ∧
            Scrabble.playerHands game' = Scrabble.playerHands game ∧
            Scrabble.tileBag game' = Scrabble.tileBag game ∧
            Scrabble.scores game' = Scrabble.scores game ∧
            Scrabble.board game' = Scrabble.board game ∧
            passed.1 = MoveAccepted (getScrabbleGame gameId onTurn passed.2)) ∧
  (∀ now', ∃ game'',
     ScrabbleData.games (handleScrabblePassTurn gameId (otherPlayer game) now' passed.2).2
       !! gameId = Some game'' ∧
     Scrabble.currentTurn game'' = onTurn) ∧
  (Scrabble.isNPC game = true → Scrabble.status game = "active"%string →
   ∃ game', ScrabbleData.games (makeNPCMove gameId now data) !! gameId = Some game' ∧
            Scrabble.currentTurn game' = Scrabble.player1 game ∧
            Scrabble.moveHistory game'
            = Scrabble.moveHistory game ++ [Passed (Scrabble.player2 game) now] ∧
            Scrabble.playerHands game' = Scrabble.playerHands game ∧
            Scrabble.tileBag game' = Scrabble.tileBag game ∧
            Scrabble.scores game' = Scrabble.scores game).
Proof.
  intros Hgame Hne Hturn onTurn passed.
  destruct (otherPlayer_spec game Hne Hturn) as [Hother Hother'].
  assert (Hreply : passed.1 = MoveAccepted (getScrabbleGame gameId onTurn passed.2)).
  { subst passed. unfold handleScrabblePassTurn. rewrite Hgame.
    rewrite bool_decide_false by (intros H; by apply H). reflexivity. }
  assert (Hpassed : passed.2
    = ScrabbleData.mk
        (<[gameId := Scrabble.set_updatedAt now
                       (Scrabble.set_currentTurn (otherPlayer game)
                          (Scrabble.set_moveHistory
                             (Scrabble.moveHistory game ++ [Passed onTurn now]) game))]>
           (ScrabbleData.games data))
        (ScrabbleData.playerGames data)).
  { subst passed. unfold handleScrabblePassTurn. rewrite Hgame.
    rewrite bool_decide_false by (intros H; by apply H). reflexivity. }
  clearbody passed.
  split_and!.
  - intros who tiles score Hwho Hactive. unfold handleScrabblePlayMove. rewrite Hgame.
    rewrite bool_decide_false by (intros H; by apply H).
    by rewrite bool_decide_true by (intros Heq; by apply Hwho).
  - intros who Hwho. unfold handleScrabblePassTurn. rewrite Hgame.
    by rewrite bool_decide_true by (intros Heq; by apply Hwho).
  - rewrite Hreply, Hpassed. cbn [ScrabbleData.games]. eexists.
    split; [apply lookup_insert_eq|]. split_and!; try done.
  - intros now'. rewrite Hpassed. unfold handleScrabblePassTurn.
    cbn [ScrabbleData.games]. rewrite lookup_insert_eq.
    cbn [Scrabble.currentTurn Scrabble.set_updatedAt Scrabble.set_currentTurn].
    rewrite bool_decide_false by (intros H; by apply H).
    cbn [snd ScrabbleData.games]. eexists. split; [apply lookup_insert_eq|].
    cbn [Scrabble.currentTurn Scrabble.set_updatedAt Scrabble.set_currentTurn].
    unfold otherPlayer at 1.
    cbn [Scrabble.currentTurn Scrabble.player1 Scrabble.player2 Scrabble.set_moveHistory
         Scrabble.set_updatedAt Scrabble.set_currentTurn].
    subst onTurn. unfold otherPlayer. destruct Hturn as [H1|H2].
    + rewrite H1. rewrite (bool_decide_true (Scrabble.player1 game = _)) by done.
      by rewrite bool_decide_false by congruence.
    + rewrite H2. rewrite (bool_decide_false (Scrabble.player2 game = _)) by congruence.
      by rewrite bool_decide_true.
  - intros Hnpc Hactive. unfold makeNPCMove. rewrite Hgame, Hnpc.
    rewrite bool_decide_false by (intros H; by apply H). cbn [orb negb ScrabbleData.games].
    eexists. split; [apply lookup_insert_eq|]. by split_and!.
Qed.

Lemma scrabble_players_move_in_turn_witness :
  handleScrabblePlayMove "g1" "bob" [] 50 "d1"
    (createScrabbleGame "ann" "bob" false "g1" (replicate 99 0%nat) "d0"
       (ScrabbleData.mk ∅ ∅)).2
  = (ScrabbleError "Not your turn", false,
     (createScrabbleGame "ann" "bob" false "g1" (replicate 99 0%nat) "d0"
        (ScrabbleData.mk ∅ ∅)).2).
Proof.
  set (made := createScrabbleGame "ann" "bob" false "g1" (replicate 99 0%nat) "d0"
                 (ScrabbleData.mk ∅ ∅)).
  assert (Hgame : ScrabbleData.games made.2 !! "g1"%string = Some made.1)
    by apply lookup_insert_eq.
  assert (Hne : Scrabble.player1 made.1 ≠ Scrabble.player2 made.1) by done.
  assert (Hturn : Scrabble.currentTurn made.1 = Scrabble.player1 made.1 ∨
                  Scrabble.currentTurn made.1 = Scrabble.player2 made.1) by (by left).
  pose proof (scrabble_players_move_in_turn "g1" "d1" made.2 made.1 Hgame Hne Hturn) as H.
  cbv zeta in H. apply proj1 in H. apply H; done.
Defined.

Lemma removeLetter_submseteq (letter : string) (hand : list Tile.t) :
  removeLetter letter hand ⊆+ hand.
Proof.
  induction hand as [|t hand IH]; cbn [removeLetter]; [done|].
  case_bool_decide; [by apply submseteq_cons|by apply submseteq_skip].
Qed.

Lemma removeLetter_length (letter : string) (hand : list Tile.t) :
  (length hand - 1 ≤ length (removeLetter letter hand))%nat.
Proof.
  induction hand as [|t hand IH]; cbn [removeLetter length]; [lia|].
  case_bool_decide; cbn [length]; lia.
Qed.

Lemma removePlaced_submseteq (tiles : list Placed.t) (hand : list Tile.t) :
  removePlaced hand tiles ⊆+ hand.
Proof.
  revert hand. induction tiles as [|tile tiles IH]; intros hand; cbn; [done|].
  etrans; [apply IH|apply removeLetter_submseteq].
Qed.

Lemma removePlaced_length (tiles : list Placed.t) (hand : list Tile.t) :
  (length hand - length tiles ≤ length (removePlaced hand tiles))%nat.
Proof.
  revert hand. induction tiles as [|tile tiles IH]; intros hand; cbn; [lia|].
  etrans; [|apply IH]. pose proof (removeLetter_length (Placed.letter tile) hand). lia.
Qed.

Lemma placeTiles_inside (tiles : list Placed.t) (board : gmap (Z * Z) Cell.t) :
  Forall (fun tile => 0 ≤ Placed.row tile < 15) tiles →
  (placeTiles board tiles).2 = true ∧
  ∀ pos, Forall (fun tile => (Placed.row tile, Placed.col tile) ≠ pos) tiles →
         (placeTiles board tiles).1 !! pos = board !! pos.
Proof.
  intros Hin. revert board. induction Hin as [|tile tiles Htile Htiles IH]; intros board.
  - done.
  - cbn [placeTiles]. unfold placeTile. rewrite bool_decide_true by done.
    destruct (IH (<[(Placed.row tile, Placed.col tile) :=
                     Cell.mk (Placed.letter tile) (Placed.points tile)
                       (match Placed.assignedLetter tile with
                        | Some EmptyString | None => None
                        | Some a => Some a
                        end)]> board)) as [Hok Hframe].
    split; [done|]. intros pos Hpos. apply Forall_cons in Hpos as [Hne Hpos].
    rewrite Hframe by done. by rewrite lookup_insert_ne.
Qed.

Lemma placeTiles_outside (tiles : list Placed.t) (board : gmap (Z * Z) Cell.t) :
  Exists (fun tile => ¬ 0 ≤ Placed.row tile < 15) tiles → (placeTiles board tiles).2 = false.
Proof.
  intros Hout. revert board. induction Hout as [tile tiles Htile|tile tiles Htiles IH];
    intros board; cbn [placeTiles]; unfold placeTile.
  - by rewrite bool_decide_false.
  - case_bool_decide; [apply IH|done].
Qed.

(** X26. An accepted move keeps the tiles.  When the player on turn of an
    active game places tiles on rows of the board, the move is accepted
    whatever letters and score it claims: the tiles that leave the hand are
    tiles of the hand, one per placed letter the hand holds; the hand is
    filled up from the front of the bag with as many tiles as were placed,
    as far as the bag goes, so that hand and bag together hold what was left
    of the hand and the old bag; the claimed score is added to the player's
    score; the other hand and score stay as they are; cells that no placed
    tile names keep their content; the move is recorded, and the turn goes to
    the other player. *)
Theorem accepted_move_keeps_the_tiles (gameId playerName : string) (tiles : list Placed.t)
    (score : Z) (now : string) (data : ScrabbleData.t) (game : Scrabble.t)
    (hand : list Tile.t) (s : Z) :
  ScrabbleData.games data !! gameId = Some game →
  Scrabble.status game = "active"%string →
  Scrabble.currentTurn game = playerName →
  Forall (fun tile => 0 ≤ Placed.row tile < 15) tiles →
  Scrabble.playerHands game !! playerName = Some hand →
  Scrabble.scores game !! playerName = Some s →
  let res := handleScrabblePlayMove gameId playerName tiles score now data in
  res.1.1 = MoveAccepted (getScrabbleGame gameId playerName res.2) ∧
  res.1.2 = Scrabble.isNPC game && bool_decide (otherPlayer game = Scrabble.player2 game) ∧
  ∃ game' hand',
    ScrabbleData.games res.2 !! gameId = Some game' ∧
    Scrabble.playerHands game' !! playerName = Some hand' ∧
    hand' ++ Scrabble.tileBag game' ≡ₚ removePlaced hand tiles ++ Scrabble.tileBag game ∧
    removePlaced hand tiles ⊆+ hand ∧
    (length hand - length tiles ≤ length (removePlaced hand tiles))%nat ∧
    length hand' = (length (removePlaced hand tiles)
                    + Nat.min (length tiles) (length (Scrabble.tileBag game)))%nat ∧
    Scrabble.scores game' !! playerName = Some (s + score) ∧
    (∀ who, who ≠ playerName →
       Scrabble.playerHands game' !! who = Scrabble.playerHands game !! who ∧
       Scrabble.scores game' !! who = Scrabble.scores game !! who) ∧
    (∀ pos, Forall (fun tile => (Placed.row tile, Placed.col tile) ≠ pos) tiles →
       Scrabble.board game' !! pos = Scrabble.board game !! pos) ∧
    Scrabble.moveHistory game'
    = Scrabble.moveHistory game ++ [Played playerName (length tiles) score now] ∧
    Scrabble.isFirstMove game' = false ∧
    Scrabble.currentTurn game' = otherPlayer game.
Proof.
  intros Hgame Hactive Hturn Hrows Hhand Hscore res.
  destruct (placeTiles_inside tiles (Scrabble.board game) Hrows) as [Hok Hframe].
  subst res. unfold handleScrabblePlayMove. rewrite Hgame.
  rewrite bool_decide_false by (intros H; by apply H).
  rewrite bool_decide_false by (intros H; by apply H).
  destruct (placeTiles (Scrabble.board game) tiles) as [board placed] eqn:Hplace.
  cbn [fst snd] in Hok, Hframe. subst placed. cbn [negb].
  cbn [Scrabble.playerHands Scrabble.set_board]. rewrite Hhand.
  cbn [fst snd ScrabbleData.games]. split_and!; [done|done|].
  eexists _, _. split; [apply lookup_insert_eq|].
  cbn [Scrabble.playerHands Scrabble.tileBag Scrabble.scores Scrabble.board
       Scrabble.moveHistory Scrabble.isFirstMove Scrabble.currentTurn
       Scrabble.set_updatedAt Scrabble.set_currentTurn Scrabble.set_moveHistory
       Scrabble.set_isFirstMove Scrabble.set_scores Scrabble.set_playerHands
       Scrabble.set_tileBag Scrabble.set_board].
  split_and!.
  - apply lookup_insert_eq.
  - by rewrite <- app_assoc, take_drop.
  - apply removePlaced_submseteq.
  - apply removePlaced_length.
  - rewrite length_app, length_take. lia.
  - by rewrite lookup_alter_eq, Hscore.
  - intros who Hwho. split; [by rewrite lookup_insert_ne|by rewrite lookup_alter_ne].
  - exact Hframe.
  - done.
  - done.
  - done.
Qed.

Lemma accepted_move_keeps_the_tiles_witness :
  ∃ game',
    ScrabbleData.games
      (handleScrabblePlayMove "g1" "ann" [Placed.mk 7 7 "A" 1 None] 2 "d1"
         (createScrabbleGame "ann" "bob" false "g1" (replicate 99 0%nat) "d0"
            (ScrabbleData.mk ∅ ∅)).2).2 !! "g1"%string = Some game' ∧
    Scrabble.scores game' !! "ann"%string = Some (0 + 2) ∧
    Scrabble.currentTurn game' = "bob"%string.
Proof.
  set (made := createScrabbleGame "ann" "bob" false "g1" (replicate 99 0%nat) "d0"
                 (ScrabbleData.mk ∅ ∅)).
  assert (Hgame : ScrabbleData.games made.2 !! "g1"%string = Some made.1)
    by apply lookup_insert_eq.
  assert (Hrows : Forall (fun tile => 0 ≤ Placed.row tile < 15) [Placed.mk 7 7 "A" 1 None])
    by (repeat constructor; cbn; lia).
  assert (Hhand : Scrabble.playerHands made.1 !! "ann"%string
                  = Some (take 7 (shuffleArray SCRABBLE_TILES (replicate 99 0%nat)))).
  { cbn [made createScrabbleGame fst Scrabble.playerHands].
    rewrite lookup_insert_ne by done. apply lookup_singleton_eq. }
  assert (Hscore : Scrabble.scores made.1 !! "ann"%string = Some 0).
  { cbn [made createScrabbleGame fst Scrabble.scores].
    rewrite lookup_insert_ne by done. apply lookup_singleton_eq. }
  pose proof (accepted_move_keeps_the_tiles "g1" "ann" [Placed.mk 7 7 "A" 1 None] 2 "d1"
                made.2 made.1 _ 0 Hgame eq_refl eq_refl Hrows Hhand Hscore) as H.
  cbv zeta in H. destruct H as (_ & _ & game' & hand' & Hg & _ & _ & _ & _ & _ & Hs & _ & _ & _ & _ & Ht).
  exists game'. split_and!; [exact Hg|exact Hs|]. rewrite Ht. reflexivity.
Defined.

(** X27. A move with a tile on a row outside the board is dropped: the
    handler throws before it replies, and the hands, the bag, the scores,
    the move history and the turn are as before (the tiles written before
    the stray one stay on the board). *)
Theorem stray_tile_drops_the_move (gameId playerName : string) (tiles : list Placed.t)
    (score : Z) (now : string) (data : ScrabbleData.t) (game : Scrabble.t) :
  ScrabbleData.games data !! gameId = Some game →
  Scrabble.status game = "active"%string →
  Scrabble.currentTurn game = playerName →
  Exists (fun tile => ¬ 0 ≤ Placed.row tile < 15) tiles →
  let res := handleScrabblePlayMove gameId playerName tiles score now data in
  res.1.1 = Thrown ∧
  res.1.2 = false ∧
  ScrabbleData.playerGames res.2 = ScrabbleData.playerGames data ∧
  (∀ other, other ≠ gameId →
     ScrabbleData.games res.2 !! other = ScrabbleData.games data !! other) ∧
  ∃ game', ScrabbleData.games res.2 !! gameId = Some game' ∧
           Scrabble.playerHands game' = Scrabble.playerHands game ∧
           Scrabble.tileBag game' = Scrabble.tileBag game ∧
           Scrabble.scores game' = Scrabble.scores game ∧
           Scrabble.moveHistory game' = Scrabble.moveHistory game ∧
           Scrabble.currentTurn game' = Scrabble.currentTurn game ∧
           Scrabble.isFirstMove game' = Scrabble.isFirstMove game.
Proof.
  intros Hgame Hactive Hturn Hout res.
  pose proof (placeTiles_outside tiles (Scrabble.board game) Hout) as Hfail.
  subst res. unfold handleScrabblePlayMove. rewrite Hgame.
  rewrite bool_decide_false by (intros H; by apply H).
  rewrite bool_decide_false by (intros H; by apply H).
  destruct (placeTiles (Scrabble.board game) tiles) as [board placed].
  cbn [snd] in Hfail. subst placed. cbn [negb fst snd ScrabbleData.games
                                         ScrabbleData.playerGames].
  split_and!; try done.
  - intros other Hother. by rewrite lookup_insert_ne.
  - eexists. split; [apply lookup_insert_eq|]. by split_and!.
Qed.

Lemma stray_tile_drops_the_move_witness :
  (handleScrabblePlayMove "g1" "ann" [Placed.mk 15 0 "A" 1 None] 2 "d1"
     (createScrabbleGame "ann" "bob" false "g1" (replicate 99 0%nat) "d0"
        (ScrabbleData.mk ∅ ∅)).2).1.1 = Thrown.
Proof.
  set (made := createScrabbleGame "ann" "bob" false "g1" (replicate 99 0%nat) "d0"
                 (ScrabbleData.mk ∅ ∅)).
  assert (Hgame : ScrabbleData.games made.2 !! "g1"%string = Some made.1)
    by apply lookup_insert_eq.
  assert (Hout : Exists (fun tile => ¬ 0 ≤ Placed.row tile < 15) [Placed.mk 15 0 "A" 1 None])
    by (constructor; cbn; lia).
  pose proof (stray_tile_drops_the_move "g1" "ann" [Placed.mk 15 0 "A" 1 None] 2 "d1"
                made.2 made.1 Hgame eq_refl eq_refl Hout) as H.
  cbv zeta in H. apply H.
Defined.

(** ** Names and the account handlers *)





Section HandlerProperties.
Variable hashPin : string → string.


End HandlerProperties.

Lemma addItemsToPlayer_known (name : string) (items : list string) (now : string)
    (players : gmap string Account.t) (acct : Account.t) :
  players !! name = Some acct →
  ∃ acct', addItemsToPlayer name items now players
           = (Some (Account.inventory acct'), <[name := acct']> players) ∧
           Account.inventory acct' = foldl addItem (Account.inventory acct) items ∧
           Account.sessions acct' = Account.sessions acct ∧
           Account.pinHash acct' = Account.pinHash acct.
Proof.
  intros Hacct. unfold addItemsToPlayer. rewrite Hacct.
  eexists (Account.set_history _
             (Account.set_lastSeen now
                (Account.set_inventory (foldl addItem (Account.inventory acct) items) acct))).
  by split_and!.
Qed.

Lemma bonusRollsOf_from (words : list string) (b : Z) :
  foldl (fun bonus word =>
           let bonus1 := if (String.length word =? 5)%nat then bonus + 1 else bonus in
           if (7 <=? String.length word)%nat then bonus1 + 2 else bonus1) b words
  = b + Z.of_nat (length (filter (fun w => String.length w = 5%nat) words))
      + 2 * Z.of_nat (length (filter (fun w => (7 ≤ String.length w)%nat) words)).
Proof.
  revert b. induction words as [|w words IH]; intros b; cbn [foldl].
  - cbn. lia.
  - rewrite IH, !filter_cons. cbv zeta.
    destruct (Nat.eqb_spec (String.length w) 5) as [H5|H5];
      destruct (Nat.leb_spec 7 (String.length w)) as [H7|H7];
      destruct (decide (String.length w = 5%nat));
      destruct (decide (7 ≤ String.length w)%nat); try lia; cbn [length]; lia.
Qed.

Lemma length_rollMultipleItems (count : Z) (draw : nat → string) :
  length (rollMultipleItems count draw) = Z.to_nat count.
Proof. unfold rollMultipleItems. by rewrite length_map, length_seq. Qed.

(** X30. Rolls reach the account.  [handleRollItems] grants one bonus
    roll for every word of exactly five letters and two for every word of
    seven or more (none for four or six letters) on top of the base rolls
    (1 when the base is absent or 0).  For an unknown name the rolls are
    sent back with [needsPin] and nothing is stored.  For an account, a
    session token that is given and not among its sessions is refused with
    [Invalid session] and nothing is stored; with a valid token, and also
    when no token is given, every rolled item is added to the inventory of
    the account, whose sessions and pin and all other accounts stay as they
    are. *)
Theorem rolls_reach_the_account (name sessionToken : string) (baseRolls : option Z)
    (words : list string) (draw : nat → string) (now : string) (keys : list string)
    (players : gmap string Account.t) :
  let res := handleRollItems name sessionToken baseRolls words draw now keys players in
  let bonus := bonusRollsOf words in
  let total := match baseRolls with
               | Some n => if n =? 0 then 1 else n
               | None => 1
               end + bonus in
  let rolls := rollMultipleItems total draw in
  bonus = Z.of_nat (length (filter (fun w => String.length w = 5%nat) words))
          + 2 * Z.of_nat (length (filter (fun w => (7 ≤ String.length w)%nat) words)) ∧
  length rolls = Z.to_nat total ∧
  (findPlayerCaseInsensitive (cleanNameOf name) keys = None →
   res = (RolledNeedsPin rolls baseRolls bonus, players)) ∧
  (∀ canonical acct,
     findPlayerCaseInsensitive (cleanNameOf name) keys = Some canonical →
     players !! canonical = Some acct →
     (sessionToken ≠ EmptyString → sessionToken ∉ Account.sessions acct →
      res = (RollFailed "Invalid session", players)) ∧
     (sessionToken = EmptyString ∨ sessionToken ∈ Account.sessions acct →
      ∃ acct', res.2 !! canonical = Some acct' ∧
               res.1 = Rolled rolls baseRolls bonus (Account.inventory acct') ∧
               (∀ item, getc (Account.inventory acct') item
                        = getc (Account.inventory acct) item + occurrences item rolls) ∧
               Account.sessions acct' = Account.sessions acct ∧
               Account.pinHash acct' = Account.pinHash acct ∧
               ∀ other, other ≠ canonical → res.2 !! other = players !! other)).
Proof.
  intros res bonus total rolls. split_and!.
  - subst bonus. unfold bonusRollsOf. rewrite bonusRollsOf_from. lia.
  - apply length_rollMultipleItems.
  - intros Hnone. subst res. unfold handleRollItems. by rewrite Hnone.
  - intros canonical acct Hfind Hacct. split.
    + intros Htoken Hnot. subst res. unfold handleRollItems. rewrite Hfind, Hacct.
      rewrite bool_decide_false by done. unfold verifySession. rewrite Hacct.
      rewrite (bool_decide_false (sessionToken ∈ _)) by done. cbn [fst snd].
      rewrite bool_decide_false by (by intros [? ?]). done.
    + intros Hok. subst res. unfold handleRollItems. rewrite Hfind, Hacct.
      fold bonus. fold total. fold rolls.
      set (checked := if bool_decide (sessionToken = EmptyString) then (true, players)
                      else _).
      assert (Hchecked : checked.1 = true ∧
                ∃ acct0, checked.2 !! canonical = Some acct0 ∧
                         Account.inventory acct0 = Account.inventory acct ∧
                         Account.sessions acct0 = Account.sessions acct ∧
                         Account.pinHash acct0 = Account.pinHash acct ∧
                         Account.history acct0 = Account.history acct ∧
                         ∀ other, other ≠ canonical → checked.2 !! other = players !! other).
      { subst checked. case_bool_decide as Hempty.
        - split; [done|]. exists acct. by split_and!.
        - destruct Hok as [?|Hin]; [done|]. unfold verifySession. rewrite Hacct.
          rewrite (bool_decide_true (sessionToken ∈ _)) by done. cbn [fst snd].
          split; [by rewrite bool_decide_true|]. eexists. split; [apply lookup_insert_eq|].
          split_and!; try done. intros other Hother. by rewrite lookup_insert_ne. }
      destruct Hchecked as (Hc1 & acct0 & Hc2 & Hinv & Hsess & Hpin & Hhist & Hothers).
      rewrite Hc1. cbn [negb].
      destruct (addItemsToPlayer_known canonical rolls now checked.2 acct0 Hc2)
        as (acct' & -> & Hinv' & Hs & Hp).
      cbn [fst snd]. exists acct'. split_and!.
      * apply lookup_insert_eq.
      * done.
      * intros item. by rewrite Hinv', getc_addItems, Hinv.
      * congruence.
      * congruence.
      * intros other Hother. rewrite lookup_insert_ne by done. by apply Hothers.
Qed.




(** ** Further examples *)

Lemma update_wager_moves_no_items_witness :
  State.itemsData (handleUpdateWager 1 1000 (gold 1) wagerMatched)
  = State.itemsData wagerMatched ∧
  State.outbox (handleUpdateWager 1 1000 (gold 1) wagerMatched)
  = State.outbox wagerMatched ++ [(2%nat, MWagerUpdated (gold 1))].
Proof.
  assert (Hget : getGame 1000 wagerMatched = Some (0%nat, gameOf 1000 wagerMatched))
    by computed.
  assert (Hpid : playerIdOf 1 wagerMatched = Some "p1"%string) by computed.
  assert (Hidx : Game.findIndex "p1" (gameOf 1000 wagerMatched) = Some 1%nat) by computed.
  assert (Hstatus : Game.status (gameOf 1000 wagerMatched) = SWager) by computed.
  pose proof (update_wager_moves_no_items 1 1000 (gold 1) wagerMatched) as H.
  cbv zeta in H. destruct H as (Hitems & _ & _ & _ & Hlive).
  split; [exact Hitems|].
  destruct (Hlive _ _ _ _ Hget Hpid Hidx) as [Hwager _].
  destruct (Hwager Hstatus) as [_ Hout]. rewrite Hout. computed.
Defined.


Lemma board_keeps_the_best_witness :
  Entry.mk "cy" 40 None 4 "medium" "d3"
  ∈ addToBoard (Entry.mk "cy" 40 None 4 "medium" "d3")
      [Entry.mk "ann" 50 None 4 "medium" "d1"; Entry.mk "bob" 30 None 4 "medium" "d2"].
Proof.
  pose proof (board_keeps_the_best (Entry.mk "cy" 40 None 4 "medium" "d3")
                [Entry.mk "ann" 50 None 4 "medium" "d1";
                 Entry.mk "bob" 30 None 4 "medium" "d2"]) as H.
  cbv zeta in H. apply proj2, proj2, proj2, proj1 in H.
  apply (H ltac:(cbn; lia) (Entry.mk "bob" 30 None 4 "medium" "d2")).
  - apply elem_of_cons. right. apply elem_of_cons. by left.
  - cbn. lia.
Defined.

Lemma richest_are_ranked_witness :
  length (getRichestPlayers 1
            [("ann"%string, Account.mk "1234" (gold 1) "d0" "d0" [] []);
             ("bob"%string, Account.mk "5678" (gold 4) "d0" "d0" [] [])]) = 1%nat.
Proof.
  pose proof (richest_are_ranked 1
                [("ann"%string, Account.mk "1234" (gold 1) "d0" "d0" [] []);
                 ("bob"%string, Account.mk "5678" (gold 4) "d0" "d0" [] [])]) as H.
  cbv zeta in H. apply proj2, proj1 in H. exact H.
Defined.

Lemma rolls_reach_the_account_witness :
  ∃ acct', (handleRollItems "ann" "" (Some 1) ["HELLO"%string] (fun _ => "gold_coin"%string)
              "d1" ["ann"%string] demoAccounts).2 !! "ann"%string = Some acct' ∧
           getc (Account.inventory acct') "gold_coin" = 1 + 2.
Proof.
  pose proof (rolls_reach_the_account "ann" "" (Some 1) ["HELLO"%string]
                (fun _ => "gold_coin"%string) "d1" ["ann"%string] demoAccounts) as H.
  cbv zeta in H. apply proj2, proj2, proj2 in H.
  assert (Hfind : findPlayerCaseInsensitive (cleanNameOf "ann") ["ann"%string]
                  = Some "ann"%string) by computed.
  destruct (H _ _ Hfind (lookup_singleton_eq _ _)) as [_ Hok].
  destruct (Hok (or_introl eq_refl)) as (acct' & Hlook & _ & Hcount & _).
  exists acct'. split; [exact Hlook|]. rewrite Hcount. computed.
Defined.
